(** * Batch text patchers of [zscripts/]: a shallow embedding

    The four scripts [add_dark_mode.py], [add_toggle_component.py],
    [add_toggle_final.py] and [manual_toggle_add.py] patch source files of a
    web front end with regular expressions.  This development embeds

    - Python text ([str]) as lists of characters, with slicing, [in],
      [strip], [lower] and [replace];
    - the fragment of Python's [re] that the scripts' patterns use, as a
      backtracking matcher with Python's priorities (leftmost start,
      greedy and lazy repetition, optional groups, negative lookahead),
      together with [re.search], [re.finditer] and [re.sub];
    - the file system and the console as an explicit world, threaded by a
      small state-and-exception monad;
    - each script as a module whose definitions follow the source line by
      line.

    Characters are the code points below 256; every literal of the scripts
    is ASCII. *)

From Stdlib Require Import Ascii String List Arith Bool Lia DecimalString.
From stdpp Require Import gmap strings.
Import ListNotations.

Local Open Scope nat_scope.
Local Open Scope list_scope.

(** ** Python text *)

Abbreviation text := (list ascii).

(** A string literal of the source. *)
Definition lit (x : string) : text := list_ascii_of_string x.

Definition dq : ascii := Eval cbv in ascii_of_nat 34.
Definition nl : ascii := Eval cbv in ascii_of_nat 10.
Definition lt_char : ascii := Eval cbv in ascii_of_nat 60.

(** [content[a:b]], [content[:b]] and [content[a:]] for non-negative
    bounds; Python clamps the bounds to the length, as [firstn] and
    [skipn] do. *)
Definition slice (t : text) (a b : nat) : text := firstn (b - a) (skipn a t).

Definition text_eqb (a b : text) : bool := bool_decide (a = b).

Fixpoint starts_with (p t : text) : bool :=
  match p, t with
  | [], _ => true
  | _ :: _, [] => false
  | a :: p', b :: t' => Ascii.eqb a b && starts_with p' t'
  end.

(** [p in t] on strings. *)
Fixpoint contains (p t : text) : bool :=
  starts_with p t ||
  match t with
  | [] => false
  | _ :: t' => contains p t'
  end.

(** [t.count(p)] counts occurrences; here every start position is counted,
    which is the same for patterns that cannot overlap themselves. *)
Fixpoint count_occ_text (p t : text) : nat :=
  (if starts_with p t then 1 else 0) +
  match t with
  | [] => 0
  | _ :: t' => count_occ_text p t'
  end.

(** [str.isspace] for one character (and [\s] of [re] on [str]). *)
Definition is_space (c : ascii) : bool :=
  let n := nat_of_ascii c in
  ((9 <=? n) && (n <=? 13)) || ((28 <=? n) && (n <=? 32))
  || (n =? 133) || (n =? 160).

(** [\d] of [re] on [str], below 256. *)
Definition is_digit (c : ascii) : bool :=
  let n := nat_of_ascii c in (48 <=? n) && (n <=? 57).

Fixpoint lstrip (t : text) : text :=
  match t with
  | c :: t' => if is_space c then lstrip t' else t
  | [] => []
  end.

(** [t.strip()] *)
Definition strip (t : text) : text := rev (lstrip (rev (lstrip t))).

Definition lower_char (c : ascii) : ascii :=
  let n := nat_of_ascii c in
  if ((65 <=? n) && (n <=? 90))
     || ((192 <=? n) && (n <=? 222) && negb (n =? 215))
  then ascii_of_nat (n + 32) else c.

(** [t.lower()] *)
Definition lower (t : text) : text := map lower_char t.

(** [t.replace(a, b)] for single characters. *)
Definition replace_char (a b : ascii) (t : text) : text :=
  map (fun c => if Ascii.eqb c a then b else c) t.

(** [sep.join(parts)] *)
Fixpoint join (sep : text) (parts : list text) : text :=
  match parts with
  | [] => []
  | [p] => p
  | p :: ps => p ++ sep ++ join sep ps
  end.

(** ** The fragment of [re] used by the scripts *)

Inductive regex : Type :=
| Lit (s : text)                 (* a run of literal characters *)
| Cls (c : ascii -> bool)        (* one character of a class *)
| Star (c : ascii -> bool)       (* [c*], greedy *)
| StarLazy (c : ascii -> bool)   (* [c*?] *)
| Cat (r1 r2 : regex)
| Grp (n : nat) (r : regex)      (* capturing group number [n] *)
| Opt (r : regex)                (* [r?], greedy *)
| NotAhead (r : regex).          (* [(?!r)] *)

(** [c+] is [cc*], [c+?] is [cc*?]. *)
Definition Plus (c : ascii -> bool) : regex := Cat (Cls c) (Star c).

Fixpoint Seq (rs : list regex) : regex :=
  match rs with
  | [] => Lit []
  | [r] => r
  | r :: rs' => Cat r (Seq rs')
  end.

Definition any_char : ascii -> bool := fun _ => true.
(** [.] without [re.DOTALL] *)
Definition dot : ascii -> bool := fun c => negb (Ascii.eqb c nl).
Definition not_char (x : ascii) : ascii -> bool := fun c => negb (Ascii.eqb c x).
Definition one_of (xs : text) : ascii -> bool :=
  fun c => existsb (Ascii.eqb c) xs.

(** Captures: the most recent span of each group first. *)
Definition caps := list (nat * (nat * nat)).

Fixpoint cap_lookup (g : caps) (n : nat) : option (nat * nat) :=
  match g with
  | [] => None
  | (k, sp) :: g' => if k =? n then Some sp else cap_lookup g' n
  end.

Fixpoint strip_lit (s l : text) : option text :=
  match s, l with
  | [], _ => Some l
  | _ :: _, [] => None
  | a :: s', b :: l' => if Ascii.eqb a b then strip_lit s' l' else None
  end.

Section Matcher.
Context {R : Type}.

(** Greedy repetition: take as many characters as possible, give them
    back one at a time when the rest of the pattern fails. *)
Fixpoint star_greedy (c : ascii -> bool) (l : text) (i : nat)
         (k : text -> nat -> option R) : option R :=
  match l with
  | a :: l' =>
      if c a then
        match star_greedy c l' (S i) k with
        | Some r => Some r
        | None => k l i
        end
      else k l i
  | [] => k l i
  end.

(** Lazy repetition: try the rest of the pattern first. *)
Fixpoint star_lazy (c : ascii -> bool) (l : text) (i : nat)
         (k : text -> nat -> option R) : option R :=
  match k l i with
  | Some r => Some r
  | None =>
      match l with
      | a :: l' => if c a then star_lazy c l' (S i) k else None
      | [] => None
      end
  end.
End Matcher.

(** [exec r l i g k]: match [r] at position [i], where [l] is the text from
    [i] on and [g] the captures so far; [k] is the rest of the pattern.
    The first success in Python's order of alternatives is returned. *)
Fixpoint exec (r : regex) {R : Type} (l : text) (i : nat) (g : caps)
         (k : text -> nat -> caps -> option R) : option R :=
  match r with
  | Lit s =>
      match strip_lit s l with
      | Some l' => k l' (i + length s) g
      | None => None
      end
  | Cls c =>
      match l with
      | a :: l' => if c a then k l' (S i) g else None
      | [] => None
      end
  | Star c => star_greedy c l i (fun l' i' => k l' i' g)
  | StarLazy c => star_lazy c l i (fun l' i' => k l' i' g)
  | Cat r1 r2 => exec r1 l i g (fun l' i' g' => exec r2 l' i' g' k)
  | Grp n r1 => exec r1 l i g (fun l' i' g' => k l' i' ((n, (i, i')) :: g'))
  | Opt r1 =>
      match exec r1 l i g k with
      | Some x => Some x
      | None => k l i g
      end
  | NotAhead r1 =>
      match exec r1 l i g (fun _ _ _ => Some tt) with
      | Some _ => None
      | None => k l i g
      end
  end.

(** A match object. *)
Record rmatch : Type := mkMatch {
  m_start : nat;
  m_end : nat;
  m_caps : caps
}.

(** [m.start(n)], [m.end(n)] and [m.group(n)]; group 0 is the whole match.
    A group that took no part has no span. *)
Definition span (m : rmatch) (n : nat) : option (nat * nat) :=
  match n with
  | 0 => Some (m_start m, m_end m)
  | _ => cap_lookup (m_caps m) n
  end.

Definition group (content : text) (m : rmatch) (n : nat) : option text :=
  match span m n with
  | Some (a, b) => Some (slice content a b)
  | None => None
  end.

(** Interpolation of a group in an f-string: [None] prints as its name. *)
Definition fmt (o : option text) : text :=
  match o with
  | Some t => t
  | None => lit "None"
  end.

(** Start and end of a group that takes part in every match of its
    pattern. *)
Definition start_of (m : rmatch) (n : nat) : nat :=
  match span m n with Some (a, _) => a | None => 0 end.
Definition end_of (m : rmatch) (n : nat) : nat :=
  match span m n with Some (_, b) => b | None => 0 end.

(** One attempt at position [i].  After an empty match, [re] asks the next
    attempt at the same position to advance. *)
Definition match_here (r : regex) (l : text) (i : nat) (must_advance : bool)
  : option rmatch :=
  exec r l i []
       (fun _ j g =>
          if must_advance && (j =? i) then None
          else Some (mkMatch i j g)).

(** [re.search]: the first position, from the left, with a match. *)
Fixpoint search_from (r : regex) (l : text) (i : nat) : option rmatch :=
  match match_here r l i false with
  | Some m => Some m
  | None =>
      match l with
      | [] => None
      | _ :: l' => search_from r l' (S i)
      end
  end.

Definition re_search (r : regex) (content : text) : option rmatch :=
  search_from r content 0.

(** [re.finditer]: the matches from left to right, none overlapping.
    [skip] counts the characters still covered by the previous match. *)
Fixpoint scan (r : regex) (l : text) (i : nat) (skip : nat) : list rmatch :=
  match l with
  | [] =>
      match skip with
      | 0 =>
          match match_here r [] i false with
          | Some m => [m]
          | None => []
          end
      | S _ => []
      end
  | _ :: l' =>
      match skip with
      | S s => scan r l' (S i) s
      | 0 =>
          match match_here r l i false with
          | None => scan r l' (S i) 0
          | Some m =>
              if m_end m =? i then
                match match_here r l i true with
                | Some m2 => m :: m2 :: scan r l' (S i) (m_end m2 - i - 1)
                | None => m :: scan r l' (S i) 0
                end
              else m :: scan r l' (S i) (m_end m - i - 1)
          end
      end
  end.

Definition re_finditer (r : regex) (content : text) : list rmatch :=
  scan r content 0 0.

(** [re.sub] with a replacement that has no group reference: the text
    between the matches is kept, each match becomes [repl]. *)
Fixpoint splice (content : text) (cur : nat) (ms : list rmatch) (repl : text)
  : text :=
  match ms with
  | [] => skipn cur content
  | m :: ms' =>
      slice content cur (m_start m) ++ repl ++ splice content (m_end m) ms' repl
  end.

Definition re_sub (r : regex) (repl : text) (content : text) : text :=
  splice content 0 (re_finditer r content) repl.

(** ** The world: files and console *)

(** What the operating system lets the script do with a path.
    [NoSearch]: the path lies under a directory that may not be searched,
    so that [os.stat] and [open] raise PermissionError for it, whether a
    file is there or not.  [Access r w]: [stat] succeeds; [r] says whether
    [open(p, 'r')] and [read()] succeed, [w] whether [open(p, 'w')]
    does. *)
Inductive access : Type :=
| NoSearch
| Access (r w : bool).

(** An entry of the file system.  Each path stands for a file of its own:
    the scripts are run on a tree of plain files, without symbolic or hard
    links between the paths. *)
Record file : Type := MkFile {
  f_content : text;
  f_access : access
}.

Definition mkFile (c : text) (r w : bool) : file := MkFile c (Access r w).

(** [os.stat(p)] succeeds *)
Definition f_stat (f : file) : bool :=
  match f_access f with NoSearch => false | Access _ _ => true end.

(** [open(p, 'r')] and [read()] succeed *)
Definition f_readable (f : file) : bool :=
  match f_access f with NoSearch => false | Access r _ => r end.

(** [open(p, 'w')] succeeds *)
Definition f_writable (f : file) : bool :=
  match f_access f with NoSearch => false | Access _ w => w end.

Inductive event : Type :=
| EvRead (p : string)              (* [open(p, 'r')] was attempted *)
| EvWrite (p : string) (c : text)  (* [c] was written to [p] *)
| EvPrint (line : text).           (* one call of [print] *)

Record world : Type := mkWorld {
  fs : gmap string file;
  trace : list event     (* oldest first *)
}.

(** Python exceptions raised by file access; [exn_msg] is [str(e)]. *)
Inductive exn : Type :=
| FileNotFoundError (p : string)
| PermissionError (p : string).

Definition exn_msg (e : exn) : text :=
  match e with
  | FileNotFoundError p =>
      lit "[Errno 2] No such file or directory: '" ++ lit p ++ lit "'"
  | PermissionError p =>
      lit "[Errno 13] Permission denied: '" ++ lit p ++ lit "'"
  end.

Inductive result (A : Type) : Type :=
| Ok (a : A)
| Raised (e : exn).
Arguments Ok {A} a.
Arguments Raised {A} e.

(** Computations that read and change the world and may raise. *)
Definition io (A : Type) : Type := world -> result A * world.

Definition ret {A} (a : A) : io A := fun w => (Ok a, w).

Definition bind {A B} (m : io A) (f : A -> io B) : io B :=
  fun w =>
    match m w with
    | (Ok a, w') => f a w'
    | (Raised e, w') => (Raised e, w')
    end.

(** [try: m except Exception as e: h e] *)
Definition try_except {A} (m : io A) (h : exn -> io A) : io A :=
  fun w =>
    match m w with
    | (Ok a, w') => (Ok a, w')
    | (Raised e, w') => h e w'
    end.

Declare Scope io_scope.
Delimit Scope io_scope with io.
Notation "x <- m ;; k" := (bind m (fun x => k))
  (at level 100, m at next level, right associativity) : io_scope.
Notation "m ;; k" := (bind m (fun _ => k))
  (at level 100, right associativity) : io_scope.
Local Open Scope io_scope.

Definition log (e : event) : io unit :=
  fun w => (Ok tt, mkWorld (fs w) (trace w ++ [e])).

Definition print (line : text) : io unit := log (EvPrint line).

(** [Path(p).exists()]: [False] when [stat] finds nothing at [p], [True]
    when it finds a file; an error of [stat] other than ENOENT, ENOTDIR,
    EBADF and ELOOP is raised again by [pathlib], so a path that may not
    be searched raises PermissionError. *)
Definition exists_ (p : string) : io bool :=
  fun w =>
    match fs w !! p with
    | None => (Ok false, w)
    | Some f =>
        if f_stat f then (Ok true, w) else (Raised (PermissionError p), w)
    end.

(** [with open(p, 'r', encoding='utf-8') as f: content = f.read()] *)
Definition read_text (p : string) : io text :=
  log (EvRead p) ;;
  fun w =>
    match fs w !! p with
    | None => (Raised (FileNotFoundError p), w)
    | Some f =>
        if f_readable f then (Ok (f_content f), w)
        else (Raised (PermissionError p), w)
    end.

(** [with open(p, 'w', encoding='utf-8') as f: f.write(c)] *)
Definition write_text (p : string) (c : text) : io unit :=
  fun w =>
    match fs w !! p with
    | None =>
        (Ok tt, mkWorld (<[p := mkFile c true true]> (fs w))
                        (trace w ++ [EvWrite p c]))
    | Some f =>
        if f_writable f then
          (Ok tt, mkWorld (<[p := mkFile c (f_readable f) true]> (fs w))
                          (trace w ++ [EvWrite p c]))
        else (Raised (PermissionError p), w)
    end.

(** [for x in xs: body x], with a local variable [acc] the body updates. *)
Fixpoint for_each {A S : Type} (xs : list A) (body : A -> S -> io S) (acc : S)
  : io S :=
  match xs with
  | [] => ret acc
  | x :: xs' => acc' <- body x acc ;; for_each xs' body acc'
  end.

(** [str(n)] and [str(b)] *)
Definition str_nat (n : nat) : text :=
  lit (DecimalString.NilZero.string_of_uint (Nat.to_uint n)).
Definition str_bool (b : bool) : text :=
  if b then lit "True" else lit "False".

(** The rule of sixty [=] signs. *)
Definition rule60 : text := repeat "="%char 60.

(** [Path(p).parts] on a POSIX path. *)
Fixpoint split_on (sep : ascii) (t : text) (cur : text) : list text :=
  match t with
  | [] => [rev cur]
  | c :: t' =>
      if Ascii.eqb c sep then rev cur :: split_on sep t' []
      else split_on sep t' (c :: cur)
  end.

Definition path_parts (p : string) : list text :=
  let segs :=
    filter (fun s => negb (text_eqb s []) && negb (text_eqb s (lit ".")))
           (split_on "/"%char (lit p) []) in
  if starts_with (lit "/") (lit p) then lit "/" :: segs else segs.

(** Character classes of the patterns. *)
Definition not_dq : ascii -> bool := not_char dq.          (* any but a double quote *)
Definition not_gt : ascii -> bool := not_char ">"%char.    (* any but > *)
Definition not_lt : ascii -> bool := not_char "<"%char.    (* any but < *)
Definition not_slash : ascii -> bool := not_char "/"%char. (* any but / *)

(** The two markers the scripts test with [in]. *)
Definition toggle_tag : text := lit "<DarkModeToggle />".
Definition toggle_open : text := lit "<DarkModeToggle".

(** ** add_dark_mode.py *)

Module AddDarkMode.

(** A key of [CLASS_MAPPINGS]: the base class, not followed by optional
    white space and [dark:] (negative lookahead). *)
Definition bare (base : string) : regex :=
  Cat (Lit (lit base)) (NotAhead (Cat (Star is_space) (Lit (lit "dark:")))).

(** The dictionary is walked in insertion order. *)
Definition CLASS_MAPPINGS : list (regex * text) :=
  [ (bare "bg-gray-50", lit "bg-gray-50 dark:bg-gray-900");
    (bare "bg-gray-100", lit "bg-gray-100 dark:bg-gray-900");
    (bare "bg-white", lit "bg-white dark:bg-gray-800");
    (bare "text-gray-600", lit "text-gray-600 dark:text-gray-300");
    (bare "text-gray-700", lit "text-gray-700 dark:text-gray-200");
    (bare "text-gray-800", lit "text-gray-800 dark:text-gray-100");
    (bare "text-gray-900", lit "text-gray-900 dark:text-white");
    (bare "text-green-800", lit "text-green-800 dark:text-green-400");
    (bare "text-blue-600", lit "text-blue-600 dark:text-blue-400");
    (bare "text-indigo-600", lit "text-indigo-600 dark:text-indigo-400") ].

Definition get_import_path (file_path : string) : text :=
  if bool_decide (lit "auth" ∈ path_parts file_path)
  then lit "../components/DarkModeToggle"
  else lit "../../components/DarkModeToggle".

(** [import_pattern], line 40. *)
Definition import_pattern : regex :=
  Grp 1 (Seq [ Lit (lit "import"); Plus is_space; StarLazy dot;
               Lit (lit "from"); Plus is_space;
               Cls (one_of ("'"%char :: [dq])); StarLazy dot;
               Cls (one_of ("'"%char :: [dq])); Lit (lit ";") ]).

Definition add_import (content : text) (file_path : string) : text * bool :=
  if contains (lit "DarkModeToggle") content then (content, false)
  else
    let import_path := get_import_path file_path in
    let import_statement :=
      lit "import DarkModeToggle from '" ++ import_path ++ lit "';" in
    let matches := re_finditer import_pattern content in
    match last matches with
    | Some last_import =>
        let insert_pos := m_end last_import in
        (firstn insert_pos content ++ [nl] ++ import_statement
           ++ skipn insert_pos content, true)
    | None => (content, false)
    end.

(** One turn of the loop over the mappings. *)
Definition class_step (st : text * bool) (kv : regex * text) : text * bool :=
  let '(content, modified) := st in
  let '(pattern, replacement) := kv in
  let new_content := re_sub pattern replacement content in
  if negb (text_eqb new_content content) then (new_content, true)
  else (content, modified).

Definition add_dark_mode_classes (content : text) : text * bool :=
  fold_left class_step CLASS_MAPPINGS (content, false).

(** [notification_pattern], line 69, compiled with [re.DOTALL]. *)
Definition notification_pattern : regex :=
  Seq [ Grp 1 (Star is_space);
        Opt (Grp 2 (Seq [ Lit (lit "/*"); StarLazy any_char;
                          Lit (lit "Notification Bell"); StarLazy any_char;
                          Lit (lit "*/"); Star is_space ]));
        Grp 3 (Lit (lit "<NotificationBell")) ].

(** [logout_pattern], line 79. *)
Definition logout_pattern : regex :=
  Grp 1 (Seq [ Lit (lit "<button"); StarLazy not_gt;
               Lit (lit "onClick={handleLogout}") ]).

(** [container_pattern], line 84: two groups, then the escaped text of
    the button that [logout_pattern] found. *)
Definition container_pattern (button : text) : regex :=
  Seq [ Grp 1 (Seq [ Lit (lit "<div"); StarLazy not_gt;
                     Lit (lit "className=" ++ [dq]); Star not_dq;
                     Lit (lit "flex"); Star not_dq; Lit [dq];
                     Star not_gt; Lit (lit ">") ]);
        Grp 2 (StarLazy not_lt);
        Lit button ].

Definition add_dark_mode_toggle (content : text) (file_path : string)
  : text * bool :=
  if contains toggle_tag content then (content, false)
  else
    match re_search notification_pattern content with
    | Some m =>
        let indent := fmt (group content m 1) in
        let insert_text :=
          [nl] ++ indent ++ lit "{/* Dark Mode Toggle */}" ++ [nl]
               ++ indent ++ lit "<DarkModeToggle />" ++ [nl] ++ indent in
        (firstn (start_of m 3) content ++ insert_text
           ++ skipn (start_of m 3) content, true)
    | None =>
        match re_search logout_pattern content with
        | Some m =>
            match re_search (container_pattern (fmt (group content m 0)))
                            content with
            | Some container_match =>
                let insert_pos := end_of container_match 2 in
                let indent := fmt (group content container_match 2) in
                let indent :=
                  match strip indent with
                  | [] => lit "              "
                  | _ :: _ => indent
                  end in
                let insert_text :=
                  [nl] ++ indent ++ lit "<DarkModeToggle />" ++ [nl]
                       ++ indent in
                (firstn insert_pos content ++ insert_text
                   ++ skipn insert_pos content, true)
            | None => (content, false)
            end
        | None => (content, false)
        end
    end.

(** The content [process_file] computes from the content it read. *)
Definition transform (content : text) (file_path : string)
  : text * list text :=
  let changes := [] in
  let '(content, imported) := add_import content file_path in
  let changes :=
    if imported then changes ++ [lit "Added DarkModeToggle import"]
    else changes in
  let '(content, classes_added) := add_dark_mode_classes content in
  let changes :=
    if classes_added then changes ++ [lit "Added dark mode classes"]
    else changes in
  let '(content, toggle_added) := add_dark_mode_toggle content file_path in
  let changes :=
    if toggle_added then changes ++ [lit "Added DarkModeToggle component"]
    else changes in
  (content, changes).

Definition process_file (file_path : string) : io bool :=
  print ([nl] ++ lit "Processing: " ++ lit file_path) ;;
  try_except
    (original_content <- read_text file_path ;;
     let '(content, changes) := transform original_content file_path in
     if negb (text_eqb content original_content) then
       write_text file_path content ;;
       print (lit "  [OK] " ++ join (lit ", ") changes) ;;
       ret true
     else
       print (lit "  [SKIP] No changes needed") ;;
       ret false)
    (fun e =>
       print (lit "  [ERROR] " ++ exn_msg e) ;;
       ret false).

Definition base_dir : string := "client/src/pages".

Definition skip_files : list string :=
  ["client/src/pages/customer/Dashboard.tsx"].

Definition pages : list (string * list string) :=
  [ ("Retailer",
     [ "retailer/Dashboard.tsx"; "retailer/InventoryManagement.tsx";
       "retailer/B2BMarketplace.tsx"; "retailer/B2BCheckout.tsx";
       "retailer/B2BOrderHistory.tsx"; "retailer/B2BOrderDetails.tsx";
       "retailer/OrderManagement.tsx"; "retailer/SalesAnalytics.tsx";
       "retailer/CustomerHistory.tsx"; "retailer/ProductReviews.tsx" ]);
    ("Wholesaler",
     [ "wholesaler/Dashboard.tsx"; "wholesaler/BulkOrders.tsx";
       "wholesaler/B2BOrderDetails.tsx";
       "wholesaler/InventoryManagement.tsx";
       "wholesaler/RetailerNetwork.tsx"; "wholesaler/Analytics.tsx" ]);
    ("Customer",
     [ "customer/ProductBrowse.tsx"; "customer/Wishlist.tsx";
       "customer/OrderHistory.tsx"; "customer/NearbyStores.tsx";
       "customer/Checkout.tsx"; "customer/MyReviews.tsx";
       "customer/TransactionHistory.tsx" ]);
    ("Auth",
     [ "auth/Login.tsx"; "auth/Register.tsx"; "auth/ForgotPassword.tsx";
       "auth/ResetPassword.tsx" ]) ].

(** [base_dir / file_name] *)
Definition joinpath (dir name : string) : string :=
  String.append dir (String.append "/" name).

(** The body of the inner loop; the state is
    [(total_files, modified_files)]. *)
Definition file_step (file_name : string) (st : nat * nat)
  : io (nat * nat) :=
  let '(total_files, modified_files) := st in
  let file_path := joinpath base_dir file_name in
  let full_path :=
    string_of_list_ascii (replace_char "\"%char "/"%char (lit file_path)) in
  if bool_decide (full_path ∈ skip_files) then
    print ([nl] ++ lit "[SKIP] Skipping: " ++ lit file_path
                ++ lit " (already done)") ;;
    ret st
  else
    e <- exists_ file_path ;;
    if e then
      let total_files := total_files + 1 in
      r <- process_file file_path ;;
      if r then ret (total_files, modified_files + 1)
      else ret (total_files, modified_files)
    else
      print ([nl] ++ lit "[WARN] File not found: " ++ lit file_path) ;;
      ret st.

Definition category_step (cat : string * list string) (st : nat * nat)
  : io (nat * nat) :=
  let '(category, file_list) := cat in
  print ([nl] ++ rule60) ;;
  print (lit category ++ lit " Pages") ;;
  print rule60 ;;
  for_each file_list file_step st.

Definition main : io unit :=
  print rule60 ;;
  print (lit "Adding Dark Mode Support to All Pages") ;;
  print rule60 ;;
  st <- for_each pages category_step (0, 0) ;;
  let '(total_files, modified_files) := st in
  print ([nl] ++ rule60) ;;
  print (lit "Summary: Modified " ++ str_nat modified_files ++ lit "/"
             ++ str_nat total_files ++ lit " files") ;;
  print rule60.

End AddDarkMode.

(** ** add_toggle_component.py *)

Module AddToggleComponent.

(** [pattern], line 12. *)
Definition auth_pattern : regex :=
  Grp 1 (Seq [ Lit (lit "return"); Star is_space; Lit (lit "(");
               Star is_space;
               Lit (lit "<div className=" ++ [dq] ++ lit "min-h-screen");
               Star not_dq; Lit ([dq] ++ lit ">") ]).

Definition toggle_html : text :=
  [nl] ++ lit "      {/* Dark Mode Toggle */}" ++ [nl]
  ++ lit "      <div className=" ++ [dq] ++ lit "absolute top-4 right-4"
  ++ [dq] ++ lit ">" ++ [nl]
  ++ lit "        <DarkModeToggle />" ++ [nl]
  ++ lit "      </div>" ++ [nl].

Definition add_toggle_to_auth_page (content : text) : text * bool :=
  match re_search auth_pattern content with
  | Some m =>
      let insert_pos := m_end m in
      (firstn insert_pos content ++ toggle_html ++ skipn insert_pos content,
       true)
  | None => (content, false)
  end.

(** [pattern1], line 33. *)
Definition pattern1 : regex :=
  Cat (Grp 1 (Plus is_space)) (Grp 2 (Lit (lit "/* Notification Bell */"))).

(** [pattern2], line 42. *)
Definition pattern2 : regex :=
  Seq [ Grp 1 (Seq [ Lit (lit "<div"); Star not_gt;
                     Lit (lit "className=" ++ [dq]); Star not_dq;
                     Lit (lit "flex"); Star not_dq; Lit (lit "space-x-");
                     Star not_dq; Lit [dq]; Star not_gt; Lit (lit ">") ]);
        Grp 2 (Star is_space);
        Grp 3 (Lit (lit "<NotificationBell")) ].

(** [pattern3], line 54. *)
Definition pattern3 : regex :=
  Seq [ Grp 1 (Seq [ Lit (lit "<div"); Star not_gt;
                     Lit (lit "className=" ++ [dq]); Star not_dq;
                     Lit (lit "flex"); Star not_dq;
                     Lit (lit "items-center"); Star not_dq; Lit [dq];
                     Star not_gt; Lit (lit ">") ]);
        Grp 2 (StarLazy not_lt);
        Grp 3 (Seq [ Lit (lit "<button"); StarLazy not_gt;
                     Lit (lit "onClick={handleLogout}") ]) ].

(** [pattern4], line 67. *)
Definition pattern4 : regex :=
  Grp 1 (Seq [ Lit (lit "/* Actions */"); Star is_space; Lit (lit "<div");
               Star not_gt; Lit (lit ">") ]).

Definition indent14 : text := [nl] ++ lit "              ".

(** The four branches of [add_toggle_to_standard_page]: the text returned
    for a match [m] of [pattern1] ... [pattern4]. *)
Definition put_before_comment (content : text) (m : rmatch) : text :=
  let indent := fmt (group content m 1) in
  let insert_text :=
    indent ++ lit "{/* Dark Mode Toggle */}" ++ [nl] ++ indent
           ++ lit "<DarkModeToggle />" ++ [nl] ++ [nl] ++ indent in
  firstn (m_start m) content ++ insert_text ++ skipn (m_start m) content.

Definition put_before_bell (content : text) (m : rmatch) : text :=
  let div_tag := fmt (group content m 1) in
  let whitespace := fmt (group content m 2) in
  let bell_tag := fmt (group content m 3) in
  let indent :=
    if text_eqb (strip whitespace) [] then whitespace else indent14 in
  let insert_text :=
    div_tag ++ indent ++ lit "<DarkModeToggle />" ++ indent ++ bell_tag in
  firstn (m_start m) content ++ insert_text ++ skipn (m_end m) content.

Definition put_before_logout (content : text) (m : rmatch) : text :=
  let div_tag := fmt (group content m 1) in
  let whitespace := fmt (group content m 2) in
  let button_tag := fmt (group content m 3) in
  let indent := if contains [nl] whitespace then indent14 else lit " " in
  let insert_text :=
    div_tag ++ whitespace ++ lit "<DarkModeToggle />" ++ indent
            ++ button_tag in
  firstn (m_start m) content ++ insert_text ++ skipn (m_end m) content.

Definition put_in_actions (content : text) (m : rmatch) : text :=
  let insert_pos := m_end m in
  let insert_text :=
    [nl] ++ lit "              <DarkModeToggle />" ++ [nl]
         ++ lit "              " in
  firstn insert_pos content ++ insert_text ++ skipn insert_pos content.

Definition add_toggle_to_standard_page (content : text) : text * bool :=
  match re_search pattern1 content with
  | Some m => (put_before_comment content m, true)
  | None =>
  match re_search pattern2 content with
  | Some m => (put_before_bell content m, true)
  | None =>
  match re_search pattern3 content with
  | Some m => (put_before_logout content m, true)
  | None =>
  match re_search pattern4 content with
  | Some m => (put_in_actions content m, true)
  | None => (content, false)
  end end end end.

Definition process_file (file_path : string) : io bool :=
  try_except
    (content <- read_text file_path ;;
     if contains toggle_open content then
       print (lit "[SKIP] " ++ lit file_path
                  ++ lit " - Already has component") ;;
       ret false
     else if negb (contains (lit "import DarkModeToggle") content) then
       print (lit "[SKIP] " ++ lit file_path ++ lit " - No import found") ;;
       ret false
     else
       let '(content, modified) :=
         if contains (lit "auth") (lit file_path)
         then add_toggle_to_auth_page content
         else add_toggle_to_standard_page content in
       if modified then
         write_text file_path content ;;
         print (lit "[OK] " ++ lit file_path) ;;
         ret true
       else
         print (lit "[MANUAL] " ++ lit file_path
                    ++ lit " - Needs manual intervention") ;;
         ret false)
    (fun e =>
       print (lit "[ERROR] " ++ lit file_path ++ lit ": " ++ exn_msg e) ;;
       ret false).

Definition files_to_process : list string :=
  [ "client/src/pages/auth/Register.tsx";
    "client/src/pages/auth/ForgotPassword.tsx";
    "client/src/pages/auth/ResetPassword.tsx";
    "client/src/pages/customer/Checkout.tsx";
    "client/src/pages/customer/MyReviews.tsx";
    "client/src/pages/customer/NearbyStores.tsx";
    "client/src/pages/customer/OrderHistory.tsx";
    "client/src/pages/customer/ProductBrowse.tsx";
    "client/src/pages/customer/TransactionHistory.tsx";
    "client/src/pages/customer/Wishlist.tsx";
    "client/src/pages/retailer/B2BCheckout.tsx";
    "client/src/pages/retailer/B2BMarketplace.tsx";
    "client/src/pages/retailer/B2BOrderDetails.tsx";
    "client/src/pages/retailer/B2BOrderHistory.tsx";
    "client/src/pages/retailer/CustomerHistory.tsx";
    "client/src/pages/retailer/OrderManagement.tsx";
    "client/src/pages/retailer/ProductReviews.tsx";
    "client/src/pages/retailer/SalesAnalytics.tsx";
    "client/src/pages/wholesaler/Analytics.tsx";
    "client/src/pages/wholesaler/B2BOrderDetails.tsx";
    "client/src/pages/wholesaler/InventoryManagement.tsx";
    "client/src/pages/wholesaler/RetailerNetwork.tsx" ].

(** The body of the loop; the state is [(modified_count, manual_count)]. *)
Definition file_step (file_path : string) (st : nat * nat)
  : io (nat * nat) :=
  let '(modified_count, manual_count) := st in
  e <- exists_ file_path ;;
  if e then
    result <- process_file file_path ;;
    if result then ret (modified_count + 1, manual_count)
    else if contains (lit "[MANUAL]") (str_bool result)
         then ret (modified_count, manual_count + 1)
         else ret st
  else
    print (lit "[WARN] File not found: " ++ lit file_path) ;;
    ret st.

(** The lines printed after the loop. *)
Definition summary (modified_count manual_count : nat) : io unit :=
  print ([nl] ++ rule60) ;;
  print (lit "Summary: Modified " ++ str_nat modified_count
             ++ lit " files") ;;
  (if 0 <? manual_count then
     print (lit "         " ++ str_nat manual_count
                ++ lit " files need manual intervention")
   else ret tt) ;;
  print rule60.

(** [main] over any list of files; the script runs it on
    [files_to_process]. *)
Definition main_on (files : list string) : io unit :=
  print rule60 ;;
  print (lit "Adding DarkModeToggle Component to Pages") ;;
  print rule60 ;;
  st <- for_each files file_step (0, 0) ;;
  let '(modified_count, manual_count) := st in
  summary modified_count manual_count.

Definition main : io unit := main_on files_to_process.

End AddToggleComponent.

(** ** add_toggle_final.py *)

Module AddToggleFinal.

(** [pattern1], line 12. *)
Definition pattern1 : regex :=
  Cat (Grp 1 (Seq [ Lit (lit "<div className=" ++ [dq]
                              ++ lit "flex items-center gap-");
                    Plus is_digit; Lit ([dq] ++ lit ">") ]))
      (Grp 2 (Star is_space)).

(** [pattern2], line 26. *)
Definition pattern2 : regex :=
  Cat (Grp 1 (Seq [ Lit (lit "<div"); Star not_gt;
                    Lit (lit "className=" ++ [dq]); Star not_dq;
                    Lit (lit "flex"); Star not_dq; Lit (lit "space-x-");
                    Plus is_digit; Star not_dq; Lit [dq]; Star not_gt;
                    Lit (lit ">") ]))
      (Grp 2 (Star is_space)).

(** [pattern3], line 39. *)
Definition pattern3 : regex :=
  Seq [ Grp 1 (Seq [ Lit (lit "<div"); Star not_gt;
                     Lit (lit "className=" ++ [dq]); Star not_dq;
                     Lit (lit "flex"); Star not_gt; Lit (lit ">") ]);
        Grp 2 (Star is_space);
        Grp 3 (Seq [ Lit (lit "<Link to=" ++ [dq] ++ lit "/");
                     Plus not_slash; Lit (lit "/dashboard" ++ [dq]) ]) ].

Definition indent14 : text := [nl] ++ lit "              ".

(** [m.group(2) if m.group(2) else default] *)
Definition group_or (content : text) (m : rmatch) (n : nat) (default : text)
  : text :=
  match group content m n with
  | Some (c :: t) => c :: t
  | _ => default
  end.

(** The text that replaces a match of [pattern1] or [pattern2]. *)
Definition wrap12 (content : text) (m : rmatch) : text :=
  let div_tag := fmt (group content m 1) in
  let whitespace := group_or content m 2 indent14 in
  let insert_text :=
    div_tag ++ whitespace ++ lit "<DarkModeToggle />" ++ whitespace in
  firstn (m_start m) content ++ insert_text ++ skipn (m_end m) content.

(** The tests on the text near a match, lines 17-18, 30-31 and 42-43. *)
Definition ok1 (content : text) (m : rmatch) : bool :=
  let nearby_content := slice content (m_end m) (m_end m + 200) in
  negb (contains toggle_open nearby_content).

Definition ok2 (content : text) (m : rmatch) : bool :=
  let nearby_content := slice content (m_end m) (m_end m + 200) in
  negb (contains toggle_open nearby_content)
  && contains (lit "logout") (lower nearby_content).

(** The text that replaces a match of [pattern3]. *)
Definition wrap3 (content : text) (m : rmatch) : text :=
  let div_tag := fmt (group content m 1) in
  let whitespace := group_or content m 2 indent14 in
  let link_tag := fmt (group content m 3) in
  let insert_text :=
    div_tag ++ whitespace ++ lit "<DarkModeToggle />" ++ whitespace
            ++ link_tag in
  firstn (m_start m) content ++ insert_text ++ skipn (m_end m) content.

Definition ok3 (content : text) (m : rmatch) : bool :=
  let nearby := slice content (m_start m - 100) (m_end m + 100) in
  negb (contains toggle_open nearby).

Definition add_toggle_generic (content : text) : text * bool :=
  let matches := re_finditer pattern1 content in
  match find (ok1 content) (rev matches) with
  | Some m => (wrap12 content m, true)
  | None =>
  let matches := re_finditer pattern2 content in
  match find (ok2 content) (rev matches) with
  | Some m => (wrap12 content m, true)
  | None =>
  match re_search pattern3 content with
  | Some m =>
      if ok3 content m then (wrap3 content m, true) else (content, false)
  | None => (content, false)
  end end end.

Definition process_file (file_path : string) : io bool :=
  try_except
    (content <- read_text file_path ;;
     if contains toggle_open content then ret false
     else if negb (contains (lit "import DarkModeToggle") content)
     then ret false
     else
       let '(content, modified) := add_toggle_generic content in
       if modified then
         write_text file_path content ;;
         print (lit "[OK] " ++ lit file_path) ;;
         ret true
       else
         print (lit "[MANUAL] " ++ lit file_path) ;;
         ret false)
    (fun e =>
       print (lit "[ERROR] " ++ lit file_path ++ lit ": " ++ exn_msg e) ;;
       ret false).

Definition files : list string :=
  [ "client/src/pages/customer/Checkout.tsx";
    "client/src/pages/customer/MyReviews.tsx";
    "client/src/pages/customer/NearbyStores.tsx";
    "client/src/pages/customer/OrderHistory.tsx";
    "client/src/pages/customer/TransactionHistory.tsx";
    "client/src/pages/customer/Wishlist.tsx";
    "client/src/pages/retailer/B2BCheckout.tsx";
    "client/src/pages/retailer/B2BMarketplace.tsx";
    "client/src/pages/retailer/B2BOrderDetails.tsx";
    "client/src/pages/retailer/B2BOrderHistory.tsx";
    "client/src/pages/retailer/CustomerHistory.tsx";
    "client/src/pages/retailer/OrderManagement.tsx";
    "client/src/pages/retailer/ProductReviews.tsx";
    "client/src/pages/retailer/SalesAnalytics.tsx";
    "client/src/pages/wholesaler/Analytics.tsx";
    "client/src/pages/wholesaler/B2BOrderDetails.tsx";
    "client/src/pages/wholesaler/InventoryManagement.tsx";
    "client/src/pages/wholesaler/RetailerNetwork.tsx" ].

(** The body of the loop: [exists() and process_file()] evaluates the
    second operand only when the first holds. *)
Definition file_step (f : string) (modified : nat) : io nat :=
  e <- exists_ f ;;
  if e then
    r <- process_file f ;;
    if r then ret (modified + 1) else ret modified
  else ret modified.

Definition main_on (fl : list string) : io unit :=
  print rule60 ;;
  print (lit "Final Pass: Adding DarkModeToggle") ;;
  print rule60 ;;
  modified <- for_each fl file_step 0 ;;
  print ([nl] ++ str_nat modified ++ lit " files modified").

Definition main : io unit := main_on files.

End AddToggleFinal.

(** ** manual_toggle_add.py *)

Module ManualToggleAdd.

Definition files_to_fix : list string :=
  [ "client/src/pages/customer/MyReviews.tsx";
    "client/src/pages/retailer/B2BCheckout.tsx";
    "client/src/pages/retailer/B2BOrderDetails.tsx";
    "client/src/pages/retailer/B2BOrderHistory.tsx";
    "client/src/pages/retailer/CustomerHistory.tsx";
    "client/src/pages/retailer/OrderManagement.tsx";
    "client/src/pages/retailer/SalesAnalytics.tsx";
    "client/src/pages/wholesaler/Analytics.tsx";
    "client/src/pages/wholesaler/B2BOrderDetails.tsx";
    "client/src/pages/wholesaler/InventoryManagement.tsx";
    "client/src/pages/wholesaler/RetailerNetwork.tsx" ].

(** [pattern], line 33. *)
Definition pattern : regex :=
  Grp 1 (Seq [ Lit (lit "<Link to=" ++ [dq] ++ lit "/"); Plus not_slash;
               Lit (lit "/dashboard" ++ [dq]); Star not_gt; Lit (lit ">");
               Star not_lt; Lit (lit "</Link>") ]).

(** The content written for a match [m]. *)
Definition rewrite (content : text) (m : rmatch) : text :=
  let link_tag := fmt (group content m 1) in
  let before := slice content (m_start m - 100) (m_start m) in
  if contains (lit "<div className=" ++ [dq] ++ lit "flex items-center gap-")
              before
  then
    let insert_text :=
      lit "<DarkModeToggle />" ++ [nl] ++ lit "              " ++ link_tag in
    firstn (m_start m) content ++ insert_text ++ skipn (m_end m) content
  else
    let insert_text :=
      lit "<div className=" ++ [dq] ++ lit "flex items-center gap-4"
          ++ [dq] ++ lit ">" ++ [nl]
          ++ lit "              <DarkModeToggle />" ++ [nl]
          ++ lit "              " ++ link_tag ++ [nl]
          ++ lit "            </div>" in
    firstn (m_start m) content ++ insert_text ++ skipn (m_end m) content.

(** No [try] here: what [open] raises leaves the function. *)
Definition add_toggle (file_path : string) : io bool :=
  content <- read_text file_path ;;
  if contains toggle_open content then
    print (lit "[SKIP] " ++ lit file_path ++ lit " - Already has toggle") ;;
    ret false
  else
    match re_search pattern content with
    | Some m =>
        write_text file_path (rewrite content m) ;;
        print (lit "[OK] " ++ lit file_path) ;;
        ret true
    | None =>
        print (lit "[FAILED] " ++ lit file_path
                   ++ lit " - Pattern not found") ;;
        ret false
    end.

Definition file_step (f : string) (modified : nat) : io nat :=
  e <- exists_ f ;;
  if e then
    r <- add_toggle f ;;
    if r then ret (modified + 1) else ret modified
  else ret modified.

Definition main_on (fl : list string) : io unit :=
  modified <- for_each fl file_step 0 ;;
  print ([nl] ++ str_nat modified ++ lit " files modified").

Definition main : io unit := main_on files_to_fix.

End ManualToggleAdd.

(** * Vocabulary of the statements and sample inputs *)

(** [accepts r m i g g']: the pattern [r] can consume exactly the text [m]
    at position [i], turning the captures [g] into [g'].  Every answer of
    [exec] is of this form; the relation does not say which answer comes
    first, and records nothing for a lookahead. *)
Inductive accepts : regex -> text -> nat -> caps -> caps -> Prop :=
| acc_lit s i g : accepts (Lit s) s i g g
| acc_cls c a i g : c a = true -> accepts (Cls c) [a] i g g
| acc_star c m i g : forallb c m = true -> accepts (Star c) m i g g
| acc_star_lazy c m i g : forallb c m = true -> accepts (StarLazy c) m i g g
| acc_cat r1 r2 m1 m2 i g g1 g2 :
    accepts r1 m1 i g g1 -> accepts r2 m2 (i + length m1) g1 g2 ->
    accepts (Cat r1 r2) (m1 ++ m2) i g g2
| acc_grp n r m i g g' :
    accepts r m i g g' ->
    accepts (Grp n r) m i g ((n, (i, i + length m)) :: g')
| acc_opt_some r m i g g' : accepts r m i g g' -> accepts (Opt r) m i g g'
| acc_opt_none r i g : accepts (Opt r) [] i g g
| acc_not_ahead r i g : accepts (NotAhead r) [] i g g.

(** Patterns without a group leave the captures alone. *)
Fixpoint groupless (r : regex) : bool :=
  match r with
  | Lit _ | Cls _ | Star _ | StarLazy _ | NotAhead _ => true
  | Cat r1 r2 => groupless r1 && groupless r2
  | Grp _ _ => false
  | Opt r1 => groupless r1
  end.

(** [out] is [content] with [ins] put in at position [p]: nothing else
    changes. *)
Definition inserted (content out : text) (p : nat) (ins : text) : Prop :=
  p <= length content /\ out = firstn p content ++ ins ++ skipn p content.

(** [p] is an end of the match or of one of its groups. *)
Definition adjacent (m : rmatch) (p : nat) : Prop :=
  exists n a b, span m n = Some (a, b) /\ (p = a \/ p = b).

(** The toggle is put in once, next to the anchor [m]. *)
Definition inserts_once (content out : text) (m : rmatch) : Prop :=
  exists p ins,
    adjacent m p /\ inserted content out p ins
    /\ count_occ_text toggle_tag ins = 1
    /\ count_occ_text toggle_tag out = 1.

(** The toggle is put in next to the anchor [m], whatever else the text
    holds: [out] is [content] with one piece of text put in at an end of
    the match or of one of its groups, and the piece holds the toggle
    once. *)
Definition puts_toggle (content out : text) (m : rmatch) : Prop :=
  exists p ins,
    adjacent m p /\ inserted content out p ins
    /\ count_occ_text toggle_tag ins = 1.

(** What a run wrote, in order. *)
Fixpoint writes (tr : list event) : list (string * text) :=
  match tr with
  | [] => []
  | EvWrite p c :: tr' => (p, c) :: writes tr'
  | _ :: tr' => writes tr'
  end.

(** Whether a run printed the line [l]. *)
Definition printed (l : text) (tr : list event) : bool :=
  existsb (fun e => match e with
                    | EvPrint l' => text_eqb l l'
                    | _ => false
                    end) tr.

(** Whether a run tried to read [p]. *)
Definition read_attempted (p : string) (tr : list event) : bool :=
  existsb (fun e => match e with
                    | EvRead q => bool_decide (p = q)
                    | _ => false
                    end) tr.

(** A page that has the import but none of the anchors. *)
Definition page_without_anchor : text :=
  lit "import DarkModeToggle from '../../components/DarkModeToggle';"
      ++ [nl] ++ lit "export default function Page() { return null; }".

Definition checkout : string := "client/src/pages/customer/Checkout.tsx".

Definition world_without_anchor : world :=
  mkWorld {[ checkout := mkFile page_without_anchor true true ]} [].

(** Three pages with an anchor: an auth page, a page with a navigation
    bar, a page with a logout button. *)
Definition auth_page : text :=
  lit "return (" ++ [nl] ++ lit "  <div className=" ++ [dq]
      ++ lit "min-h-screen flex" ++ [dq] ++ lit "><form/></div>);".

Definition bell_page : text :=
  lit "<nav><div className=" ++ [dq] ++ lit "flex items-center space-x-4"
      ++ [dq] ++ lit ">" ++ [nl] ++ lit "      <NotificationBell /></div></nav>".

Definition logout_page : text :=
  lit "<div className=" ++ [dq] ++ lit "flex gap-2" ++ [dq] ++ lit ">"
      ++ [nl] ++ lit "  <button onClick={handleLogout}>Logout</button></div>".

(** A page on which both [pattern1] and [pattern2] of
    add_toggle_component.py match, and a page with two matches of
    [pattern1] of add_toggle_final.py. *)
Definition page_two_anchors : text :=
  lit "<div className=" ++ [dq] ++ lit "flex space-x-4" ++ [dq]
      ++ lit "> <NotificationBell /> { /* Notification Bell */ }</div>".

Definition page_two_gaps : text :=
  lit "<div className=" ++ [dq] ++ lit "flex items-center gap-4" ++ [dq]
      ++ lit ">a</div><div className=" ++ [dq]
      ++ lit "flex items-center gap-2" ++ [dq] ++ lit ">b</div>".

(** A page with two matches of [pattern3] of add_toggle_final.py: the
    first has the toggle right before it, the second is more than 100
    characters away from it. *)
Definition page_two_links : text :=
  lit "<DarkModeToggle /><div className=" ++ [dq] ++ lit "flex" ++ [dq]
      ++ lit "><Link to=" ++ [dq] ++ lit "/a/dashboard" ++ [dq]
      ++ lit ">A</Link></div>" ++ repeat "x"%char 120
      ++ lit "<div className=" ++ [dq] ++ lit "flex" ++ [dq]
      ++ lit "><Link to=" ++ [dq] ++ lit "/b/dashboard" ++ [dq]
      ++ lit ">B</Link></div>".

Definition login : string := "client/src/pages/auth/Login.tsx".

(** A world with one page that only needs the dark class, and a world
    with one page that has a dashboard link. *)
Definition world_bare_class : world :=
  mkWorld {[ login := mkFile (lit "bg-white") true true ]} [].

Definition link_page : text :=
  lit "<header><Link to=" ++ [dq] ++ lit "/retailer/dashboard" ++ [dq]
      ++ lit ">Back</Link></header>".

Definition world_link : world :=
  mkWorld {[ checkout := mkFile link_page true true ]} [].

(** What [process_file] of add_toggle_final.py writes for a text it read,
    if anything. *)
Definition final_patch (c : text) : option text :=
  if contains toggle_open c then None
  else if negb (contains (lit "import DarkModeToggle") c) then None
  else match AddToggleFinal.add_toggle_generic c with
       | (c', true) => Some c'
       | (_, false) => None
       end.

(** The files after [process_file] of add_toggle_final.py. *)
Definition final_fs_after (p : string) (m : gmap string file)
  : gmap string file :=
  match m !! p with
  | Some f =>
      if f_readable f && f_writable f then
        match final_patch (f_content f) with
        | Some c' => <[p := mkFile c' true true]> m
        | None => m
        end
      else m
  | None => m
  end.

(** A page that already has the toggle, with a class that has no dark
    variant yet. *)
Definition marked_page : text :=
  lit "import DarkModeToggle from '../components/DarkModeToggle';"
      ++ [nl] ++ lit "<DarkModeToggle /><p className=" ++ [dq]
      ++ lit "bg-white" ++ [dq] ++ lit "/>".

Definition world_marked : world :=
  mkWorld {[ login := mkFile marked_page true true ]} [].

(** The text [add_toggle] of manual_toggle_add.py ends with for a text it
    read (the variable [content] at the write of line 49 or at the
    returns of lines 29 and 55). *)
Definition manual_text (content : text) : text :=
  if contains toggle_open content then content
  else match re_search ManualToggleAdd.pattern content with
       | Some m => ManualToggleAdd.rewrite content m
       | None => content
       end.

(** [stat] succeeds at [p], or finds nothing there. *)
Definition stat_ok (m : gmap string file) (p : string) : Prop :=
  forall f, m !! p = Some f -> f_stat f = true.

(** The same for every path of a list: [exists()] raises for none of
    them. *)
Definition listed_stat (fl : list string) (m : gmap string file) : Prop :=
  forall p, In p fl -> stat_ok m p.

(** What one run of a per-file step may do to the world: it returns, it
    only adds to the trace, it removes no file, it leaves [stat] working
    where it worked, and it tries to read the file. *)
Definition runs_on {A} (m : io A) (p : string) (w : world) : Prop :=
  exists a w' t,
    m w = (Ok a, w')
    /\ trace w' = trace w ++ t
    /\ (forall q, is_Some (fs w !! q) -> is_Some (fs w' !! q))
    /\ (forall q, stat_ok (fs w) q -> stat_ok (fs w') q)
    /\ read_attempted p t = true.

(** The same for a step of the loop: [k] is the file the step is about,
    if any, and the step tries to read it when it exists. *)
Definition steps_on {A} (m : io A) (k : option string) (w : world) : Prop :=
  exists a w' t,
    m w = (Ok a, w')
    /\ trace w' = trace w ++ t
    /\ (forall q, is_Some (fs w !! q) -> is_Some (fs w' !! q))
    /\ (forall q, stat_ok (fs w) q -> stat_ok (fs w') q)
    /\ (forall p, k = Some p -> is_Some (fs w !! p) ->
                  read_attempted p t = true).

(** The path that [file_step] of add_dark_mode.py works on for an entry
    of a page list, unless the entry is in [skip_files]. *)
Definition dark_mode_path (file_name : string) : option string :=
  let file_path := AddDarkMode.joinpath AddDarkMode.base_dir file_name in
  let full_path :=
    string_of_list_ascii (replace_char "\"%char "/"%char (lit file_path)) in
  if bool_decide (full_path ∈ AddDarkMode.skip_files) then None
  else Some file_path.


Definition my_reviews : string := "client/src/pages/customer/MyReviews.tsx".



(** A page that add_toggle_final.py can patch, in a file that can be
    written and in one that cannot. *)
Definition page_ready : text :=
  lit "import DarkModeToggle from '../../components/DarkModeToggle';"
      ++ [nl] ++ page_two_gaps.

Definition world_ready : world :=
  mkWorld {[ checkout := mkFile page_ready true true ]} [].



(** [chain r content cur ms]: [ms] are matches of [r] in [content] from
    left to right, the first not before [cur], each not before the end of
    the one before it. *)
Fixpoint chain (r : regex) (content : text) (cur : nat) (ms : list rmatch)
  : Prop :=
  match ms with
  | [] => True
  | m :: ms' =>
      cur <= m_start m /\ m_start m <= m_end m
      /\ m_end m <= length content
      /\ accepts r (slice content (m_start m) (m_end m)) (m_start m) []
                 (m_caps m)
      /\ chain r content (m_end m) ms'
  end.

(** The base classes, as the keys of [CLASS_MAPPINGS] name them. *)
Definition base_classes : list string :=
  [ "bg-gray-50"; "bg-gray-100"; "bg-white"; "text-gray-600";
    "text-gray-700"; "text-gray-800"; "text-gray-900"; "text-green-800";
    "text-blue-600"; "text-indigo-600" ].

(** A mapping whose replacement is its base class with a text after it. *)
Definition appends (kv : regex * text) : Prop :=
  exists base suffix,
    fst kv = AddDarkMode.bare base /\ snd kv = lit base ++ suffix.

(** The paths a run tried to read, in order. *)
Fixpoint reads (tr : list event) : list string :=
  match tr with
  | [] => []
  | EvRead p :: tr' => p :: reads tr'
  | _ :: tr' => reads tr'
  end.

(** The paths a run opened, for reading or for writing. *)
Definition touched (tr : list event) : list string :=
  reads tr ++ map fst (writes tr).

(** The new text holds the toggle and the old one did not. *)
Definition marks (old new : text) : Prop :=
  contains toggle_open old = false /\ contains toggle_open new = true.

(** [patches good m p w]: the per-file step [m] returns; it reads [p] once;
    when it answers [True] it has written [p], once, with a text that is
    [good] for the text it read, and has changed no other file; when it
    answers [False] it has written nothing. *)
Definition patches (good : text -> text -> Prop) (m : io bool) (p : string)
           (w : world) : Prop :=
  exists b w' t,
    m w = (Ok b, w') /\ trace w' = trace w ++ t /\ reads t = [p]
    /\ if b then
         exists f c,
           fs w !! p = Some f /\ good (f_content f) c
           /\ fs w' = <[p := mkFile c true true]> (fs w)
           /\ writes t = [(p, c)]
       else fs w' = fs w /\ writes t = [].

(** [raises m p w]: the step raises after its read of [p], with no file
    changed. *)
Definition raises (m : io bool) (p : string) (w : world) : Prop :=
  exists e w' t,
    m w = (Raised e, w') /\ trace w' = trace w ++ t /\ reads t = [p]
    /\ fs w' = fs w /\ writes t = [].

(** The text of add_dark_mode.py for [p] differs from the text read. *)
Definition restyles (p : string) (old new : text) : Prop :=
  new = fst (AddDarkMode.transform old p) /\ new <> old.

(** What [process_file] of add_toggle_component.py writes for a text it
    read from [p], if anything. *)
Definition component_patch (p : string) (c : text) : option text :=
  if contains toggle_open c then None
  else if negb (contains (lit "import DarkModeToggle") c) then None
  else match (if contains (lit "auth") (lit p)
              then AddToggleComponent.add_toggle_to_auth_page c
              else AddToggleComponent.add_toggle_to_standard_page c) with
       | (c', true) => Some c'
       | (_, false) => None
       end.

(** What [add_toggle] of manual_toggle_add.py writes for a text it read,
    if anything. *)
Definition manual_patch (c : text) : option text :=
  if contains toggle_open c then None
  else match re_search ManualToggleAdd.pattern c with
       | Some m => Some (ManualToggleAdd.rewrite c m)
       | None => None
       end.

(** The files after a per-file step that writes [patch c] over a file
    with text [c] that can be read and written. *)
Definition fs_after (patch : text -> option text) (p : string)
           (m : gmap string file) : gmap string file :=
  match m !! p with
  | Some f =>
      if f_readable f && f_writable f then
        match patch (f_content f) with
        | Some c' => <[p := mkFile c' true true]> m
        | None => m
        end
      else m
  | None => m
  end.

(** [effect R ok m st w]: the run of [m], whether it returns or raises,
    only adds to the trace, opens only paths that satisfy [ok], and, when
    it returns a state [st'], the states and the added trace [t] are
    related by [R st t st']. *)
Definition effect {S} (R : S -> list event -> S -> Prop)
           (ok : string -> Prop) (m : io S) (st : S) (w : world) : Prop :=
  exists r w' t,
    m w = (r, w') /\ trace w' = trace w ++ t
    /\ (forall q, In q (touched t) -> ok q)
    /\ (forall st', r = Ok st' -> R st t st').

(** The counter grows by the number of writes. *)
Definition counts_writes (n : nat) (t : list event) (n' : nat) : Prop :=
  n' = n + length (writes t).

(** The state of the loop of add_toggle_component.py: the first counter
    grows by the number of writes, the second stays. *)
Definition counts_modified (st : nat * nat) (t : list event)
           (st' : nat * nat) : Prop :=
  fst st' = fst st + length (writes t) /\ snd st' = snd st.

(** The state of the loop of add_dark_mode.py: [total_files] grows by the
    number of reads, [modified_files] by the number of writes. *)
Definition counts_both (st : nat * nat) (t : list event)
           (st' : nat * nat) : Prop :=
  fst st' = fst st + length (reads t)
  /\ snd st' = snd st + length (writes t).


(** The banner of add_toggle_final.py and of add_toggle_component.py. *)
Definition final_banner : list event :=
  [EvPrint rule60; EvPrint (lit "Final Pass: Adding DarkModeToggle");
   EvPrint rule60].

Definition component_banner : list event :=
  [EvPrint rule60; EvPrint (lit "Adding DarkModeToggle Component to Pages");
   EvPrint rule60].

Definition dark_mode_banner : list event :=
  [EvPrint rule60; EvPrint (lit "Adding Dark Mode Support to All Pages");
   EvPrint rule60].

(** The paths of the page lists of add_dark_mode.py. *)
Definition dark_mode_files (pages : list (string * list string))
  : list string :=
  map (AddDarkMode.joinpath AddDarkMode.base_dir)
      (concat (map snd pages)).

(** The last lines of the scripts, for the events [t] of the loop: the
    numbers are the numbers of writes and of reads among [t].  The first
    is the last line of add_toggle_final.py and of
    manual_toggle_add.py. *)
Definition modified_summary (t : list event) : list event :=
  [EvPrint ([nl] ++ str_nat (length (writes t)) ++ lit " files modified")].

Definition component_summary (t : list event) : list event :=
  [EvPrint ([nl] ++ rule60);
   EvPrint (lit "Summary: Modified " ++ str_nat (length (writes t))
                ++ lit " files");
   EvPrint rule60].

Definition dark_mode_summary (t : list event) : list event :=
  [EvPrint ([nl] ++ rule60);
   EvPrint (lit "Summary: Modified " ++ str_nat (length (writes t))
                ++ lit "/" ++ str_nat (length (reads t)) ++ lit " files");
   EvPrint rule60].

(** [run_prints banner summary m w]: the run [m] returns, and its events
    are the banner, the events [t] of the loop and the summary of [t]. *)
Definition run_prints (banner : list event)
           (summary : list event -> list event) (m : io unit) (w : world)
  : Prop :=
  exists w' t,
    m w = (Ok tt, w') /\ trace w' = trace w ++ banner ++ t ++ summary t.

(** [within fl m w]: the run [m], whether it returns or raises, only adds
    to the trace, and every path it opens, for reading or for writing, is
    a path of [fl]. *)
Definition within {A} (fl : list string) (m : io A) (w : world) : Prop :=
  exists t,
    trace (snd (m w)) = trace w ++ t
    /\ (forall q, In q (touched t) -> In q fl).

(** One file after a per-file step on it, see [fs_after]. *)
Definition file_after (patch : text -> option text) (o : option file)
  : option file :=
  match o with
  | Some f =>
      if f_readable f && f_writable f then
        match patch (f_content f) with
        | Some c' => Some (mkFile c' true true)
        | None => Some f
        end
      else Some f
  | None => None
  end.

(** The files after the per-file steps over the list [fl], in order. *)
Definition fs_after_all (patch : string -> text -> option text)
           (fl : list string) (m : gmap string file) : gmap string file :=
  fold_left (fun m p => fs_after (patch p) p m) fl m.

(** [quiet_rerun banner summary m w]: after a first run of [m], a second
    run returns, writes no file, leaves the file system as the first run
    left it, and its summary is that of a run without writes. *)
Definition quiet_rerun (banner : list event)
           (summary : list event -> list event) (m : io unit) (w : world)
  : Prop :=
  exists w2 t,
    m (snd (m w)) = (Ok tt, w2)
    /\ fs w2 = fs (snd (m w))
    /\ trace w2 = trace (snd (m w)) ++ banner ++ t ++ summary []
    /\ writes t = [].

(** * Properties *)

(** ** Text *)

Lemma ascii_eqb_true (a b : ascii) : Ascii.eqb a b = true <-> a = b.
Proof. apply Ascii.eqb_eq. Qed.

Lemma starts_with_nil_r (p : text) : p <> [] -> starts_with p [] = false.
Proof. destruct p; [congruence | reflexivity]. Qed.

Lemma starts_with_app (p t u : text) :
  starts_with p t = true -> starts_with p (t ++ u) = true.
Proof.
  revert t. induction p as [|a p IH]; intros [|b t] H; simpl in *;
    try reflexivity; try discriminate.
  apply andb_true_iff in H as [-> H]. simpl. now apply IH.
Qed.

Lemma starts_with_self (p u : text) : starts_with p (p ++ u) = true.
Proof.
  induction p as [|a p IH]; simpl; [reflexivity|].
  now rewrite Ascii.eqb_refl.
Qed.

Lemma starts_with_prefix (p q t : text) :
  starts_with (p ++ q) t = true -> starts_with p t = true.
Proof.
  revert t. induction p as [|a p IH]; intros t H; [reflexivity|].
  destruct t as [|b t]; simpl in *; [discriminate|].
  apply andb_true_iff in H as [-> H]. simpl. eauto.
Qed.

(** A character that does not occur in [q] stops every attempt to read
    [q] across it. *)
Lemma starts_with_blocked (q a b : text) (c : ascii) :
  ~ In c q -> starts_with q (a ++ c :: b) = starts_with q a.
Proof.
  revert a. induction q as [|z q IH]; intros a Hc; [now destruct a|].
  destruct a as [|x a]; simpl.
  - destruct (Ascii.eqb z c) eqn:E; [|reflexivity].
    apply Ascii.eqb_eq in E. subst. exfalso. apply Hc. now left.
  - rewrite IH; [reflexivity|]. intros H. apply Hc. now right.
Qed.

Lemma contains_app_l (p t u : text) :
  contains p t = true -> contains p (t ++ u) = true.
Proof.
  induction t as [|b t IH]; simpl; intros H.
  - rewrite orb_false_r in H. destruct p; [|discriminate].
    now destruct u.
  - apply orb_true_iff in H as [H|H].
    + apply (starts_with_app _ _ u) in H. simpl in H. now rewrite H.
    + rewrite IH by assumption. apply orb_true_r.
Qed.

Lemma contains_app_r (p t u : text) :
  contains p u = true -> contains p (t ++ u) = true.
Proof.
  induction t as [|b t IH]; simpl; intros H; [assumption|].
  rewrite IH by assumption. apply orb_true_r.
Qed.

Lemma contains_mid (p a b : text) : contains p (a ++ p ++ b) = true.
Proof.
  apply contains_app_r. destruct (p ++ b) eqn:E; simpl.
  - destruct p; [reflexivity | discriminate].
  - rewrite <- E, starts_with_self. reflexivity.
Qed.

Lemma contains_false_app (p t u : text) :
  contains p (t ++ u) = false -> contains p t = false /\ contains p u = false.
Proof.
  intros H. split.
  - destruct (contains p t) eqn:E; [|reflexivity].
    apply (contains_app_l _ _ u) in E. congruence.
  - destruct (contains p u) eqn:E; [|reflexivity].
    apply (contains_app_r _ t) in E. congruence.
Qed.

Lemma count_nil (p : text) : p <> [] -> count_occ_text p [] = 0.
Proof. intros H. simpl. now rewrite starts_with_nil_r. Qed.

Lemma count_contains (p t : text) :
  contains p t = false <-> count_occ_text p t = 0.
Proof.
  induction t as [|b t IH]; simpl.
  - rewrite orb_false_r. destruct (starts_with p []); split; intros;
      try reflexivity; try discriminate.
  - rewrite orb_false_iff, IH.
    destruct (starts_with p (b :: t)); split; intros H;
      try (destruct H; discriminate); try discriminate; tauto.
Qed.

Lemma count_positive (p t : text) :
  contains p t = true -> 1 <= count_occ_text p t.
Proof.
  intros H. destruct (count_occ_text p t) eqn:E; [|lia].
  apply count_contains in E. congruence.
Qed.

(** Nothing is counted across the seam of [a ++ b] when the first
    character of [b] does not occur in [p] after its head. *)
Lemma count_split (p a b : text) (h c : ascii) (p' b' : text) :
  p = h :: p' -> b = c :: b' -> ~ In c p' ->
  count_occ_text p (a ++ b) = count_occ_text p a + count_occ_text p b.
Proof.
  intros -> -> Hc. induction a as [|x a IH].
  - reflexivity.
  - change (count_occ_text (h :: p') ((x :: a) ++ c :: b'))
      with ((if starts_with (h :: p') (x :: a ++ c :: b') then 1 else 0)
            + count_occ_text (h :: p') (a ++ c :: b')).
    change (count_occ_text (h :: p') (x :: a))
      with ((if starts_with (h :: p') (x :: a) then 1 else 0)
            + count_occ_text (h :: p') a).
    rewrite IH.
    replace (starts_with (h :: p') (x :: a ++ c :: b'))
      with (starts_with (h :: p') (x :: a)); [lia|].
    simpl. now rewrite starts_with_blocked.
Qed.

(** No occurrence starts inside a run that lacks the head of [p]. *)
Lemma count_skip (p q x : text) (h : ascii) (p' : text) :
  p = h :: p' -> ~ In h q ->
  count_occ_text p (q ++ x) = count_occ_text p x.
Proof.
  intros -> Hq. induction q as [|c q IH]; [reflexivity|].
  cbn [app count_occ_text]. rewrite IH by (intros H; apply Hq; now right).
  simpl. destruct (Ascii.eqb h c) eqn:E; [|reflexivity].
  apply Ascii.eqb_eq in E. subst. exfalso. apply Hq. now left.
Qed.

Lemma count_prefix_le (p q t : text) :
  count_occ_text (p ++ q) t <= count_occ_text p t.
Proof.
  induction t as [|b t IH]; simpl.
  - destruct (starts_with (p ++ q) []) eqn:E; [|lia].
    apply starts_with_prefix in E. rewrite E. lia.
  - destruct (starts_with (p ++ q) (b :: t)) eqn:E; [|lia].
    apply starts_with_prefix in E. rewrite E. lia.
Qed.

Lemma firstn_length_app (a b : text) : firstn (length a) (a ++ b) = a.
Proof.
  induction a as [|x a IH]; simpl; [now destruct b | now rewrite IH].
Qed.

Lemma skipn_length_app (a b : text) : skipn (length a) (a ++ b) = b.
Proof. induction a as [|x a IH]; simpl; [reflexivity | assumption]. Qed.

Lemma slice_mid (a m b : text) :
  slice (a ++ m ++ b) (length a) (length a + length m) = m.
Proof.
  unfold slice. rewrite skipn_length_app.
  replace (length a + length m - length a) with (length m) by lia.
  apply firstn_length_app.
Qed.

Lemma lstrip_spaces (t : text) : forallb is_space t = true -> lstrip t = [].
Proof.
  induction t as [|c t IH]; simpl; [reflexivity|].
  intros H. apply andb_true_iff in H as [-> H]. auto.
Qed.

Lemma strip_spaces (t : text) : forallb is_space t = true -> strip t = [].
Proof. intros H. unfold strip. rewrite (lstrip_spaces t H). reflexivity. Qed.

Lemma text_eqb_eq (a b : text) : text_eqb a b = true <-> a = b.
Proof. unfold text_eqb. apply bool_decide_eq_true. Qed.

Lemma text_eqb_neq (a b : text) : text_eqb a b = false <-> a <> b.
Proof. unfold text_eqb. apply bool_decide_eq_false. Qed.

(** ** The matcher *)

Lemma strip_lit_sound (s l l' : text) : strip_lit s l = Some l' -> l = s ++ l'.
Proof.
  revert l. induction s as [|a s IH]; intros [|b l] H; simpl in H;
    try discriminate; try (injection H as <-; reflexivity).
  destruct (Ascii.eqb a b) eqn:E; [|discriminate].
  apply Ascii.eqb_eq in E. subst. simpl. f_equal. auto.
Qed.

Lemma strip_lit_starts (s l : text) :
  strip_lit s l = None <-> starts_with s l = false.
Proof.
  revert l. induction s as [|a s IH]; intros [|b l]; simpl;
    try (split; congruence).
  destruct (Ascii.eqb a b); simpl; [apply IH | tauto].
Qed.

Lemma star_greedy_sound {R} c l i (k : text -> nat -> option R) x :
  star_greedy c l i k = Some x ->
  exists m l', l = m ++ l' /\ forallb c m = true
               /\ k l' (i + length m) = Some x.
Proof.
  revert i. induction l as [|a l IH]; intros i H; simpl in H.
  - exists [], []. rewrite Nat.add_0_r. auto.
  - destruct (c a) eqn:Ca.
    + destruct (star_greedy c l (S i) k) eqn:E.
      * injection H as ->. apply IH in E as (m & l' & -> & Hm & Hk).
        exists (a :: m), l'. simpl. rewrite Ca, Hm.
        replace (i + S (length m)) with (S i + length m) by lia. auto.
      * exists [], (a :: l). rewrite Nat.add_0_r. auto.
    + exists [], (a :: l). rewrite Nat.add_0_r. auto.
Qed.

Lemma star_lazy_sound {R} c l i (k : text -> nat -> option R) x :
  star_lazy c l i k = Some x ->
  exists m l', l = m ++ l' /\ forallb c m = true
               /\ k l' (i + length m) = Some x.
Proof.
  revert i. induction l as [|a l IH]; intros i H; simpl in H.
  - destruct (k [] i) eqn:E; [|discriminate]. injection H as ->.
    exists [], []. rewrite Nat.add_0_r. auto.
  - destruct (k (a :: l) i) eqn:E.
    + injection H as ->. exists [], (a :: l). rewrite Nat.add_0_r. auto.
    + destruct (c a) eqn:Ca; [|discriminate].
      apply IH in H as (m & l' & -> & Hm & Hk).
      exists (a :: m), l'. simpl. rewrite Ca, Hm.
      replace (i + S (length m)) with (S i + length m) by lia. auto.
Qed.

(** Soundness of the matcher. *)
Lemma exec_sound r :
  forall R l i g (k : text -> nat -> caps -> option R) x,
    exec r l i g k = Some x ->
    exists m l' g', l = m ++ l' /\ accepts r m i g g'
                    /\ k l' (i + length m) g' = Some x.
Proof.
  induction r as [s|c|c|c|r1 IH1 r2 IH2|n r IH|r IH|r IH];
    intros R l i g k x H; simpl in H.
  - destruct (strip_lit s l) as [l'|] eqn:E; [|discriminate].
    apply strip_lit_sound in E. exists s, l', g. split; [assumption|].
    split; [constructor | assumption].
  - destruct l as [|a l]; [discriminate|].
    destruct (c a) eqn:Ca; [|discriminate].
    exists [a], l, g. simpl. replace (i + 1) with (S i) by lia.
    split; [reflexivity|]. split; [now constructor | assumption].
  - apply star_greedy_sound in H as (m & l' & -> & Hm & Hk).
    exists m, l', g. split; [reflexivity|]. split; [now constructor|assumption].
  - apply star_lazy_sound in H as (m & l' & -> & Hm & Hk).
    exists m, l', g. split; [reflexivity|]. split; [now constructor|assumption].
  - apply IH1 in H as (m1 & l1 & g1 & -> & A1 & H).
    apply IH2 in H as (m2 & l2 & g2 & -> & A2 & H).
    exists (m1 ++ m2), l2, g2. rewrite <- app_assoc. split; [reflexivity|].
    split; [econstructor; eassumption|].
    rewrite length_app, Nat.add_assoc. assumption.
  - apply IH in H as (m & l' & g' & -> & A & H).
    exists m, l', ((n, (i, i + length m)) :: g'). split; [reflexivity|].
    split; [now constructor | assumption].
  - destruct (exec r l i g k) eqn:E.
    + injection H as ->. apply IH in E as (m & l' & g' & -> & A & H).
      exists m, l', g'. split; [reflexivity|].
      split; [now apply acc_opt_some | assumption].
    + exists [], l, g. rewrite Nat.add_0_r. split; [reflexivity|].
      split; [apply acc_opt_none | assumption].
  - destruct (exec r l i g (fun _ _ _ => Some tt)); [discriminate|].
    exists [], l, g. rewrite Nat.add_0_r. split; [reflexivity|].
    split; [apply acc_not_ahead | assumption].
Qed.

Lemma match_here_sound r l i b m :
  match_here r l i b = Some m ->
  exists mt post, l = mt ++ post /\ m_start m = i /\ m_end m = i + length mt
                  /\ accepts r mt i [] (m_caps m).
Proof.
  unfold match_here. intros H.
  apply exec_sound in H as (mt & post & g' & -> & A & H).
  destruct (b && (i + length mt =? i)); [discriminate|].
  injection H as <-. exists mt, post. simpl. auto.
Qed.

(** [re.search] returns a match of the pattern, and no attempt to its
    left succeeds. *)
Lemma search_from_sound r l i m :
  search_from r l i = Some m ->
  exists pre l2, l = pre ++ l2
    /\ match_here r l2 (i + length pre) false = Some m
    /\ forall a b, pre = a ++ b -> b <> [] ->
         match_here r (b ++ l2) (i + length a) false = None.
Proof.
  revert i. induction l as [|c l IH]; intros i H; simpl in H.
  - destruct (match_here r [] i false) eqn:E; [|discriminate].
    injection H as ->. exists [], []. rewrite Nat.add_0_r.
    split; [reflexivity|]. split; [assumption|].
    intros a b Hab Hb. symmetry in Hab.
    apply app_eq_nil in Hab as [_ ->]. congruence.
  - destruct (match_here r (c :: l) i false) eqn:E.
    + injection H as ->. exists [], (c :: l). rewrite Nat.add_0_r.
      split; [reflexivity|]. split; [assumption|].
      intros a b Hab Hb. symmetry in Hab.
      apply app_eq_nil in Hab as [_ ->]. congruence.
    + apply IH in H as (pre & l2 & -> & Hm & Hleft).
      exists (c :: pre), l2. simpl.
      replace (i + S (length pre)) with (S i + length pre) by lia.
      split; [reflexivity|]. split; [assumption|].
      intros a b Hab Hb. destruct a as [|a0 a]; simpl in Hab.
      * subst b. simpl. rewrite Nat.add_0_r. assumption.
      * injection Hab as <- ->. simpl.
        replace (i + S (length a)) with (S i + length a) by lia.
        now apply Hleft.
Qed.

Lemma re_search_sound r content m :
  re_search r content = Some m ->
  exists pre mt post,
    content = pre ++ mt ++ post
    /\ m_start m = length pre /\ m_end m = length pre + length mt
    /\ accepts r mt (length pre) [] (m_caps m).
Proof.
  unfold re_search. intros H.
  apply search_from_sound in H as (pre & l2 & -> & H & _). simpl in H.
  apply match_here_sound in H as (mt & post & -> & Hs & He & A).
  exists pre, mt, post. auto.
Qed.

(** Where [re.search] finds nothing, [re.finditer] yields nothing. *)
Lemma scan_none r l i : search_from r l i = None -> scan r l i 0 = [].
Proof.
  revert i. induction l as [|c l IH]; intros i H; simpl in *.
  - destruct (match_here r [] i false); [discriminate | reflexivity].
  - destruct (match_here r (c :: l) i false); [discriminate | auto].
Qed.

Lemma finditer_none r content :
  re_search r content = None -> re_finditer r content = [].
Proof. apply scan_none. Qed.

Lemma accepts_groupless r m i g g' :
  accepts r m i g g' -> groupless r = true -> g' = g.
Proof.
  induction 1; simpl; intros G; try reflexivity; try discriminate.
  - apply andb_true_iff in G as [G1 G2].
    rewrite IHaccepts2, IHaccepts1 by assumption. reflexivity.
  - auto.
Qed.

Lemma accepts_star c m i g g' :
  accepts (Star c) m i g g' -> forallb c m = true.
Proof. now inversion 1. Qed.

Lemma accepts_star_lazy c m i g g' :
  accepts (StarLazy c) m i g g' -> forallb c m = true.
Proof. now inversion 1. Qed.

Lemma accepts_plus c m i g g' :
  accepts (Plus c) m i g g' ->
  exists a m', m = a :: m' /\ c a = true /\ forallb c m' = true.
Proof.
  unfold Plus. inversion 1 as [| | | |? ? ? ? ? ? ? ? A1 A2| | | |]; subst.
  inversion A1; subst. inversion A2; subst. simpl. eauto.
Qed.

Lemma accepts_lit s m i g g' : accepts (Lit s) m i g g' -> m = s.
Proof. now inversion 1. Qed.

Lemma slice_mid2 (a b m c : text) :
  slice (a ++ b ++ m ++ c) (length a + length b)
        (length a + length b + length m) = m.
Proof.
  rewrite (app_assoc a b), <- (length_app a b). apply slice_mid.
Qed.

Lemma slice_mid3 (a b c m d : text) :
  slice (a ++ b ++ c ++ m ++ d) (length a + length b + length c)
        (length a + length b + length c + length m) = m.
Proof.
  rewrite (app_assoc b c), <- Nat.add_assoc, <- (length_app b c).
  apply slice_mid2.
Qed.

(** The shape of a match of [(r)]. *)
Lemma shape_g1 r content m :
  groupless r = true ->
  re_search (Grp 1 r) content = Some m ->
  exists pre mt post,
    content = pre ++ mt ++ post
    /\ m_start m = length pre /\ m_end m = length pre + length mt
    /\ group content m 1 = Some mt
    /\ accepts r mt (length pre) [] [].
Proof.
  intros G H. apply re_search_sound in H as (pre & mt & post & -> & Hs & He & A).
  destruct m as [ms me mc]; simpl in *; subst.
  inversion A as [| | | | |? ? ? ? ? ? A1| | |]; subst.
  pose proof (accepts_groupless _ _ _ _ _ A1 G) as ->.
  exists pre, mt, post. repeat split; try assumption.
  unfold group, span. simpl. now rewrite slice_mid.
Qed.

(** The shape of a match of [(r1)(r2)]. *)
Lemma shape_g12 r1 r2 content m :
  groupless r1 = true -> groupless r2 = true ->
  re_search (Cat (Grp 1 r1) (Grp 2 r2)) content = Some m ->
  exists pre g1 g2 post,
    content = pre ++ g1 ++ g2 ++ post
    /\ m_start m = length pre
    /\ m_end m = length pre + length g1 + length g2
    /\ group content m 1 = Some g1 /\ group content m 2 = Some g2
    /\ (exists i g, accepts r1 g1 i g g)
    /\ (exists i g, accepts r2 g2 i g g).
Proof.
  intros G1 G2 H.
  apply re_search_sound in H as (pre & mt & post & -> & Hs & He & A).
  destruct m as [ms me mc]; simpl in *; subst.
  inversion A as [| | | |? ? m1 m2 ? ? ? ? A1 A2| | | |]; subst.
  inversion A1 as [| | | | |? ? ? ? ? ? B1| | |]; subst.
  inversion A2 as [| | | | |? ? ? ? ? ? B2| | |]; subst.
  pose proof (accepts_groupless _ _ _ _ _ B1 G1) as E1. subst.
  pose proof (accepts_groupless _ _ _ _ _ B2 G2) as E2. subst.
  exists pre, m1, m2, post. rewrite <- app_assoc.
  split; [reflexivity|]. split; [reflexivity|].
  split; [rewrite length_app; lia|].
  unfold group, span. simpl.
  rewrite slice_mid, slice_mid2. eauto 10.
Qed.

(** The shape of a match of [(r1)(r2)(r3)]. *)
Lemma shape_g123 r1 r2 r3 content m :
  groupless r1 = true -> groupless r2 = true -> groupless r3 = true ->
  re_search (Cat (Grp 1 r1) (Cat (Grp 2 r2) (Grp 3 r3))) content = Some m ->
  exists pre g1 g2 g3 post,
    content = pre ++ g1 ++ g2 ++ g3 ++ post
    /\ m_start m = length pre
    /\ m_end m = length pre + length g1 + length g2 + length g3
    /\ group content m 1 = Some g1 /\ group content m 2 = Some g2
    /\ group content m 3 = Some g3
    /\ span m 3 = Some (length pre + length g1 + length g2,
                        length pre + length g1 + length g2 + length g3)
    /\ (exists i g, accepts r1 g1 i g g)
    /\ (exists i g, accepts r2 g2 i g g)
    /\ (exists i g, accepts r3 g3 i g g).
Proof.
  intros G1 G2 G3 H.
  apply re_search_sound in H as (pre & mt & post & -> & Hs & He & A).
  destruct m as [ms me mc]; simpl in *; subst.
  inversion A as [| | | |? ? m1 m23 ? ? ? ? A1 A23| | | |]; subst.
  inversion A23 as [| | | |? ? m2 m3 ? ? ? ? A2 A3| | | |]; subst.
  inversion A1 as [| | | | |? ? ? ? ? ? B1| | |]; subst.
  inversion A2 as [| | | | |? ? ? ? ? ? B2| | |]; subst.
  inversion A3 as [| | | | |? ? ? ? ? ? B3| | |]; subst.
  pose proof (accepts_groupless _ _ _ _ _ B1 G1) as E1. subst.
  pose proof (accepts_groupless _ _ _ _ _ B2 G2) as E2. subst.
  pose proof (accepts_groupless _ _ _ _ _ B3 G3) as E3. subst.
  exists pre, m1, m2, m3, post. rewrite <- !app_assoc.
  split; [reflexivity|]. split; [reflexivity|].
  split; [rewrite !length_app; lia|].
  unfold group, span. simpl.
  rewrite slice_mid, slice_mid2, slice_mid3. eauto 14.
Qed.

(** The shape of a match of [(r1)(r2)] followed by a literal. *)
Lemma shape_g12_lit r1 r2 s content m :
  groupless r1 = true -> groupless r2 = true ->
  re_search (Cat (Grp 1 r1) (Cat (Grp 2 r2) (Lit s))) content = Some m ->
  exists pre g1 g2 post,
    content = pre ++ g1 ++ g2 ++ s ++ post
    /\ m_start m = length pre
    /\ span m 2 = Some (length pre + length g1,
                        length pre + length g1 + length g2)
    /\ group content m 2 = Some g2
    /\ (exists i g, accepts r2 g2 i g g).
Proof.
  intros G1 G2 H.
  apply re_search_sound in H as (pre & mt & post & -> & Hs & He & A).
  destruct m as [ms me mc]; simpl in *; subst.
  inversion A as [| | | |? ? m1 m23 ? ? ? ? A1 A23| | | |]; subst.
  inversion A23 as [| | | |? ? m2 m3 ? ? ? ? A2 A3| | | |]; subst.
  inversion A1 as [| | | | |? ? ? ? ? ? B1| | |]; subst.
  inversion A2 as [| | | | |? ? ? ? ? ? B2| | |]; subst.
  inversion A3; subst.
  pose proof (accepts_groupless _ _ _ _ _ B1 G1) as E1. subst.
  pose proof (accepts_groupless _ _ _ _ _ B2 G2) as E2. subst.
  exists pre, m1, m2, post. rewrite <- !app_assoc.
  split; [reflexivity|]. split; [reflexivity|].
  unfold group, span. simpl. rewrite slice_mid2. eauto 10.
Qed.

(** The shape of a match of [(r1)((r2))?(r3)]: the second group may take
    no part; the first and the third always do. *)
Lemma shape_g1_opt_g3 r1 r2 r3 content m :
  groupless r1 = true -> groupless r2 = true -> groupless r3 = true ->
  re_search (Cat (Grp 1 r1) (Cat (Opt (Grp 2 r2)) (Grp 3 r3))) content
    = Some m ->
  exists pre g1 mid post,
    content = pre ++ g1 ++ mid ++ post
    /\ m_start m = length pre
    /\ group content m 1 = Some g1
    /\ (exists e, span m 3 = Some (length pre + length g1 + length mid, e))
    /\ (exists i g, accepts r1 g1 i g g)
    /\ (exists g3 post', post = g3 ++ post'
                         /\ exists i g, accepts r3 g3 i g g).
Proof.
  intros G1 G2 G3 H.
  apply re_search_sound in H as (pre & mt & post & -> & Hs & He & A).
  destruct m as [ms me mc]; simpl in *; subst.
  inversion A as [| | | |? ? m1 m23 ? ? ? ? A1 A23| | | |]; subst.
  inversion A23 as [| | | |? ? m2 m3 ? ? ? ? A2 A3| | | |]; subst.
  inversion A1 as [| | | | |? ? ? ? ? ? B1| | |]; subst.
  inversion A3 as [| | | | |? ? ? ? ? ? B3| | |]; subst.
  pose proof (accepts_groupless _ _ _ _ _ B1 G1) as E1. subst.
  pose proof (accepts_groupless _ _ _ _ _ B3 G3) as E3. subst.
  exists pre, m1, m2, (m3 ++ post). rewrite <- !app_assoc.
  split; [reflexivity|]. split; [reflexivity|].
  inversion A2 as [| | | | | |? ? ? ? ? C2| ? ? ? |]; subst.
  - inversion C2 as [| | | | |? ? ? ? ? ? B2| | |]; subst.
    pose proof (accepts_groupless _ _ _ _ _ B2 G2) as E2. subst.
    unfold group, span. simpl. rewrite slice_mid.
    split; [reflexivity|]. split; [eauto|]. eauto 10.
  - unfold group, span. simpl. rewrite slice_mid.
    split; [reflexivity|]. split; [eauto|]. eauto 10.
Qed.

(** ** Inserting the toggle once *)

Lemma forallb_not_in (c : ascii -> bool) (q : text) (x : ascii) :
  forallb c q = true -> c x = false -> ~ In x q.
Proof.
  intros H Hx Hin. rewrite forallb_forall in H. apply H in Hin. congruence.
Qed.

Lemma space_not_in (q : text) (c : ascii) :
  forallb (fun x => negb (is_space x)) q = true -> is_space c = true ->
  ~ In c q.
Proof.
  intros H Hc Hin. rewrite forallb_forall in H. apply H in Hin.
  rewrite Hc in Hin. discriminate.
Qed.

Lemma count_insert (M M' A B I I' : text) (h c : ascii) :
  M = h :: M' -> I = c :: I' -> ~ In c M' ->
  contains M (A ++ B) = false ->
  (forall X, count_occ_text M (I ++ X) = 1 + count_occ_text M X) ->
  count_occ_text M (A ++ I ++ B) = 1 /\ count_occ_text M I = 1.
Proof.
  intros HM HI Hc Hno Hone.
  apply contains_false_app in Hno as [HA HB].
  apply count_contains in HA, HB. split.
  - rewrite (@count_split M A (I ++ B) h c M' (I' ++ B)); try assumption.
    + rewrite Hone. lia.
    + now rewrite HI.
  - rewrite <- (app_nil_r I), Hone, count_nil; [reflexivity|].
    rewrite HM. discriminate.
Qed.

(** An inserted text of the form [P ++ tag ++ Q], with no [<] in [P] or
    [Q], holds one toggle, whatever follows. *)
Lemma count_one_tag (M M' T' P Q X : text) :
  M = lt_char :: M' -> starts_with M (lt_char :: T') = true ->
  ~ In lt_char T' -> ~ In lt_char P -> ~ In lt_char Q ->
  count_occ_text M ((P ++ (lt_char :: T') ++ Q) ++ X)
  = 1 + count_occ_text M X.
Proof.
  intros HM Hst HT HP HQ. rewrite <- !app_assoc.
  rewrite (@count_skip M P _ lt_char M' HM HP).
  change ((lt_char :: T') ++ Q ++ X) with (lt_char :: T' ++ Q ++ X).
  change (count_occ_text M (lt_char :: T' ++ Q ++ X))
    with ((if starts_with M (lt_char :: T' ++ Q ++ X) then 1 else 0)
          + count_occ_text M (T' ++ Q ++ X)).
  rewrite (@count_skip M T' _ lt_char M' HM HT).
  rewrite (@count_skip M Q _ lt_char M' HM HQ).
  change (lt_char :: T' ++ Q ++ X) with ((lt_char :: T') ++ Q ++ X).
  now rewrite (starts_with_app _ _ _ Hst).
Qed.

Lemma tag_count_from_open (t : text) :
  count_occ_text toggle_open t = 1 -> contains toggle_tag t = true ->
  count_occ_text toggle_tag t = 1.
Proof.
  intros H1 H2. apply count_positive in H2.
  pose proof (count_prefix_le toggle_open (lit " />") t) as H3.
  change (toggle_open ++ lit " />") with toggle_tag in H3. lia.
Qed.

Lemma firstn_app2 (a b c : text) :
  firstn (length a + length b) (a ++ b ++ c) = a ++ b.
Proof. rewrite app_assoc, <- length_app. apply firstn_length_app. Qed.

Lemma firstn_app3 (a b c d : text) :
  firstn (length a + length b + length c) (a ++ b ++ c ++ d) = a ++ b ++ c.
Proof.
  rewrite (app_assoc b c), <- Nat.add_assoc, <- (length_app b c).
  rewrite firstn_app2. now rewrite app_assoc.
Qed.

Lemma skipn_app2 (a b c : text) :
  skipn (length a + length b) (a ++ b ++ c) = c.
Proof. rewrite app_assoc, <- length_app. apply skipn_length_app. Qed.

Lemma skipn_app3 (a b c d : text) :
  skipn (length a + length b + length c) (a ++ b ++ c ++ d) = d.
Proof.
  rewrite (app_assoc b c), <- Nat.add_assoc, <- (length_app b c).
  apply skipn_app2.
Qed.

Lemma skipn_app4 (a b c d e : text) :
  skipn (length a + length b + length c + length d) (a ++ b ++ c ++ d ++ e)
  = e.
Proof.
  rewrite (app_assoc c d).
  replace (length a + length b + length c + length d)
    with (length a + length b + length (c ++ d))
    by (rewrite length_app; lia).
  apply skipn_app3.
Qed.

Lemma no_lt_in_tag_tail : ~ In lt_char (tl toggle_tag).
Proof. apply (@forallb_not_in not_lt); reflexivity. Qed.

(** Putting [P ++ tag ++ Q] into a text that lacks the marker [M] leaves
    exactly one toggle.  [M] is either marker of the scripts. *)
Lemma insert_tag_once (M M' content : text) (p : nat) (P Q : text) :
  M = lt_char :: M' -> M = toggle_open \/ M = toggle_tag ->
  contains M content = false ->
  p <= length content ->
  ~ In lt_char P -> ~ In lt_char Q ->
  match P with [] => True | c :: _ => ~ In c M' end ->
  let ins := P ++ toggle_tag ++ Q in
  let out := firstn p content ++ ins ++ skipn p content in
  inserted content out p ins
  /\ count_occ_text toggle_tag ins = 1
  /\ count_occ_text toggle_tag out = 1.
Proof.
  intros HM HMc Hno Hp HP HQ Hhead ins out.
  split; [split; [assumption | reflexivity]|].
  assert (Hlt : ~ In lt_char M').
  { destruct HMc as [E|E]; rewrite E in HM; injection HM as <-;
      apply (@forallb_not_in not_lt); reflexivity. }
  assert (Hst : starts_with M toggle_tag = true).
  { destruct HMc as [-> | ->]; reflexivity. }
  assert (Hone : forall X,
             count_occ_text M (ins ++ X) = 1 + count_occ_text M X).
  { intros X. apply (@count_one_tag M M' (tl toggle_tag) P Q X);
      try assumption. apply no_lt_in_tag_tail. }
  assert (Hc : exists c I', ins = c :: I' /\ ~ In c M').
  { unfold ins. destruct P as [|c P']; simpl; eauto. }
  destruct Hc as (c & I' & HI & Hc).
  rewrite <- (firstn_skipn p content) in Hno.
  destruct (@count_insert M M' (firstn p content) (skipn p content)
              ins I' lt_char c HM HI Hc Hno Hone) as [Hout Hins].
  destruct HMc as [-> | ->]; [|tauto].
  split; apply tag_count_from_open; try assumption.
  - unfold ins. apply contains_mid.
  - unfold out, ins. rewrite <- !app_assoc, app_assoc. apply contains_mid.
Qed.

(** Proves [~ In lt_char t] for [t] built from literals without [<] and
    from texts known to consist of white space or of characters other
    than [<]. *)
Ltac no_lt :=
  let Hin := fresh "Hin" in
  intros Hin;
  repeat (apply in_app_or in Hin; destruct Hin as [Hin|Hin]);
  revert Hin;
  first [ assumption
        | apply (@forallb_not_in not_lt); reflexivity
        | apply (@forallb_not_in is_space); [assumption | reflexivity]
        | apply (@forallb_not_in not_lt); [assumption | reflexivity] ].

Lemma span0 (m : rmatch) : span m 0 = Some (m_start m, m_end m).
Proof. reflexivity. Qed.

Lemma adjacent_start (m : rmatch) : adjacent m (m_start m).
Proof. exists 0, (m_start m), (m_end m). split; [reflexivity | now left]. Qed.

Lemma adjacent_end (m : rmatch) : adjacent m (m_end m).
Proof. exists 0, (m_start m), (m_end m). split; [reflexivity | now right]. Qed.

(** Putting in a literal [ins] that holds the toggle once. *)
Lemma insert_literal_once (content : text) (p : nat) (ins I' : text)
      (c : ascii) :
  contains toggle_open content = false ->
  p <= length content ->
  ins = c :: I' -> ~ In c (tl toggle_open) ->
  (forall X, count_occ_text toggle_open (ins ++ X)
             = 1 + count_occ_text toggle_open X) ->
  contains toggle_tag ins = true ->
  let out := firstn p content ++ ins ++ skipn p content in
  inserted content out p ins
  /\ count_occ_text toggle_tag ins = 1
  /\ count_occ_text toggle_tag out = 1.
Proof.
  intros Hno Hp HI Hc Hone Htag out.
  split; [split; [assumption | reflexivity]|].
  rewrite <- (firstn_skipn p content) in Hno.
  destruct (@count_insert toggle_open (tl toggle_open) (firstn p content)
              (skipn p content) ins I' lt_char c eq_refl HI Hc Hno Hone)
    as [Hout Hins].
  split; apply tag_count_from_open; try assumption.
  unfold out. apply contains_app_r. now apply contains_app_l.
Qed.

Module ComponentFacts.
Import AddToggleComponent.

Lemma standard_first content m :
  contains toggle_open content = false ->
  re_search pattern1 content = Some m ->
  exists out, add_toggle_to_standard_page content = (out, true)
              /\ inserts_once content out m.
Proof.
  intros Hno H. unfold add_toggle_to_standard_page, put_before_comment.
  rewrite H.
  eexists. split; [reflexivity|].
  apply shape_g12 in H; try reflexivity.
  destruct H as (pre & g1 & g2 & post & E & Hs & He & Hg1 & Hg2
                 & (i1 & c1 & A1) & _).
  rewrite Hg1, Hs. cbn [fmt].
  apply accepts_plus in A1 as (a & g1' & -> & Ha & Hg1').
  assert (Hsp : forallb is_space (a :: g1') = true)
    by (simpl; now rewrite Ha, Hg1').
  set (g1 := a :: g1') in *.
  exists (length pre),
    ((g1 ++ lit "{/* Dark Mode Toggle */}" ++ [nl] ++ g1)
       ++ toggle_tag ++ ([nl] ++ [nl] ++ g1)).
  split; [rewrite <- Hs; apply adjacent_start|].
  match goal with |- inserted _ ?o _ _ /\ _ =>
    replace o with
      (firstn (length pre) content
         ++ ((g1 ++ lit "{/* Dark Mode Toggle */}" ++ [nl] ++ g1)
               ++ toggle_tag ++ ([nl] ++ [nl] ++ g1))
         ++ skipn (length pre) content)
      by (rewrite <- !app_assoc; reflexivity)
  end.
  apply (@insert_tag_once toggle_open (tl toggle_open));
    try reflexivity; try assumption; try (now left); try no_lt.
  - rewrite E, length_app. lia.
  - subst g1. cbn [app]. apply space_not_in; [reflexivity | assumption].
Qed.

Lemma standard_second content m :
  contains toggle_open content = false ->
  re_search pattern1 content = None ->
  re_search pattern2 content = Some m ->
  exists out, add_toggle_to_standard_page content = (out, true)
              /\ inserts_once content out m.
Proof.
  intros Hno H1 H. unfold add_toggle_to_standard_page, put_before_bell.
  rewrite H1, H.
  eexists. split; [reflexivity|].
  apply shape_g123 in H; try reflexivity.
  destruct H as (pre & g1 & g2 & g3 & post & E & Hs & He & Hg1 & Hg2
                 & Hg3 & Hsp3 & _ & (i2 & c2 & A2) & _).
  rewrite Hg1, Hg2, Hg3, Hs, He. cbn [fmt].
  apply accepts_star in A2.
  rewrite (strip_spaces _ A2). cbn [text_eqb bool_decide].
  change (text_eqb [] []) with true. cbv iota.
  exists (length pre + length g1 + length g2), ([] ++ toggle_tag ++ g2).
  split; [exists 3; eauto|].
  match goal with |- inserted _ ?o _ _ /\ _ =>
    replace o with
      (firstn (length pre + length g1 + length g2) content
         ++ ([] ++ toggle_tag ++ g2)
         ++ skipn (length pre + length g1 + length g2) content)
      by (rewrite E, firstn_length_app, skipn_app4, firstn_app3,
            skipn_app3, <- !app_assoc; reflexivity)
  end.
  apply (@insert_tag_once toggle_open (tl toggle_open));
    try reflexivity; try assumption; try (now left); try no_lt;
    try exact I.
  rewrite E, !length_app. lia.
Qed.

Lemma standard_third content m :
  contains toggle_open content = false ->
  re_search pattern1 content = None ->
  re_search pattern2 content = None ->
  re_search pattern3 content = Some m ->
  exists out, add_toggle_to_standard_page content = (out, true)
              /\ inserts_once content out m.
Proof.
  intros Hno H1 H2 H. unfold add_toggle_to_standard_page, put_before_logout.
  rewrite H1, H2, H. eexists. split; [reflexivity|].
  apply shape_g123 in H; try reflexivity.
  destruct H as (pre & g1 & g2 & g3 & post & E & Hs & He & Hg1 & Hg2
                 & Hg3 & Hsp3 & _ & (i2 & c2 & A2) & _).
  rewrite Hg1, Hg2, Hg3, Hs, He. cbn [fmt].
  apply accepts_star_lazy in A2.
  set (indent := if contains [nl] g2 then indent14 else lit " ").
  assert (Hind : ~ In lt_char indent)
    by (subst indent; destruct (contains [nl] g2); no_lt).
  exists (length pre + length g1 + length g2), ([] ++ toggle_tag ++ indent).
  split; [exists 3; eauto|].
  match goal with |- inserted _ ?o _ _ /\ _ =>
    replace o with
      (firstn (length pre + length g1 + length g2) content
         ++ ([] ++ toggle_tag ++ indent)
         ++ skipn (length pre + length g1 + length g2) content)
      by (rewrite E, firstn_length_app, skipn_app4, firstn_app3,
            skipn_app3, <- !app_assoc; reflexivity)
  end.
  apply (@insert_tag_once toggle_open (tl toggle_open));
    try reflexivity; try assumption; try (now left); try no_lt;
    try exact I.
  rewrite E, !length_app. lia.
Qed.

Lemma standard_fourth content m :
  contains toggle_open content = false ->
  re_search pattern1 content = None ->
  re_search pattern2 content = None ->
  re_search pattern3 content = None ->
  re_search pattern4 content = Some m ->
  exists out, add_toggle_to_standard_page content = (out, true)
              /\ inserts_once content out m.
Proof.
  intros Hno H1 H2 H3 H. unfold add_toggle_to_standard_page, put_in_actions.
  rewrite H1, H2, H3, H. eexists. split; [reflexivity|].
  apply shape_g1 in H; try reflexivity.
  destruct H as (pre & mt & post & E & Hs & He & _).
  eexists (m_end m), _. split; [apply adjacent_end|].
  eapply insert_literal_once; try reflexivity; try assumption.
  - rewrite E, He, !length_app. lia.
  - apply (@forallb_not_in (fun x => negb (Ascii.eqb x nl))); reflexivity.
Qed.

Lemma auth_once content m :
  contains toggle_open content = false ->
  re_search auth_pattern content = Some m ->
  exists out, add_toggle_to_auth_page content = (out, true)
              /\ inserts_once content out m.
Proof.
  intros Hno H. unfold add_toggle_to_auth_page. rewrite H.
  eexists. split; [reflexivity|].
  apply shape_g1 in H; try reflexivity.
  destruct H as (pre & mt & post & E & Hs & He & _).
  eexists (m_end m), _. split; [apply adjacent_end|].
  eapply insert_literal_once; try reflexivity; try assumption.
  - rewrite E, He, !length_app. lia.
  - apply (@forallb_not_in (fun x => negb (Ascii.eqb x nl))); reflexivity.
Qed.

End ComponentFacts.

Module DarkModeFacts.
Import AddDarkMode.

Lemma toggle_by_bell content file_path m :
  contains toggle_tag content = false ->
  re_search notification_pattern content = Some m ->
  exists out, add_dark_mode_toggle content file_path = (out, true)
              /\ inserts_once content out m.
Proof.
  intros Hno H. unfold add_dark_mode_toggle. rewrite Hno, H.
  eexists. split; [reflexivity|].
  apply shape_g1_opt_g3 in H; try reflexivity.
  destruct H as (pre & g1 & mid & post & E & Hs & Hg1 & (e & Hg3)
                 & (i1 & c1 & A1) & _).
  apply accepts_star in A1.
  unfold start_of. rewrite Hg1, Hg3. cbn [fmt].
  exists (length pre + length g1 + length mid),
    (([nl] ++ g1 ++ lit "{/* Dark Mode Toggle */}" ++ [nl] ++ g1)
       ++ toggle_tag ++ ([nl] ++ g1)).
  split; [exists 3; eauto|].
  match goal with |- inserted _ ?o _ _ /\ _ =>
    replace o with
      (firstn (length pre + length g1 + length mid) content
         ++ (([nl] ++ g1 ++ lit "{/* Dark Mode Toggle */}" ++ [nl] ++ g1)
               ++ toggle_tag ++ ([nl] ++ g1))
         ++ skipn (length pre + length g1 + length mid) content)
      by (rewrite <- !app_assoc; reflexivity)
  end.
  apply (@insert_tag_once toggle_tag (tl toggle_tag));
    try reflexivity; try assumption; try (now right); try no_lt.
  - rewrite E, !length_app. lia.
  - apply (@forallb_not_in (fun x => negb (Ascii.eqb x nl))); reflexivity.
Qed.

Lemma toggle_by_logout content file_path lm m :
  contains toggle_tag content = false ->
  re_search notification_pattern content = None ->
  re_search logout_pattern content = Some lm ->
  re_search (container_pattern (fmt (group content lm 0))) content
    = Some m ->
  exists out, add_dark_mode_toggle content file_path = (out, true)
              /\ inserts_once content out m.
Proof.
  intros Hno H1 H2 H. unfold add_dark_mode_toggle.
  rewrite Hno, H1, H2, H. eexists. split; [reflexivity|].
  apply shape_g12_lit in H; try reflexivity.
  destruct H as (pre & g1 & g2 & post & E & Hs & Hsp2 & Hg2
                 & (i2 & c2 & A2)).
  apply accepts_star_lazy in A2.
  unfold end_of. rewrite Hg2, Hsp2. cbn [fmt].
  set (indent := match strip g2 with
                 | [] => lit "              "
                 | _ :: _ => g2
                 end).
  assert (Hind : ~ In lt_char indent)
    by (subst indent; destruct (strip g2); no_lt).
  exists (length pre + length g1 + length g2),
    (([nl] ++ indent) ++ toggle_tag ++ ([nl] ++ indent)).
  split; [exists 2; eauto|].
  match goal with |- inserted _ ?o _ _ /\ _ =>
    replace o with
      (firstn (length pre + length g1 + length g2) content
         ++ (([nl] ++ indent) ++ toggle_tag ++ ([nl] ++ indent))
         ++ skipn (length pre + length g1 + length g2) content)
      by (rewrite <- !app_assoc; reflexivity)
  end.
  apply (@insert_tag_once toggle_tag (tl toggle_tag));
    try reflexivity; try assumption; try (now right); try no_lt.
  - rewrite E, !length_app. lia.
  - apply (@forallb_not_in (fun x => negb (Ascii.eqb x nl))); reflexivity.
Qed.

End DarkModeFacts.

(** ** Running the scripts *)

Lemma print_run (line : text) (w : world) :
  print line w = (Ok tt, mkWorld (fs w) (trace w ++ [EvPrint line])).
Proof. reflexivity. Qed.

Lemma read_text_ok (p : string) (w : world) (f : file) :
  fs w !! p = Some f -> f_readable f = true ->
  read_text p w = (Ok (f_content f), mkWorld (fs w) (trace w ++ [EvRead p])).
Proof.
  intros Hf Hr. unfold read_text, bind, log. cbn [fs trace].
  now rewrite Hf, Hr.
Qed.

Lemma read_text_denied (p : string) (w : world) (f : file) :
  fs w !! p = Some f -> f_readable f = false ->
  read_text p w
  = (Raised (PermissionError p), mkWorld (fs w) (trace w ++ [EvRead p])).
Proof.
  intros Hf Hr. unfold read_text, bind, log. cbn [fs trace].
  now rewrite Hf, Hr.
Qed.

Lemma read_text_missing (p : string) (w : world) :
  fs w !! p = None ->
  read_text p w
  = (Raised (FileNotFoundError p), mkWorld (fs w) (trace w ++ [EvRead p])).
Proof.
  intros Hf. unfold read_text, bind, log. cbn [fs trace]. now rewrite Hf.
Qed.

Lemma write_text_ok (p : string) (c : text) (w : world) (f : file) :
  fs w !! p = Some f -> f_writable f = true ->
  write_text p c w
  = (Ok tt, mkWorld (<[p := mkFile c (f_readable f) true]> (fs w))
                    (trace w ++ [EvWrite p c])).
Proof. intros Hf Hw. unfold write_text. now rewrite Hf, Hw. Qed.

Lemma write_text_denied (p : string) (c : text) (w : world) (f : file) :
  fs w !! p = Some f -> f_writable f = false ->
  write_text p c w = (Raised (PermissionError p), w).
Proof. intros Hf Hw. unfold write_text. now rewrite Hf, Hw. Qed.

Lemma exists_run (p : string) (w : world) :
  stat_ok (fs w) p ->
  exists_ p w = (Ok (bool_decide (is_Some (fs w !! p))), w).
Proof.
  intros H. unfold exists_. destruct (fs w !! p) as [f|] eqn:Hf.
  - rewrite (H f Hf). now rewrite bool_decide_eq_true_2 by eauto.
  - now rewrite bool_decide_eq_false_2 by apply is_Some_None.
Qed.

Lemma exists_denied (p : string) (w : world) (f : file) :
  fs w !! p = Some f -> f_stat f = false ->
  exists_ p w = (Raised (PermissionError p), w).
Proof. intros Hf Hs. unfold exists_. now rewrite Hf, Hs. Qed.

Lemma bind_run {A B} (m : io A) (f : A -> io B) (w w' : world) (a : A) :
  m w = (Ok a, w') -> bind m f w = f a w'.
Proof. intros H. unfold bind. now rewrite H. Qed.

Lemma bind_raised {A B} (m : io A) (f : A -> io B) (w w' : world) e :
  m w = (Raised e, w') -> bind m f w = (Raised e, w').
Proof. intros H. unfold bind. now rewrite H. Qed.

Lemma writes_app (a b : list event) : writes (a ++ b) = writes a ++ writes b.
Proof.
  induction a as [|e a IH]; [reflexivity|].
  destruct e; simpl; rewrite ?IH; reflexivity.
Qed.

(** Steps of a run: a read or a write that succeeds, a print. *)
Ltac run_read Hf Hr :=
  erewrite bind_run by (eapply read_text_ok; [exact Hf | exact Hr]);
  cbv beta.
Ltac run_write Hf Hw :=
  erewrite bind_run by (eapply write_text_ok; [exact Hf | exact Hw]);
  cbv beta.
Ltac run_print :=
  erewrite bind_run by (apply print_run); cbv beta.

(** ** The claims *)

(** C10.  A text with no match of the import pattern and without the word
    DarkModeToggle leaves [add_import] unchanged, with [changed = False]:
    the import is never put at the head of a file without imports. *)
Theorem add_import_needs_an_import (content : text) (file_path : string) :
  re_search AddDarkMode.import_pattern content = None ->
  contains (lit "DarkModeToggle") content = false ->
  AddDarkMode.add_import content file_path = (content, false).
Proof.
  intros Hnone Hno. unfold AddDarkMode.add_import.
  rewrite Hno, (finditer_none _ _ Hnone). reflexivity.
Qed.

Lemma add_import_needs_an_import_witness :
  re_search AddDarkMode.import_pattern (lit "const x = 1;") = None
  /\ contains (lit "DarkModeToggle") (lit "const x = 1;") = false
  /\ AddDarkMode.add_import (lit "const x = 1;") "client/src/pages/auth/Login.tsx"
     = (lit "const x = 1;", false).
Proof.
  split; [reflexivity|]. split; [reflexivity|].
  apply add_import_needs_an_import; reflexivity.
Defined.

(** When [add_import] changes the text, the new line stands right after
    the last match of the import pattern. *)
Lemma add_import_after_last (content out : text) (file_path : string) :
  AddDarkMode.add_import content file_path = (out, true) ->
  exists m ms,
    re_finditer AddDarkMode.import_pattern content = ms ++ [m]
    /\ out = firstn (m_end m) content
               ++ [nl] ++ (lit "import DarkModeToggle from '"
                             ++ AddDarkMode.get_import_path file_path
                             ++ lit "';")
               ++ skipn (m_end m) content.
Proof.
  unfold AddDarkMode.add_import.
  destruct (contains (lit "DarkModeToggle") content); [discriminate|].
  destruct (last (re_finditer AddDarkMode.import_pattern content))
    as [m|] eqn:E; [|discriminate].
  intros H. injection H as <-. apply last_Some in E as [ms E].
  exists m, ms. split; [assumption | reflexivity].
Qed.

Lemma auth_no_anchor (content : text) :
  re_search AddToggleComponent.auth_pattern content = None ->
  AddToggleComponent.add_toggle_to_auth_page content = (content, false).
Proof.
  intros H. unfold AddToggleComponent.add_toggle_to_auth_page. now rewrite H.
Qed.

Lemma standard_no_anchor (content : text) :
  re_search AddToggleComponent.pattern1 content = None ->
  re_search AddToggleComponent.pattern2 content = None ->
  re_search AddToggleComponent.pattern3 content = None ->
  re_search AddToggleComponent.pattern4 content = None ->
  AddToggleComponent.add_toggle_to_standard_page content = (content, false).
Proof.
  intros H1 H2 H3 H4. unfold AddToggleComponent.add_toggle_to_standard_page.
  now rewrite H1, H2, H3, H4.
Qed.

(** C8.  When no anchor pattern matches, the insertion functions of
    add_toggle_component.py return the text unchanged with [False];
    [process_file] then prints the MANUAL line, writes nothing and
    returns [False] without raising; [add_toggle] of manual_toggle_add.py
    prints the FAILED line, writes nothing and returns [False]. *)
Theorem no_anchor_is_reported_not_raised :
  (forall content,
      re_search AddToggleComponent.auth_pattern content = None ->
      AddToggleComponent.add_toggle_to_auth_page content = (content, false))
  /\ (forall content,
      re_search AddToggleComponent.pattern1 content = None ->
      re_search AddToggleComponent.pattern2 content = None ->
      re_search AddToggleComponent.pattern3 content = None ->
      re_search AddToggleComponent.pattern4 content = None ->
      AddToggleComponent.add_toggle_to_standard_page content
      = (content, false))
  /\ (forall p w f,
      fs w !! p = Some f -> f_readable f = true ->
      contains toggle_open (f_content f) = false ->
      contains (lit "import DarkModeToggle") (f_content f) = true ->
      (if contains (lit "auth") (lit p)
       then re_search AddToggleComponent.auth_pattern (f_content f) = None
       else re_search AddToggleComponent.pattern1 (f_content f) = None
            /\ re_search AddToggleComponent.pattern2 (f_content f) = None
            /\ re_search AddToggleComponent.pattern3 (f_content f) = None
            /\ re_search AddToggleComponent.pattern4 (f_content f) = None) ->
      AddToggleComponent.process_file p w
      = (Ok false,
         mkWorld (fs w)
                 (trace w ++ [EvRead p;
                              EvPrint (lit "[MANUAL] " ++ lit p
                                         ++ lit " - Needs manual intervention")])))
  /\ (forall p w f,
      fs w !! p = Some f -> f_readable f = true ->
      contains toggle_open (f_content f) = false ->
      re_search ManualToggleAdd.pattern (f_content f) = None ->
      ManualToggleAdd.add_toggle p w
      = (Ok false,
         mkWorld (fs w)
                 (trace w ++ [EvRead p;
                              EvPrint (lit "[FAILED] " ++ lit p
                                         ++ lit " - Pattern not found")]))).
Proof.
  split; [exact auth_no_anchor|]. split; [exact standard_no_anchor|]. split.
  - intros p w f Hf Hr Hm Hi Hno.
    unfold AddToggleComponent.process_file, try_except.
    rewrite (bind_run _ _ _ _ _ (read_text_ok p w f Hf Hr)), Hm, Hi. cbn [negb].
    destruct (contains (lit "auth") (lit p)).
    + rewrite (auth_no_anchor _ Hno). unfold bind, print, log, ret.
      cbn [fs trace]. now rewrite <- app_assoc.
    + destruct Hno as (H1 & H2 & H3 & H4).
      rewrite (standard_no_anchor _ H1 H2 H3 H4). unfold bind, print, log, ret.
      cbn [fs trace]. now rewrite <- app_assoc.
  - intros p w f Hf Hr Hm Hno. unfold ManualToggleAdd.add_toggle.
    rewrite (bind_run _ _ _ _ _ (read_text_ok p w f Hf Hr)), Hm, Hno.
    unfold bind, print, log, ret. cbn [fs trace]. now rewrite <- app_assoc.
Qed.

Lemma no_anchor_is_reported_not_raised_witness :
  AddToggleComponent.add_toggle_to_auth_page page_without_anchor
  = (page_without_anchor, false)
  /\ AddToggleComponent.add_toggle_to_standard_page page_without_anchor
     = (page_without_anchor, false)
  /\ AddToggleComponent.process_file checkout world_without_anchor
     = (Ok false,
        mkWorld (fs world_without_anchor)
                (trace world_without_anchor
                   ++ [EvRead checkout;
                       EvPrint (lit "[MANUAL] " ++ lit checkout
                                  ++ lit " - Needs manual intervention")]))
  /\ ManualToggleAdd.add_toggle checkout world_without_anchor
     = (Ok false,
        mkWorld (fs world_without_anchor)
                (trace world_without_anchor
                   ++ [EvRead checkout;
                       EvPrint (lit "[FAILED] " ++ lit checkout
                                  ++ lit " - Pattern not found")])).
Proof.
  destruct no_anchor_is_reported_not_raised as (H1 & H2 & H3 & H4).
  split; [apply H1; reflexivity|].
  split; [apply H2; reflexivity|].
  split.
  - apply (H3 checkout world_without_anchor
              (mkFile page_without_anchor true true));
      try reflexivity.
    vm_compute. repeat split; reflexivity.
  - apply (H4 checkout world_without_anchor
              (mkFile page_without_anchor true true)); reflexivity.
Defined.

(** C7.  On a text that holds a recognized anchor and lacks the
    done-marker, the toggle insertion of add_toggle_component.py (auth and
    standard pages) and of add_dark_mode.py reports a change, puts in
    exactly one toggle at an end of the anchor or of one of its groups,
    and keeps every other character in place.  For the logout fallback of
    add_dark_mode.py the anchor is the flex container found around the
    button. *)
Theorem toggle_inserted_once_next_to_anchor :
  (forall content m,
      contains toggle_open content = false ->
      re_search AddToggleComponent.auth_pattern content = Some m ->
      exists out,
        AddToggleComponent.add_toggle_to_auth_page content = (out, true)
        /\ inserts_once content out m)
  /\ (forall content,
      contains toggle_open content = false ->
      (re_search AddToggleComponent.pattern1 content <> None
       \/ re_search AddToggleComponent.pattern2 content <> None
       \/ re_search AddToggleComponent.pattern3 content <> None
       \/ re_search AddToggleComponent.pattern4 content <> None) ->
      exists out m,
        AddToggleComponent.add_toggle_to_standard_page content = (out, true)
        /\ (re_search AddToggleComponent.pattern1 content = Some m
            \/ re_search AddToggleComponent.pattern2 content = Some m
            \/ re_search AddToggleComponent.pattern3 content = Some m
            \/ re_search AddToggleComponent.pattern4 content = Some m)
        /\ inserts_once content out m)
  /\ (forall content file_path,
      contains toggle_tag content = false ->
      (re_search AddDarkMode.notification_pattern content <> None
       \/ exists lm,
           re_search AddDarkMode.logout_pattern content = Some lm
           /\ re_search
                (AddDarkMode.container_pattern (fmt (group content lm 0)))
                content <> None) ->
      exists out m,
        AddDarkMode.add_dark_mode_toggle content file_path = (out, true)
        /\ (re_search AddDarkMode.notification_pattern content = Some m
            \/ exists lm,
                re_search AddDarkMode.logout_pattern content = Some lm
                /\ re_search
                     (AddDarkMode.container_pattern
                        (fmt (group content lm 0)))
                     content = Some m)
        /\ inserts_once content out m).
Proof.
  split; [exact ComponentFacts.auth_once|]. split.
  - intros content Hno Hany.
    destruct (re_search AddToggleComponent.pattern1 content) as [m|] eqn:E1.
    { destruct (ComponentFacts.standard_first content m Hno E1)
        as (out & Ho & Hi).
      exists out, m. auto 10. }
    destruct (re_search AddToggleComponent.pattern2 content) as [m|] eqn:E2.
    { destruct (ComponentFacts.standard_second content m Hno E1 E2)
        as (out & Ho & Hi).
      exists out, m. auto 10. }
    destruct (re_search AddToggleComponent.pattern3 content) as [m|] eqn:E3.
    { destruct (ComponentFacts.standard_third content m Hno E1 E2 E3)
        as (out & Ho & Hi).
      exists out, m. auto 10. }
    destruct (re_search AddToggleComponent.pattern4 content) as [m|] eqn:E4.
    { destruct (ComponentFacts.standard_fourth content m Hno E1 E2 E3 E4)
        as (out & Ho & Hi).
      exists out, m. auto 10. }
    exfalso. destruct Hany as [H|[H|[H|H]]]; now apply H.
  - intros content file_path Hno Hany.
    destruct (re_search AddDarkMode.notification_pattern content)
      as [m|] eqn:E1.
    { destruct (DarkModeFacts.toggle_by_bell content file_path m Hno E1)
        as (out & Ho & Hi).
      exists out, m. auto 10. }
    destruct Hany as [H|(lm & E2 & H)]; [now exfalso; apply H|].
    destruct (re_search
                (AddDarkMode.container_pattern (fmt (group content lm 0)))
                content) as [m|] eqn:E3; [|now exfalso; apply H].
    destruct (DarkModeFacts.toggle_by_logout content file_path lm m
                Hno E1 E2 E3) as (out & Ho & Hi).
    exists out, m. split; [assumption|]. split; [|assumption].
    right. exists lm. auto.
Qed.

Lemma toggle_inserted_once_next_to_anchor_witness :
  (contains toggle_open auth_page = false
   /\ exists m out,
       re_search AddToggleComponent.auth_pattern auth_page = Some m
       /\ AddToggleComponent.add_toggle_to_auth_page auth_page = (out, true)
       /\ inserts_once auth_page out m)
  /\ (contains toggle_open bell_page = false
      /\ re_search AddToggleComponent.pattern2 bell_page <> None
      /\ exists out m,
          AddToggleComponent.add_toggle_to_standard_page bell_page
          = (out, true)
          /\ inserts_once bell_page out m)
  /\ (contains toggle_tag logout_page = false
      /\ exists out m,
          AddDarkMode.add_dark_mode_toggle logout_page checkout = (out, true)
          /\ inserts_once logout_page out m).
Proof.
  destruct toggle_inserted_once_next_to_anchor as (Ha & Hs & Hd).
  split; [|split].
  - split; [reflexivity|].
    destruct (re_search AddToggleComponent.auth_pattern auth_page)
      as [m|] eqn:E; [|discriminate E].
    destruct (Ha auth_page m eq_refl E) as (out & Ho & Hi).
    exists m, out. auto.
  - split; [reflexivity|]. split; [discriminate|].
    destruct (Hs bell_page eq_refl) as (out & m & Ho & _ & Hi).
    + right. left. discriminate.
    + exists out, m. auto.
  - split; [reflexivity|].
    destruct (Hd logout_page checkout eq_refl) as (out & m & Ho & _ & Hi).
    + right.
      destruct (re_search AddDarkMode.logout_pattern logout_page)
        as [lm|] eqn:E; [|discriminate E].
      exists lm. split; [reflexivity|].
      vm_compute in E. injection E as <-. discriminate.
    + exists out, m. auto.
Defined.

(** ** Priority of the anchors *)

Lemma find_app_skip {A} (f : A -> bool) (a b : list A) :
  (forall x, In x a -> f x = false) -> find f (a ++ b) = find f b.
Proof.
  induction a as [|x a IH]; intros H; [reflexivity|].
  simpl. rewrite (H x) by now left. apply IH. intros y Hy. apply H. now right.
Qed.

(** A loop over [reversed(matches)] that returns at the first match that
    passes a test stops at the last such match of the text. *)
Lemma find_rev_last {A} (f : A -> bool) (l before after : list A) (m : A) :
  l = before ++ m :: after -> f m = true ->
  (forall x, In x after -> f x = false) ->
  find f (rev l) = Some m.
Proof.
  intros -> Hm Hafter. rewrite rev_app_distr. simpl. rewrite <- app_assoc.
  rewrite find_app_skip.
  - simpl. now rewrite Hm.
  - intros x Hx. apply Hafter. now apply in_rev.
Qed.

Lemma find_rev_none {A} (f : A -> bool) (l : list A) :
  (forall x, In x l -> f x = false) -> find f (rev l) = None.
Proof.
  intros H. rewrite <- (app_nil_r (rev l)). rewrite find_app_skip.
  - reflexivity.
  - intros x Hx. apply H. now apply in_rev.
Qed.

(** [re.search] is leftmost: no attempt before the match succeeds. *)
Lemma re_search_leftmost (r : regex) (content : text) (m : rmatch) :
  re_search r content = Some m ->
  forall j, j < m_start m -> match_here r (skipn j content) j false = None.
Proof.
  unfold re_search. intros H j Hj.
  apply search_from_sound in H as (pre & l2 & -> & Hm & Hleft).
  simpl in Hm. pose proof Hm as Hm'.
  apply match_here_sound in Hm' as (mt & post & _ & Hs & _).
  rewrite Hs in Hj.
  specialize (Hleft (firstn j pre) (skipn j pre)).
  rewrite firstn_skipn in Hleft. specialize (Hleft eq_refl).
  rewrite length_firstn, Nat.min_l in Hleft by lia. simpl in Hleft.
  rewrite skipn_app. replace (j - length pre) with 0 by lia. simpl.
  apply Hleft. intros E.
  apply (f_equal (@length ascii)) in E. rewrite length_skipn in E.
  simpl in E. lia.
Qed.

(** ** Writing only what changed *)

Lemma manual_rewrite_changes (content : text) (m : rmatch) :
  re_search ManualToggleAdd.pattern content = Some m ->
  ManualToggleAdd.rewrite content m <> content.
Proof.
  intros H. apply shape_g1 in H; [|reflexivity].
  destruct H as (pre & mt & post & E & Hs & He & Hg & _).
  subst content. unfold ManualToggleAdd.rewrite. rewrite Hg, Hs, He.
  cbn [fmt]. rewrite firstn_length_app, skipn_app2.
  destruct (contains _ _); intros Heq;
    apply (f_equal (@length ascii)) in Heq;
    rewrite !length_app in Heq; simpl in Heq; lia.
Qed.

Lemma dark_mode_process_file_run (p : string) (w : world) (f : file) :
  fs w !! p = Some f -> f_readable f = true -> f_writable f = true ->
  let c := f_content f in
  let c' := fst (AddDarkMode.transform c p) in
  exists b w',
    AddDarkMode.process_file p w = (Ok b, w')
    /\ b = negb (text_eqb c' c)
    /\ writes (trace w')
       = writes (trace w) ++ (if text_eqb c' c then [] else [(p, c')])
    /\ fs w' = if text_eqb c' c then fs w
               else <[p := mkFile c' true true]> (fs w).
Proof.
  intros Hf Hr Hw c c'. unfold AddDarkMode.process_file.
  run_print. unfold try_except. run_read Hf Hr.
  subst c c'. destruct (AddDarkMode.transform (f_content f) p) as [c' ch].
  cbn [fst]. destruct (text_eqb c' (f_content f)); cbn [negb].
  - eexists _, _. split; [reflexivity|]. cbn [fs trace].
    rewrite !writes_app. simpl. rewrite !app_nil_r. auto.
  - run_write Hf Hw.
    eexists _, _. split; [reflexivity|]. cbn [fs trace].
    rewrite !writes_app. simpl. rewrite !app_nil_r, Hr. auto.
Qed.

Lemma manual_add_toggle_run (p : string) (w : world) (f : file) :
  fs w !! p = Some f -> f_readable f = true -> f_writable f = true ->
  let c := f_content f in
  let c' := manual_text c in
  exists b w',
    ManualToggleAdd.add_toggle p w = (Ok b, w')
    /\ b = negb (text_eqb c' c)
    /\ writes (trace w')
       = writes (trace w) ++ (if text_eqb c' c then [] else [(p, c')])
    /\ fs w' = if text_eqb c' c then fs w
               else <[p := mkFile c' true true]> (fs w).
Proof.
  intros Hf Hr Hw c c'. subst c c'.
  unfold ManualToggleAdd.add_toggle, manual_text.
  run_read Hf Hr.
  assert (Hsame : text_eqb (f_content f) (f_content f) = true)
    by now apply text_eqb_eq.
  destruct (contains toggle_open (f_content f)).
  - rewrite Hsame. eexists _, _. split; [reflexivity|]. cbn [fs trace].
    rewrite !writes_app. simpl. rewrite !app_nil_r. auto.
  - destruct (re_search ManualToggleAdd.pattern (f_content f)) as [m|] eqn:E.
    + pose proof (manual_rewrite_changes _ _ E) as Hne.
      apply text_eqb_neq in Hne. rewrite Hne.
      run_write Hf Hw.
      eexists _, _. split; [reflexivity|]. cbn [fs trace].
      rewrite !writes_app. simpl. rewrite !app_nil_r, Hr. auto.
    + rewrite Hsame. eexists _, _. split; [reflexivity|]. cbn [fs trace].
      rewrite !writes_app. simpl. rewrite !app_nil_r. auto.
Qed.

(** C6.  A file that can be read and written is written back exactly when
    the new content differs from the content read.  [process_file] of
    add_dark_mode.py writes the result of its three steps if and only if
    it is not the original text.  [add_toggle] of manual_toggle_add.py
    writes the text it ends with if and only if that text is not the text
    it read: it has no comparison of its own, but it writes only after a
    rewrite, and a rewrite always changes the text.  In both, the answer
    is [True] exactly when the file was written, and what is written is
    the new text. *)
Theorem written_iff_changed :
  (forall p w f,
      fs w !! p = Some f -> f_readable f = true -> f_writable f = true ->
      let c := f_content f in
      let c' := fst (AddDarkMode.transform c p) in
      exists b w',
        AddDarkMode.process_file p w = (Ok b, w')
        /\ b = negb (text_eqb c' c)
        /\ writes (trace w')
           = writes (trace w) ++ (if text_eqb c' c then [] else [(p, c')])
        /\ fs w' = if text_eqb c' c then fs w
                   else <[p := mkFile c' true true]> (fs w))
  /\ (forall p w f,
      fs w !! p = Some f -> f_readable f = true -> f_writable f = true ->
      let c := f_content f in
      let c' := manual_text c in
      exists b w',
        ManualToggleAdd.add_toggle p w = (Ok b, w')
        /\ b = negb (text_eqb c' c)
        /\ writes (trace w')
           = writes (trace w) ++ (if text_eqb c' c then [] else [(p, c')])
        /\ fs w' = if text_eqb c' c then fs w
                   else <[p := mkFile c' true true]> (fs w)).
Proof.
  split; [exact dark_mode_process_file_run | exact manual_add_toggle_run].
Qed.

Lemma written_iff_changed_witness :
  (exists w',
      AddDarkMode.process_file login world_bare_class = (Ok true, w')
      /\ writes (trace w') = [(login, lit "bg-white dark:bg-gray-800")])
  /\ (exists w',
      ManualToggleAdd.add_toggle checkout world_link = (Ok true, w')
      /\ manual_text link_page <> link_page
      /\ writes (trace w') = [(checkout, manual_text link_page)]
      /\ fs w' = {[ checkout := mkFile (manual_text link_page) true true ]})
  /\ (exists w',
      ManualToggleAdd.add_toggle login world_marked = (Ok false, w')
      /\ manual_text marked_page = marked_page
      /\ writes (trace w') = []
      /\ fs w' = fs world_marked).
Proof.
  destruct written_iff_changed as (H1 & H2). split; [|split].
  - destruct (H1 login world_bare_class (mkFile (lit "bg-white") true true)
                eq_refl eq_refl eq_refl) as (b & w' & Hrun & Hb & Hwr & _).
    exists w'. vm_compute in Hb. subst b. split; [exact Hrun|].
    rewrite Hwr. reflexivity.
  - destruct (H2 checkout world_link (mkFile link_page true true)
                eq_refl eq_refl eq_refl) as (b & w' & Hrun & Hb & Hwr & Hfs).
    cbn [f_content mkFile] in *.
    assert (E : text_eqb (manual_text link_page) link_page = false)
      by (vm_compute; reflexivity).
    rewrite E in Hb, Hwr, Hfs. cbn [negb] in Hb. subst b.
    exists w'. split; [exact Hrun|].
    split; [now apply text_eqb_neq|].
    split; [exact Hwr|]. rewrite Hfs. apply insert_singleton_eq.
  - destruct (H2 login world_marked (mkFile marked_page true true)
                eq_refl eq_refl eq_refl) as (b & w' & Hrun & Hb & Hwr & Hfs).
    cbn [f_content mkFile] in *.
    assert (E : text_eqb (manual_text marked_page) marked_page = true)
      by (vm_compute; reflexivity).
    rewrite E in Hb, Hwr, Hfs. cbn [negb] in Hb. subst b.
    exists w'. split; [exact Hrun|].
    split; [now apply text_eqb_eq|].
    split; [exact Hwr | exact Hfs].
Defined.

(** ** Handlers that return *)

Lemma try_except_total {A} (m : io A) (h : exn -> io A) :
  (forall e w, exists a w', h e w = (Ok a, w')) ->
  forall w, exists a w', try_except m h w = (Ok a, w').
Proof.
  intros Hh w. unfold try_except. destruct (m w) as [[a|e] w']; eauto.
Qed.

Lemma component_process_file_total (p : string) (w : world) :
  exists b w', AddToggleComponent.process_file p w = (Ok b, w').
Proof.
  apply try_except_total. intros e w0. eexists _, _. reflexivity.
Qed.

(** C2 (what the code does).  The keys of [CLASS_MAPPINGS] have no word
    boundary, so a dark variant that was appended can complete a base
    class with the text behind it: on the first run [text-gray-900] gets
    its variant, whose tail [te] and the following [xt-gray-600] read as
    [text-gray-600] on the second run, which appends again. *)
Theorem dark_class_appended_again_on_second_run :
  AddDarkMode.add_dark_mode_classes (lit "text-gray-900xt-gray-600")
  = (lit "text-gray-900 dark:text-whitext-gray-600", true)
  /\ AddDarkMode.add_dark_mode_classes
       (lit "text-gray-900 dark:text-whitext-gray-600")
     = (lit "text-gray-900 dark:text-whitext-gray-600 dark:text-gray-300",
        true).
Proof. split; vm_compute; reflexivity. Qed.

(** For the same reason a longer class is cut in two. *)
Lemma longer_class_is_cut :
  AddDarkMode.add_dark_mode_classes (lit "bg-gray-500")
  = (lit "bg-gray-50 dark:bg-gray-9000", true).
Proof. vm_compute. reflexivity. Qed.

(** On a plain class list the step appends once and then rests. *)
Lemma plain_class_appended_once :
  AddDarkMode.add_dark_mode_classes (lit "p-4 bg-white text-gray-900")
  = (lit "p-4 bg-white dark:bg-gray-800 text-gray-900 dark:text-white", true)
  /\ AddDarkMode.add_dark_mode_classes
       (lit "p-4 bg-white dark:bg-gray-800 text-gray-900 dark:text-white")
     = (lit "p-4 bg-white dark:bg-gray-800 text-gray-900 dark:text-white",
        false).
Proof. split; vm_compute; reflexivity. Qed.

(** ** Running a script twice *)

Lemma contains_tag_head (b : text) :
  contains toggle_open (lit "<DarkModeToggle />" ++ b) = true.
Proof. apply contains_app_l. reflexivity. Qed.

(** Proves that a text built around the toggle holds the marker. *)
Ltac has_tag :=
  rewrite <- ?app_assoc;
  repeat first [ apply contains_tag_head | apply contains_app_r ].

Lemma generic_marks (c c' : text) :
  AddToggleFinal.add_toggle_generic c = (c', true) ->
  contains toggle_open c' = true.
Proof.
  unfold AddToggleFinal.add_toggle_generic.
  destruct (find _ _) as [m|].
  { intros H. injection H as <-. unfold AddToggleFinal.wrap12. has_tag. }
  destruct (find _ _) as [m|].
  { intros H. injection H as <-. unfold AddToggleFinal.wrap12. has_tag. }
  destruct (re_search _ _) as [m|]; [|discriminate].
  destruct (AddToggleFinal.ok3 c m); [|discriminate].
  intros H. injection H as <-. unfold AddToggleFinal.wrap3. has_tag.
Qed.

Lemma final_process_file_fs (p : string) (w : world) :
  fs (snd (AddToggleFinal.process_file p w)) = final_fs_after p (fs w).
Proof.
  unfold AddToggleFinal.process_file, try_except, final_fs_after.
  destruct (fs w !! p) as [f|] eqn:Hf.
  - destruct (f_readable f) eqn:Hr.
    + run_read Hf Hr. unfold final_patch.
      destruct (contains toggle_open (f_content f));
        [now destruct (f_writable f)|].
      destruct (contains (lit "import DarkModeToggle") (f_content f));
        cbn [negb]; [|now destruct (f_writable f)].
      destruct (AddToggleFinal.add_toggle_generic (f_content f))
        as [c' []].
      * destruct (f_writable f) eqn:Hw.
        { run_write Hf Hw. cbn. now rewrite Hr. }
        { erewrite bind_raised
            by (eapply write_text_denied; [exact Hf | exact Hw]).
          reflexivity. }
      * now destruct (f_writable f).
    + erewrite bind_raised
        by (eapply read_text_denied; [exact Hf | exact Hr]).
      reflexivity.
  - erewrite bind_raised by (eapply read_text_missing; exact Hf).
    reflexivity.
Qed.

Lemma final_patch_once (c c' : text) :
  final_patch c = Some c' -> final_patch c' = None.
Proof.
  unfold final_patch at 1.
  destruct (contains toggle_open c); [discriminate|].
  destruct (negb _); [discriminate|].
  destruct (AddToggleFinal.add_toggle_generic c) as [c1 []] eqn:E;
    [|discriminate].
  intros H. injection H as <-. apply generic_marks in E.
  unfold final_patch. now rewrite E.
Qed.

Lemma final_fs_after_twice (p : string) (m : gmap string file) :
  final_fs_after p (final_fs_after p m) = final_fs_after p m.
Proof.
  unfold final_fs_after at 2 3.
  destruct (m !! p) as [f|] eqn:Hf.
  - destruct (f_readable f && f_writable f) eqn:Hrw.
    + destruct (final_patch (f_content f)) as [c'|] eqn:Hp.
      * unfold final_fs_after. rewrite lookup_insert_eq.
        cbn [f_readable f_writable f_content f_access mkFile andb].
        now rewrite (final_patch_once _ _ Hp).
      * unfold final_fs_after. now rewrite Hf, Hrw, Hp.
    + unfold final_fs_after. now rewrite Hf, Hrw.
  - unfold final_fs_after. now rewrite Hf.
Qed.

Lemma final_marked_untouched (p : string) (w : world) (f : file) :
  fs w !! p = Some f -> contains toggle_open (f_content f) = true ->
  fs (snd (AddToggleFinal.process_file p w)) = fs w
  /\ writes (trace (snd (AddToggleFinal.process_file p w)))
     = writes (trace w).
Proof.
  intros Hf Hm. unfold AddToggleFinal.process_file, try_except.
  destruct (f_readable f) eqn:Hr.
  - run_read Hf Hr. rewrite Hm. cbn [snd ret fs trace].
    rewrite writes_app. simpl. now rewrite app_nil_r.
  - erewrite bind_raised
      by (eapply read_text_denied; [exact Hf | exact Hr]).
    unfold bind, print, log, ret. cbn [snd fs trace].
    rewrite !writes_app. simpl. now rewrite !app_nil_r.
Qed.

(** C3 (as amended).  The whole-file step of add_toggle_final.py leaves
    the same files when run twice as when run once, and leaves a file
    that holds the marker as it is, writing nothing.  In add_dark_mode.py
    each step has a marker of its own: the import step returns a text
    that holds the word DarkModeToggle unchanged, the toggle step returns
    a text that holds the toggle tag unchanged; the class step has no
    such test and still rewrites a marked text. *)
Theorem final_pass_twice_is_once :
  (forall p w,
      fs (snd (AddToggleFinal.process_file p
                 (snd (AddToggleFinal.process_file p w))))
      = fs (snd (AddToggleFinal.process_file p w)))
  /\ (forall p w f,
      fs w !! p = Some f -> contains toggle_open (f_content f) = true ->
      fs (snd (AddToggleFinal.process_file p w)) = fs w
      /\ writes (trace (snd (AddToggleFinal.process_file p w)))
         = writes (trace w))
  /\ (forall content p,
      contains (lit "DarkModeToggle") content = true ->
      AddDarkMode.add_import content p = (content, false))
  /\ (forall content p,
      contains toggle_tag content = true ->
      AddDarkMode.add_dark_mode_toggle content p = (content, false)).
Proof.
  split; [|split; [|split]].
  - intros p w. rewrite !final_process_file_fs. apply final_fs_after_twice.
  - exact final_marked_untouched.
  - intros content p H. unfold AddDarkMode.add_import. now rewrite H.
  - intros content p H. unfold AddDarkMode.add_dark_mode_toggle.
    now rewrite H.
Qed.

Lemma final_pass_twice_is_once_witness :
  (contains toggle_open marked_page = true
   /\ fs (snd (AddToggleFinal.process_file login world_marked))
      = fs world_marked)
  /\ (contains (lit "DarkModeToggle") marked_page = true
      /\ AddDarkMode.add_import marked_page login = (marked_page, false))
  /\ (contains toggle_tag marked_page = true
      /\ AddDarkMode.add_dark_mode_toggle marked_page login
         = (marked_page, false)).
Proof.
  destruct final_pass_twice_is_once as (_ & H2 & H3 & H4).
  split; [|split].
  - split; [reflexivity|].
    apply (H2 login world_marked (mkFile marked_page true true));
      reflexivity.
  - split; [reflexivity|]. apply H3. reflexivity.
  - split; [reflexivity|]. apply H4. reflexivity.
Defined.

(** The text of [marked_page] holds every marker of add_dark_mode.py, and
    the whole-file step of that script still changes it. *)
Lemma marked_page_is_rewritten :
  contains toggle_tag marked_page = true
  /\ contains (lit "DarkModeToggle") marked_page = true
  /\ fst (AddDarkMode.transform marked_page login) <> marked_page
  /\ exists w',
      AddDarkMode.process_file login world_marked = (Ok true, w')
      /\ writes (trace w')
         = [(login,
             lit "import DarkModeToggle from '../components/DarkModeToggle';"
                 ++ [nl] ++ lit "<DarkModeToggle /><p className=" ++ [dq]
                 ++ lit "bg-white dark:bg-gray-800" ++ [dq] ++ lit "/>")].
Proof.
  split; [reflexivity|]. split; [reflexivity|]. split.
  - vm_compute. discriminate.
  - eexists. split; vm_compute; reflexivity.
Qed.

(** ** Missing files and failing files *)

Lemma exists_missing (p : string) (w : world) :
  fs w !! p = None -> exists_ p w = (Ok false, w).
Proof. intros H. unfold exists_. now rewrite H. Qed.

Lemma exists_present (p : string) (w : world) (f : file) :
  fs w !! p = Some f -> f_stat f = true -> exists_ p w = (Ok true, w).
Proof. intros Hf Hs. unfold exists_. now rewrite Hf, Hs. Qed.


Lemma writable_stat (f : file) : f_writable f = true -> f_stat f = true.
Proof. unfold f_writable, f_stat. now destruct (f_access f). Qed.

Lemma stat_ok_insert (m : gmap string file) (p q : string) (c : text)
      (r w : bool) :
  stat_ok m q -> stat_ok (<[p := mkFile c r w]> m) q.
Proof.
  intros H f. destruct (decide (p = q)) as [->|Hne].
  - rewrite lookup_insert_eq. intros [= <-]. reflexivity.
  - rewrite lookup_insert_ne by exact Hne. apply H.
Qed.

Lemma read_attempted_app (p : string) (a b : list event) :
  read_attempted p (a ++ b) = read_attempted p a || read_attempted p b.
Proof. unfold read_attempted. apply existsb_app. Qed.

Lemma read_attempted_here (p : string) (t : list event) :
  read_attempted p (EvRead p :: t) = true.
Proof.
  unfold read_attempted. simpl. now rewrite bool_decide_eq_true_2.
Qed.

(** A loop of such steps returns when [exists()] raises for none of its
    files, and has tried to read every file of the list that exists. *)
Lemma for_each_reads_all {S} (key : string -> option string)
      (step : string -> S -> io S) :
  (forall x st w,
      (forall p, key x = Some p -> stat_ok (fs w) p) ->
      steps_on (step x st) (key x) w) ->
  forall files st w,
    (forall x p, In x files -> key x = Some p -> stat_ok (fs w) p) ->
    exists st' w' t,
      for_each files step st w = (Ok st', w')
      /\ trace w' = trace w ++ t
      /\ (forall q, is_Some (fs w !! q) -> is_Some (fs w' !! q))
      /\ (forall q, stat_ok (fs w) q -> stat_ok (fs w') q)
      /\ (forall x p, In x files -> key x = Some p -> is_Some (fs w !! p) ->
                      read_attempted p t = true).
Proof.
  intros Hstep files. induction files as [|x files IH]; intros st w Hs.
  - exists st, w, []. simpl. rewrite app_nil_r.
    repeat split; auto; intros y p Hy; destruct Hy.
  - destruct (Hstep x st w) as (st1 & w1 & t1 & H1 & Ht1 & Hd1 & Hk1 & Hr1).
    { intros p Hp. apply (Hs x p); [now left | exact Hp]. }
    destruct (IH st1 w1) as (st2 & w2 & t2 & H2 & Ht2 & Hd2 & Hk2 & Hr2).
    { intros y p Hy Hp. apply Hk1. apply (Hs y p); [now right | exact Hp]. }
    exists st2, w2, (t1 ++ t2). simpl.
    erewrite bind_run by exact H1. split; [exact H2|].
    split; [now rewrite Ht2, Ht1, app_assoc|].
    split; [auto|]. split; [auto|].
    intros y q [<-|Hin] Hk Hq; rewrite read_attempted_app.
    + rewrite (Hr1 q Hk Hq). reflexivity.
    + rewrite (Hr2 y q Hin Hk) by auto. apply orb_true_r.
Qed.

(** Closes the side conditions of [runs_on] for an explicit final world. *)
Ltac world_facts :=
  cbn [fs trace];
  split; [rewrite <- ?app_assoc; reflexivity|];
  split;
  [ intros ? ?;
    try assumption;
    apply lookup_insert_is_Some';
    now right |];
  split;
  [ intros ? ?;
    try assumption;
    apply stat_ok_insert;
    assumption
  | rewrite <- ?app_assoc; cbn [app];
    repeat first [ apply read_attempted_here
                 | rewrite read_attempted_app;
                   (apply orb_true_iff; right) ] ].

(** Finishes a branch of a run: the final world is read off the goal. *)
Ltac finish_run :=
  unfold bind, print, log, ret; cbn [fs trace];
  eexists _, _, _; split; [reflexivity|]; world_facts.

Lemma final_process_file_runs (p : string) (w : world) :
  runs_on (AddToggleFinal.process_file p) p w.
Proof.
  unfold runs_on, AddToggleFinal.process_file, try_except.
  destruct (fs w !! p) as [f|] eqn:Hf.
  - destruct (f_readable f) eqn:Hr.
    + run_read Hf Hr.
      destruct (contains toggle_open (f_content f)); [finish_run|].
      destruct (negb _); [finish_run|].
      destruct (AddToggleFinal.add_toggle_generic (f_content f))
        as [c' []]; [|finish_run].
      destruct (f_writable f) eqn:Hw.
      * run_write Hf Hw. finish_run.
      * erewrite bind_raised
          by (eapply write_text_denied; [exact Hf | exact Hw]).
        finish_run.
    + erewrite bind_raised
        by (eapply read_text_denied; [exact Hf | exact Hr]).
      finish_run.
  - erewrite bind_raised by (eapply read_text_missing; exact Hf).
    finish_run.
Qed.

Lemma component_process_file_runs (p : string) (w : world) :
  runs_on (AddToggleComponent.process_file p) p w.
Proof.
  unfold runs_on, AddToggleComponent.process_file, try_except.
  destruct (fs w !! p) as [f|] eqn:Hf.
  - destruct (f_readable f) eqn:Hr.
    + run_read Hf Hr.
      destruct (contains toggle_open (f_content f)); [finish_run|].
      destruct (negb _); [finish_run|].
      destruct (if contains (lit "auth") (lit p)
                then AddToggleComponent.add_toggle_to_auth_page (f_content f)
                else AddToggleComponent.add_toggle_to_standard_page
                       (f_content f))
        as [c' []]; [|finish_run].
      destruct (f_writable f) eqn:Hw.
      * run_write Hf Hw. finish_run.
      * erewrite bind_raised
          by (eapply write_text_denied; [exact Hf | exact Hw]).
        finish_run.
    + erewrite bind_raised
        by (eapply read_text_denied; [exact Hf | exact Hr]).
      finish_run.
  - erewrite bind_raised by (eapply read_text_missing; exact Hf).
    finish_run.
Qed.

Lemma dark_mode_process_file_runs (p : string) (w : world) :
  runs_on (AddDarkMode.process_file p) p w.
Proof.
  unfold runs_on, AddDarkMode.process_file. run_print. unfold try_except.
  destruct (fs w !! p) as [f|] eqn:Hf.
  - destruct (f_readable f) eqn:Hr.
    + run_read Hf Hr.
      destruct (AddDarkMode.transform (f_content f) p) as [c' ch].
      destruct (negb _); [|finish_run].
      destruct (f_writable f) eqn:Hw.
      * run_write Hf Hw. finish_run.
      * erewrite bind_raised
          by (eapply write_text_denied; [exact Hf | exact Hw]).
        finish_run.
    + erewrite bind_raised
        by (eapply read_text_denied; [exact Hf | exact Hr]).
      finish_run.
  - erewrite bind_raised by (eapply read_text_missing; exact Hf).
    finish_run.
Qed.

Lemma runs_then {A B} (m : io A) (f : A -> io B) (p : string) (w : world) :
  runs_on m p w ->
  (forall a w', exists b, f a w' = (Ok b, w')) ->
  steps_on (bind m f) (Some p) w.
Proof.
  intros (a & w' & t & Hm & Ht & Hd & Hk & Hr) Hf.
  destruct (Hf a w') as (b & Hb).
  exists b, w', t. erewrite bind_run by exact Hm.
  split; [exact Hb|]. split; [exact Ht|]. split; [exact Hd|].
  split; [exact Hk|].
  intros q Hq _. injection Hq as <-. exact Hr.
Qed.

Lemma component_file_step_steps (p : string) (st : nat * nat) (w : world) :
  stat_ok (fs w) p ->
  steps_on (AddToggleComponent.file_step p st) (Some p) w.
Proof.
  intros Hs. unfold steps_on, AddToggleComponent.file_step.
  destruct st as [mc nc].
  destruct (fs w !! p) as [f|] eqn:Hf.
  - erewrite bind_run
      by (eapply exists_present; [exact Hf | exact (Hs f Hf)]).
    cbv beta iota. eapply runs_then; [apply component_process_file_runs|].
    intros [] w'; eexists; reflexivity.
  - erewrite bind_run by (apply exists_missing; exact Hf). cbv beta iota.
    unfold bind, print, log, ret. cbn [fs trace].
    eexists _, _, _. split; [reflexivity|]. cbn [fs trace].
    split; [reflexivity|]. split; [auto|]. split; [auto|].
    intros q Hq [? Hq']. injection Hq as <-. congruence.
Qed.

Lemma final_file_step_steps (p : string) (n : nat) (w : world) :
  stat_ok (fs w) p ->
  steps_on (AddToggleFinal.file_step p n) (Some p) w.
Proof.
  intros Hs. unfold steps_on, AddToggleFinal.file_step.
  destruct (fs w !! p) as [f|] eqn:Hf.
  - erewrite bind_run
      by (eapply exists_present; [exact Hf | exact (Hs f Hf)]).
    cbv beta iota. eapply runs_then; [apply final_process_file_runs|].
    intros [] w'; eexists; reflexivity.
  - erewrite bind_run by (apply exists_missing; exact Hf). cbv beta iota.
    exists n, w, []. rewrite app_nil_r. split; [reflexivity|].
    split; [reflexivity|]. split; [auto|]. split; [auto|].
    intros q Hq [? Hq']. injection Hq as <-. congruence.
Qed.

Lemma dark_mode_file_step_steps (name : string) (st : nat * nat) (w : world) :
  (forall p, dark_mode_path name = Some p -> stat_ok (fs w) p) ->
  steps_on (AddDarkMode.file_step name st) (dark_mode_path name) w.
Proof.
  unfold steps_on, AddDarkMode.file_step, dark_mode_path.
  destruct st as [tc mc].
  cbv zeta. destruct (bool_decide _); intros Hs.
  - unfold bind, print, log, ret. cbn [fs trace].
    eexists _, _, _. split; [reflexivity|]. cbn [fs trace].
    split; [reflexivity|]. split; [auto|]. split; [auto|]. discriminate.
  - specialize (Hs _ eq_refl).
    set (path := AddDarkMode.joinpath AddDarkMode.base_dir name) in *.
    destruct (fs w !! path) as [f|] eqn:Hf.
    + erewrite bind_run
        by (eapply exists_present; [exact Hf | exact (Hs f Hf)]).
      cbv beta iota. eapply runs_then; [apply dark_mode_process_file_runs|].
      intros [] w'; eexists; reflexivity.
    + erewrite bind_run by (apply exists_missing; exact Hf). cbv beta iota.
      unfold bind, print, log, ret. cbn [fs trace].
      eexists _, _, _. split; [reflexivity|]. cbn [fs trace].
      split; [reflexivity|]. split; [auto|]. split; [auto|].
      intros q Hq [? Hq']. injection Hq as <-. congruence.
Qed.




Lemma for_each_total {A S} (I : world -> Prop) (body : A -> S -> io S)
      (xs : list A) :
  (forall x s w,
      In x xs -> I w -> exists s' w', body x s w = (Ok s', w') /\ I w') ->
  forall s w, I w -> exists s' w', for_each xs body s w = (Ok s', w') /\ I w'.
Proof.
  induction xs as [|x xs IH]; intros Hb s w Hi; simpl.
  - eexists _, _. split; [reflexivity | exact Hi].
  - destruct (Hb x s w (or_introl eq_refl) Hi) as (s1 & w1 & H1 & Hi1).
    erewrite bind_run by exact H1. apply IH; [|exact Hi1].
    intros y s0 w0 Hy. apply Hb. now right.
Qed.

Lemma for_each_steps_total {S} (key : string -> option string)
      (step : string -> S -> io S) :
  (forall x st w,
      (forall p, key x = Some p -> stat_ok (fs w) p) ->
      steps_on (step x st) (key x) w) ->
  forall files st w,
    (forall x p, In x files -> key x = Some p -> stat_ok (fs w) p) ->
    exists st' w',
      for_each files step st w = (Ok st', w')
      /\ (forall q, stat_ok (fs w) q -> stat_ok (fs w') q).
Proof.
  intros Hstep files st w Hs.
  destruct (for_each_reads_all key step Hstep files st w Hs)
    as (st' & w' & t & H & _ & _ & Hk & _).
  eauto.
Qed.

(** The steps of the loops, in the form the loop lemmas take them. *)
Lemma component_step_keyed (x : string) (st : nat * nat) (w : world) :
  (forall p, Some x = Some p -> stat_ok (fs w) p) ->
  steps_on (AddToggleComponent.file_step x st) (Some x) w.
Proof. intros H. apply component_file_step_steps, H. reflexivity. Qed.

Lemma final_step_keyed (x : string) (n : nat) (w : world) :
  (forall p, Some x = Some p -> stat_ok (fs w) p) ->
  steps_on (AddToggleFinal.file_step x n) (Some x) w.
Proof. intros H. apply final_file_step_steps, H. reflexivity. Qed.

Lemma listed_stat_keyed (fl : list string) (m : gmap string file) :
  listed_stat fl m ->
  forall x p, In x fl -> Some x = Some p -> stat_ok m p.
Proof. intros H x p Hx [= <-]. exact (H x Hx). Qed.

Lemma dark_mode_path_listed (pages : list (string * list string))
      (cat : string * list string) (name p : string) :
  In cat pages -> In name (snd cat) -> dark_mode_path name = Some p ->
  In p (dark_mode_files pages).
Proof.
  intros Hcat Hname Hp. unfold dark_mode_path in Hp. cbv zeta in Hp.
  destruct (bool_decide _); [discriminate|]. injection Hp as <-.
  unfold dark_mode_files. apply in_map. apply in_concat.
  exists (snd cat). split; [now apply in_map | exact Hname].
Qed.

Lemma dark_mode_pages_total (pages : list (string * list string))
      (s : nat * nat) (w : world) :
  listed_stat (dark_mode_files pages) (fs w) ->
  exists s' w', for_each pages AddDarkMode.category_step s w = (Ok s', w').
Proof.
  intros H.
  destruct (for_each_total
              (fun w0 => listed_stat (dark_mode_files pages) (fs w0))
              AddDarkMode.category_step pages) with (s := s) (w := w)
    as (s' & w' & Hrun & _); [|exact H|eauto].
  intros [cat names] s0 w0 Hin Hi.
  unfold AddDarkMode.category_step. do 3 run_print.
  match goal with |- context [for_each ?xs ?b ?s1 ?w1] =>
    destruct (for_each_steps_total dark_mode_path b
                dark_mode_file_step_steps xs s1 w1)
      as (s2 & w2 & H2 & Hk)
  end.
  - intros name p Hname Hp. cbn [fs]. apply Hi.
    exact (dark_mode_path_listed pages (cat, names) name p Hin Hname Hp).
  - exists s2, w2. split; [exact H2|].
    intros p Hp. apply Hk. cbn [fs]. apply Hi, Hp.
Qed.


















(** ** The manual counter of add_toggle_component.py *)

Lemma component_file_step_manual (p : string) (n : nat) (w : world)
      (st : nat * nat) (w' : world) :
  AddToggleComponent.file_step p (n, 0) w = (Ok st, w') -> snd st = 0.
Proof.
  unfold AddToggleComponent.file_step.
  destruct (fs w !! p) as [f|] eqn:Hf.
  - destruct (f_stat f) eqn:Hs.
    + erewrite bind_run by (eapply exists_present; [exact Hf | exact Hs]).
      cbv beta iota.
      destruct (component_process_file_total p w) as (b & w1 & Hb).
      erewrite bind_run by exact Hb. cbv beta.
      destruct b; intros [= <- _]; reflexivity.
    + erewrite bind_raised by (eapply exists_denied; [exact Hf | exact Hs]).
      discriminate.
  - erewrite bind_run by (apply exists_missing; exact Hf). cbv beta iota.
    unfold bind, print, log, ret. intros [= <- _]. reflexivity.
Qed.

Lemma component_loop_manual (files : list string) :
  forall n w st w',
    for_each files AddToggleComponent.file_step (n, 0) w = (Ok st, w') ->
    snd st = 0.
Proof.
  induction files as [|p files IH]; intros n w st w'; cbn [for_each].
  - intros [= <- _]. reflexivity.
  - unfold bind at 1.
    destruct (AddToggleComponent.file_step p (n, 0) w)
      as [[[n1 k1]|e] w1] eqn:E1; [|discriminate].
    apply component_file_step_manual in E1. cbn [snd] in E1. subst k1.
    apply IH.
Qed.

(** C5 (what the code does).  Whatever the files and the world, the loop
    of add_toggle_component.py never ends with another [manual_count]
    than 0: [result] is a boolean, so [str(result)] never holds the
    MANUAL tag.  When [exists()] raises for no file of the list, the loop
    and [main] do end, and the summary never has the line that reports
    files in need of manual intervention. *)
Theorem manual_count_stays_zero (files : list string) (w : world) :
  (forall st w1,
      for_each files AddToggleComponent.file_step (0, 0) w = (Ok st, w1) ->
      snd st = 0)
  /\ (listed_stat files (fs w) ->
      exists n w1,
        for_each files AddToggleComponent.file_step (0, 0)
                 (mkWorld (fs w)
                    (trace w ++ [EvPrint rule60;
                                 EvPrint (lit "Adding DarkModeToggle Component to Pages");
                                 EvPrint rule60]))
        = (Ok (n, 0), w1)
        /\ AddToggleComponent.main_on files w
           = (Ok tt,
              mkWorld (fs w1)
                      (trace w1 ++ [EvPrint ([nl] ++ rule60);
                                    EvPrint (lit "Summary: Modified "
                                                 ++ str_nat n
                                                 ++ lit " files");
                                    EvPrint rule60]))).
Proof.
  split; [intros st w1; apply component_loop_manual|].
  intros Hs.
  destruct (for_each_steps_total Some AddToggleComponent.file_step
              component_step_keyed files (0, 0)
              (mkWorld (fs w)
                 (trace w ++ [EvPrint rule60;
                              EvPrint (lit "Adding DarkModeToggle Component to Pages");
                              EvPrint rule60]))
              (listed_stat_keyed _ _ Hs))
    as ([n k] & w1 & H & _).
  pose proof (component_loop_manual _ _ _ _ _ H) as Hk. cbn [snd] in Hk.
  subst k. exists n, w1. split; [exact H|].
  unfold AddToggleComponent.main_on. do 3 run_print. cbn [fs trace].
  rewrite <- !app_assoc. cbn [app].
  erewrite bind_run by exact H. cbv beta.
  unfold AddToggleComponent.summary. do 2 run_print.
  cbn [Nat.ltb Nat.leb]. unfold bind, ret, print, log. cbn [fs trace].
  rewrite <- !app_assoc. reflexivity.
Qed.

Lemma manual_count_stays_zero_witness :
  listed_stat [checkout] (fs world_without_anchor)
  /\ exists n w1,
      for_each [checkout] AddToggleComponent.file_step (0, 0)
               (mkWorld (fs world_without_anchor)
                  (trace world_without_anchor
                     ++ [EvPrint rule60;
                         EvPrint (lit "Adding DarkModeToggle Component to Pages");
                         EvPrint rule60]))
      = (Ok (n, 0), w1)
      /\ AddToggleComponent.main_on [checkout] world_without_anchor
         = (Ok tt,
            mkWorld (fs w1)
                    (trace w1 ++ [EvPrint ([nl] ++ rule60);
                                  EvPrint (lit "Summary: Modified "
                                               ++ str_nat n
                                               ++ lit " files");
                                  EvPrint rule60])).
Proof.
  assert (Hs : listed_stat [checkout] (fs world_without_anchor)).
  { intros p [<-|[]] f Hf; vm_compute in Hf; injection Hf as <-;
      reflexivity. }
  split; [exact Hs|].
  exact (proj2 (manual_count_stays_zero [checkout] world_without_anchor) Hs).
Defined.

(** The page of [world_without_anchor] is reported as MANUAL, and no line
    of the run counts it. *)
Lemma manual_file_not_counted :
  let tr := trace (snd (AddToggleComponent.main world_without_anchor)) in
  printed (lit "[MANUAL] " ++ lit checkout
               ++ lit " - Needs manual intervention") tr = true
  /\ forallb (fun e => match e with
                       | EvPrint l =>
                           negb (contains (lit "need manual intervention") l)
                       | _ => true
                       end) tr = true
  /\ printed (lit "Summary: Modified 0 files") tr = true.
Proof.
  vm_compute. auto.
Qed.

(** A logout button that has no flex container before it is no anchor of
    add_dark_mode.py: the button is found, the container is not, and the
    text comes back unchanged. *)
Lemma logout_button_without_container :
  let page := lit "<nav><button onClick={handleLogout}>Logout</button></nav>" in
  re_search AddDarkMode.logout_pattern page <> None
  /\ AddDarkMode.add_dark_mode_toggle page login = (page, false).
Proof. split; [vm_compute; discriminate | vm_compute; reflexivity]. Qed.

(** * Further properties of the scripts *)

(** ** All the matches of a pattern *)

Lemma chain_weaken (r : regex) (content : text) (cur cur' : nat)
      (ms : list rmatch) :
  cur' <= cur -> chain r content cur ms -> chain r content cur' ms.
Proof.
  destruct ms as [|m ms]; [auto|]. simpl.
  intros Hle (H1 & H2). split; [lia | exact H2].
Qed.

(** [re.finditer] yields matches of the pattern, in order and without
    overlap. *)
Lemma scan_chain (r : regex) (l : text) :
  forall pre i skip,
    length pre = i -> skip <= length l ->
    chain r (pre ++ l) (i + skip) (scan r l i skip).
Proof.
  induction l as [|c l IH]; intros pre i skip Hi Hskip.
  - simpl in Hskip. assert (skip = 0) by lia. subst skip. simpl.
    destruct (match_here r [] i false) as [m|] eqn:E; [|exact I].
    apply match_here_sound in E as (mt & post & Hl & Hs & He & A).
    symmetry in Hl. apply app_eq_nil in Hl as [-> ->]. simpl in He.
    simpl. rewrite app_nil_r, Hs, He, Hi.
    repeat split; try lia.
    unfold slice. replace (i + 0 - i) with 0 by lia. exact A.
  - assert (Hc : pre ++ c :: l = (pre ++ [c]) ++ l)
      by now rewrite <- app_assoc.
    assert (Hlen : length (pre ++ [c]) = S i)
      by (rewrite length_app; simpl; lia).
    destruct skip as [|s].
    + cbn [scan].
      destruct (match_here r (c :: l) i false) as [m|] eqn:E.
      * pose proof E as E0.
        apply match_here_sound in E as (mt & post & Hl & Hs & He & A).
        assert (Hslice : slice (pre ++ c :: l) (m_start m) (m_end m) = mt).
        { rewrite Hl, Hs, He, <- Hi. apply slice_mid. }
        assert (Hend : m_end m <= length (pre ++ c :: l)).
        { rewrite Hl, He, !length_app. lia. }
        assert (Hmt : length mt <= S (length l)).
        { apply (f_equal (@length ascii)) in Hl.
          rewrite length_app in Hl. simpl in Hl. lia. }
        destruct (m_end m =? i) eqn:Eend.
        { apply Nat.eqb_eq in Eend.
          destruct (match_here r (c :: l) i true) as [m2|] eqn:E2.
          - apply match_here_sound in E2
              as (mt2 & post2 & Hl2 & Hs2 & He2 & A2).
            assert (Hmt2 : length mt2 <= S (length l)).
            { apply (f_equal (@length ascii)) in Hl2.
              rewrite length_app in Hl2. simpl in Hl2. lia. }
            cbn [chain]. rewrite Hslice.
            split; [lia|]. split; [lia|]. split; [exact Hend|].
            split; [rewrite Hs; exact A|].
            split; [lia|]. split; [lia|].
            split; [rewrite Hl2, He2, !length_app; lia|].
            split.
            { assert (Hslice2 :
                slice (pre ++ c :: l) (m_start m2) (m_end m2) = mt2)
                by (rewrite Hl2, Hs2, He2, <- Hi; apply slice_mid).
              rewrite Hslice2, Hs2. exact A2. }
            rewrite Hc. apply chain_weaken with (S i + (m_end m2 - i - 1));
              [lia|].
            apply IH; [exact Hlen | lia].
          - cbn [chain]. rewrite Hslice.
            split; [lia|]. split; [lia|]. split; [exact Hend|].
            split; [rewrite Hs; exact A|].
            rewrite Hc. apply chain_weaken with (S i + 0); [lia|].
            apply IH; [exact Hlen | lia]. }
        { apply Nat.eqb_neq in Eend. cbn [chain]. rewrite Hslice.
          split; [lia|]. split; [lia|]. split; [exact Hend|].
          split; [rewrite Hs; exact A|].
          rewrite Hc. apply chain_weaken with (S i + (m_end m - i - 1));
            [lia|].
          apply IH; [exact Hlen | lia]. }
      * rewrite Hc. apply chain_weaken with (S i + 0); [lia|].
        apply IH; [exact Hlen | lia].
    + cbn [scan]. rewrite Hc.
      replace (i + S s) with (S i + s) by lia.
      apply IH; [exact Hlen | simpl in Hskip; lia].
Qed.

Lemma finditer_chain (r : regex) (content : text) :
  chain r content 0 (re_finditer r content).
Proof.
  unfold re_finditer. apply (scan_chain r content [] 0 0); [reflexivity|lia].
Qed.

(** ** The class step only appends *)

Lemma skipn_slice (t : text) (a b : nat) :
  a <= b -> skipn a t = slice t a b ++ skipn b t.
Proof.
  intros H. unfold slice.
  replace b with ((b - a) + a) at 2 by lia.
  rewrite <- skipn_skipn. symmetry. apply firstn_skipn.
Qed.

Lemma sublist_same_length (l1 l2 : text) :
  l1 `sublist_of` l2 -> length l2 <= length l1 -> l1 = l2.
Proof.
  induction 1 as [|x l1 l2 H IH|x l1 l2 H IH]; simpl; intros Hlen.
  - reflexivity.
  - f_equal. apply IH. lia.
  - apply sublist_length in H. lia.
Qed.

(** [re.sub] keeps every character of the text when the replacement
    starts with the text that was matched. *)
Lemma splice_sublist (r : regex) (content repl : text) :
  (forall mt i g g', accepts r mt i g g' -> exists suf, repl = mt ++ suf) ->
  forall ms cur,
    chain r content cur ms ->
    skipn cur content `sublist_of` splice content cur ms repl.
Proof.
  intros Hrepl ms. induction ms as [|m ms IH]; intros cur Hch; simpl.
  - reflexivity.
  - destruct Hch as (H1 & H2 & H3 & A & Hch).
    destruct (Hrepl _ _ _ _ A) as (suf & ->).
    rewrite (skipn_slice content cur (m_start m) H1).
    apply sublist_app; [reflexivity|].
    rewrite (skipn_slice content (m_start m) (m_end m) H2).
    rewrite <- app_assoc. apply sublist_app; [reflexivity|].
    apply sublist_inserts_l. now apply IH.
Qed.

Lemma re_sub_sublist (r : regex) (content repl : text) :
  (forall mt i g g', accepts r mt i g g' -> exists suf, repl = mt ++ suf) ->
  content `sublist_of` re_sub r repl content.
Proof.
  intros H. unfold re_sub.
  apply (splice_sublist r content repl H _ 0 (finditer_chain r content)).
Qed.

Lemma bare_accepts (base : string) (mt : text) (i : nat) (g g' : caps) :
  accepts (AddDarkMode.bare base) mt i g g' -> mt = lit base.
Proof.
  unfold AddDarkMode.bare.
  inversion 1 as [| | | |? ? m1 m2 ? ? ? ? A1 A2| | | |]; subst.
  inversion A1; subst. inversion A2; subst. apply app_nil_r.
Qed.

Lemma class_mappings_append : Forall appends AddDarkMode.CLASS_MAPPINGS.
Proof.
  unfold AddDarkMode.CLASS_MAPPINGS.
  repeat (apply Forall_cons; split;
          [eexists _, _; split; reflexivity|]).
  apply Forall_nil. exact I.
Qed.

Lemma class_step_grows (st : text * bool) (kv : regex * text) :
  appends kv ->
  fst st `sublist_of` fst (AddDarkMode.class_step st kv)
  /\ ((AddDarkMode.class_step st kv = st)
      \/ (snd (AddDarkMode.class_step st kv) = true
          /\ length (fst st) < length (fst (AddDarkMode.class_step st kv)))).
Proof.
  intros (base & suf & Hk & Hv). destruct st as [c b], kv as [pat repl].
  simpl in Hk, Hv. subst pat repl. unfold AddDarkMode.class_step.
  assert (Hsub : c `sublist_of`
                   re_sub (AddDarkMode.bare base) (lit base ++ suf) c).
  { apply re_sub_sublist. intros mt i g g' A.
    apply bare_accepts in A. subst mt. eauto. }
  destruct (text_eqb (re_sub (AddDarkMode.bare base) (lit base ++ suf) c) c)
    eqn:E; cbn [negb fst snd].
  - split; [reflexivity | now left].
  - split; [exact Hsub|]. right. split; [reflexivity|].
    apply text_eqb_neq in E.
    destruct (Nat.lt_ge_cases (length c)
                (length (re_sub (AddDarkMode.bare base)
                                (lit base ++ suf) c))) as [Hlt|Hge];
      [exact Hlt|].
    exfalso. apply E. symmetry. now apply sublist_same_length.
Qed.

Lemma class_fold_grows (kvs : list (regex * text)) :
  Forall appends kvs ->
  forall st,
    fst st `sublist_of` fst (fold_left AddDarkMode.class_step kvs st)
    /\ ((fold_left AddDarkMode.class_step kvs st = st)
        \/ (snd (fold_left AddDarkMode.class_step kvs st) = true
            /\ length (fst st)
               < length (fst (fold_left AddDarkMode.class_step kvs st)))).
Proof.
  induction 1 as [|kv kvs Hkv Hkvs IH]; intros st; simpl.
  - split; [reflexivity | now left].
  - destruct (class_step_grows st kv Hkv) as (Hs1 & Hc1).
    destruct (IH (AddDarkMode.class_step st kv)) as (Hs2 & Hc2).
    split; [etrans; eassumption|].
    destruct Hc1 as [Heq|(Hb1 & Hl1)].
    + rewrite Heq in *. exact Hc2.
    + right. destruct Hc2 as [Heq|(Hb2 & Hl2)].
      * rewrite Heq. split; [exact Hb1 | exact Hl1].
      * split; [exact Hb2 | lia].
Qed.

(** X1.  [add_dark_mode_classes] only puts text in: every character of
    the input is kept, in order, in the output; and the flag it returns
    is [True] exactly when the output differs from the input. *)
Theorem dark_classes_only_append (content : text) :
  content `sublist_of` fst (AddDarkMode.add_dark_mode_classes content)
  /\ (snd (AddDarkMode.add_dark_mode_classes content) = true
      <-> fst (AddDarkMode.add_dark_mode_classes content) <> content).
Proof.
  unfold AddDarkMode.add_dark_mode_classes.
  destruct (class_fold_grows _ class_mappings_append (content, false))
    as (Hsub & Hc).
  cbn [fst snd] in *. split; [exact Hsub|].
  destruct Hc as [Heq|(Hb & Hl)].
  - rewrite Heq. cbn [fst snd]. split; [discriminate | congruence].
  - split; [|intros _; exact Hb].
    intros _ E. rewrite E in Hl. lia.
Qed.

Lemma search_lit_none (s : text) (r2 : regex) (l : text) :
  contains s l = false ->
  forall i, search_from (Cat (Lit s) r2) l i = None.
Proof.
  induction l as [|c l IH]; intros H i; simpl in H;
    apply orb_false_iff in H as [Hs Hc]; cbn [search_from];
    unfold match_here; cbn [exec];
    apply strip_lit_starts in Hs; rewrite Hs; [reflexivity|].
  now apply IH.
Qed.

Lemma class_step_none (base : string) (repl c : text) (b : bool) :
  contains (lit base) c = false ->
  AddDarkMode.class_step (c, b) (AddDarkMode.bare base, repl) = (c, b).
Proof.
  intros H. unfold AddDarkMode.class_step, re_sub.
  rewrite finditer_none by (apply search_lit_none; exact H).
  cbn [splice skipn]. unfold text_eqb.
  now rewrite bool_decide_eq_true_2.
Qed.

(** X2.  A text in which no base class of the table occurs (the empty
    text, for one) comes back from [add_dark_mode_classes] unchanged, with
    [False]. *)
Theorem dark_classes_nothing_to_do (content : text) :
  (forall b, In b base_classes -> contains (lit b) content = false) ->
  AddDarkMode.add_dark_mode_classes content = (content, false).
Proof.
  intros H. unfold AddDarkMode.add_dark_mode_classes,
    AddDarkMode.CLASS_MAPPINGS.
  cbn [fold_left].
  repeat rewrite class_step_none
    by (apply H; unfold base_classes; simpl; tauto).
  reflexivity.
Qed.

Lemma dark_classes_nothing_to_do_witness :
  (forall b, In b base_classes -> contains (lit b) [] = false)
  /\ AddDarkMode.add_dark_mode_classes [] = ([], false)
  /\ AddDarkMode.add_dark_mode_classes page_without_anchor
     = (page_without_anchor, false).
Proof.
  split; [|split].
  - intros b Hb. unfold base_classes in Hb. simpl in Hb.
    repeat (destruct Hb as [<-|Hb]; [reflexivity|]). destruct Hb.
  - apply dark_classes_nothing_to_do.
    intros b Hb. unfold base_classes in Hb. simpl in Hb.
    repeat (destruct Hb as [<-|Hb]; [reflexivity|]). destruct Hb.
  - apply dark_classes_nothing_to_do.
    intros b Hb. unfold base_classes in Hb. simpl in Hb.
    repeat (destruct Hb as [<-|Hb]; [reflexivity|]). destruct Hb.
Defined.

(** ** Steps that rest after one run *)

(** X3.  [add_import] is idempotent: the text it returns holds the word
    DarkModeToggle, so a second call changes nothing and reports
    [False]. *)
Theorem add_import_twice (content : text) (file_path : string) :
  AddDarkMode.add_import
    (fst (AddDarkMode.add_import content file_path)) file_path
  = (fst (AddDarkMode.add_import content file_path), false).
Proof.
  unfold AddDarkMode.add_import at 2 3.
  destruct (contains (lit "DarkModeToggle") content) eqn:Hc.
  - cbn [fst]. unfold AddDarkMode.add_import. now rewrite Hc.
  - destruct (last (re_finditer AddDarkMode.import_pattern content))
      as [m|] eqn:El.
    + cbn [fst]. unfold AddDarkMode.add_import.
      rewrite contains_app_r; [reflexivity|].
      apply contains_app_r.
      change (lit "import DarkModeToggle from '")
        with (lit "import " ++ lit "DarkModeToggle" ++ lit " from '").
      rewrite <- !app_assoc. apply contains_mid.
    + cbn [fst]. unfold AddDarkMode.add_import. now rewrite Hc, El.
Qed.

Lemma contains_toggle_tag_head (b : text) :
  contains toggle_tag (lit "<DarkModeToggle />" ++ b) = true.
Proof. apply contains_app_l. reflexivity. Qed.

(** X4.  [add_dark_mode_toggle] is idempotent: the text it returns after
    an insertion holds the toggle tag, so a second call changes nothing
    and reports [False]. *)
Theorem add_dark_mode_toggle_twice (content : text) (file_path : string) :
  AddDarkMode.add_dark_mode_toggle
    (fst (AddDarkMode.add_dark_mode_toggle content file_path)) file_path
  = (fst (AddDarkMode.add_dark_mode_toggle content file_path), false).
Proof.
  assert (Hmark : forall c, contains toggle_tag c = true ->
            AddDarkMode.add_dark_mode_toggle c file_path = (c, false)).
  { intros c Hc. unfold AddDarkMode.add_dark_mode_toggle. now rewrite Hc. }
  unfold AddDarkMode.add_dark_mode_toggle at 2 3.
  destruct (contains toggle_tag content) eqn:Hc; [now apply Hmark|].
  destruct (re_search AddDarkMode.notification_pattern content)
    as [m|] eqn:E1.
  { cbn [fst]. apply Hmark. rewrite <- ?app_assoc.
    repeat first [ apply contains_toggle_tag_head | apply contains_app_r ]. }
  destruct (re_search AddDarkMode.logout_pattern content) as [lm|] eqn:E2.
  - destruct (re_search
                (AddDarkMode.container_pattern (fmt (group content lm 0)))
                content) as [cm|] eqn:E3.
    + cbn [fst]. apply Hmark. cbv zeta. rewrite <- ?app_assoc.
      repeat first [ apply contains_toggle_tag_head | apply contains_app_r ].
    + cbn [fst]. unfold AddDarkMode.add_dark_mode_toggle.
      now rewrite Hc, E1, E2, E3.
  - cbn [fst]. unfold AddDarkMode.add_dark_mode_toggle.
    now rewrite Hc, E1, E2.
Qed.

(** ** Where the import line goes *)

Lemma chain_In (r : regex) (content : text) (ms : list rmatch) :
  forall cur m,
    chain r content cur ms -> In m ms ->
    m_start m <= m_end m /\ m_end m <= length content
    /\ accepts r (slice content (m_start m) (m_end m)) (m_start m) []
               (m_caps m).
Proof.
  induction ms as [|m0 ms IH]; intros cur m Hch Hin; [destruct Hin|].
  destruct Hch as (H1 & H2 & H3 & A & Hch).
  destruct Hin as [<-|Hin]; [auto|]. eapply IH; eassumption.
Qed.

Lemma accepts_cat_suffix (r1 r2 : regex) (s m : text) (i : nat)
      (g g' : caps) :
  (forall m2 i2 g2 g2', accepts r2 m2 i2 g2 g2' -> exists x, m2 = x ++ s) ->
  accepts (Cat r1 r2) m i g g' -> exists x, m = x ++ s.
Proof.
  intros H2. inversion 1 as [| | | |? ? m1 m2 ? ? ? ? A1 A2| | | |]; subst.
  destruct (H2 _ _ _ _ A2) as (x & ->).
  exists (m1 ++ x). now rewrite app_assoc.
Qed.

Lemma import_match_ends_with_semicolon (m : text) (i : nat) (g g' : caps) :
  accepts AddDarkMode.import_pattern m i g g' -> exists x, m = x ++ lit ";".
Proof.
  unfold AddDarkMode.import_pattern. cbn [Seq].
  inversion 1 as [| | | | |? ? ? ? ? ? A| | |]; subst.
  revert A. repeat (apply accepts_cat_suffix; intros ? ? ? ?).
  intros A. apply accepts_lit in A. subst. now exists [].
Qed.

(** The matches that [re.finditer] yields stand from left to right. *)
Lemma chain_lower (r : regex) (content : text) (ms : list rmatch) :
  forall cur x, chain r content cur ms -> In x ms -> cur <= m_start x.
Proof.
  induction ms as [|m0 ms IH]; intros cur x Hch Hin; [destruct Hin|].
  destruct Hch as (H1 & H2 & _ & _ & Hch).
  destruct Hin as [<-|Hin]; [exact H1|].
  specialize (IH _ _ Hch Hin). lia.
Qed.

Lemma chain_split (r : regex) (content : text) (before : list rmatch)
      (m : rmatch) (after : list rmatch) :
  forall cur,
    chain r content cur (before ++ m :: after) ->
    (forall x, In x before -> m_end x <= m_start m)
    /\ (forall x, In x after -> m_end m <= m_start x).
Proof.
  induction before as [|b before IH]; intros cur Hch.
  - destruct Hch as (_ & _ & _ & _ & Hch). split; [intros x []|].
    intros x Hx. exact (chain_lower _ _ _ _ _ Hch Hx).
  - destruct Hch as (_ & _ & _ & _ & Hch).
    destruct (IH _ Hch) as (Hb & Ha). split; [|exact Ha].
    intros x [<-|Hx]; [|now apply Hb].
    apply (chain_lower _ _ _ _ _ Hch). apply in_or_app. right. now left.
Qed.

Lemma finditer_split (r : regex) (content : text) (before : list rmatch)
      (m : rmatch) (after : list rmatch) :
  re_finditer r content = before ++ m :: after ->
  (forall x, In x before -> m_end x <= m_start m)
  /\ (forall x, In x after -> m_end m <= m_start x).
Proof.
  intros E. apply (chain_split r content before m after 0).
  rewrite <- E. apply finditer_chain.
Qed.

Lemma import_match_shape (m : text) (i : nat) (g g' : caps) :
  accepts AddDarkMode.import_pattern m i g g' ->
  exists body, m = lit "import" ++ body ++ lit ";".
Proof.
  unfold AddDarkMode.import_pattern. cbn [Seq].
  inversion 1 as [| | | | |? ? ? ? ? ? A| | |]; subst.
  inversion A as [| | | |? ? m1 m2 ? ? ? ? A1 A2| | | |]; subst.
  apply accepts_lit in A1. subst m1.
  assert (Hend : exists x, m2 = x ++ lit ";").
  { revert A2. repeat (apply accepts_cat_suffix; intros ? ? ? ?).
    intros A3. apply accepts_lit in A3. subst. now exists []. }
  destruct Hend as (body & ->). now exists body.
Qed.

(** X5.  When [add_import] changes a text, it puts a newline and the
    import statement for [get_import_path(file_path)] right behind the
    last match of the import pattern, and changes nothing else.  The last
    match is the rightmost one (every other match ends before it starts),
    and its text begins with [import] and ends with a semicolon.  What
    stood behind that semicolon follows the new statement directly. *)
Theorem add_import_after_semicolon (content out : text)
        (file_path : string) :
  AddDarkMode.add_import content file_path = (out, true) ->
  exists ms m body,
    re_finditer AddDarkMode.import_pattern content = ms ++ [m]
    /\ (forall x, In x ms -> m_end x <= m_start m)
    /\ slice content (m_start m) (m_end m)
       = lit "import" ++ body ++ lit ";"
    /\ inserted content out (m_end m)
         ([nl] ++ lit "import DarkModeToggle from '"
               ++ AddDarkMode.get_import_path file_path ++ lit "';").
Proof.
  unfold AddDarkMode.add_import.
  destruct (contains (lit "DarkModeToggle") content); [discriminate|].
  destruct (last (re_finditer AddDarkMode.import_pattern content))
    as [m|] eqn:E; [|discriminate].
  intros H. injection H as <-.
  apply last_Some in E as [ms E].
  assert (Hin : In m (re_finditer AddDarkMode.import_pattern content))
    by (rewrite E; apply in_or_app; right; now left).
  destruct (chain_In _ _ _ 0 m (finditer_chain _ content) Hin)
    as (Hse & Hel & A).
  apply import_match_shape in A as (body & Hbody).
  exists ms, m, body. split; [exact E|].
  split; [exact (proj1 (finditer_split _ _ _ _ _ E))|].
  split; [exact Hbody|].
  split; [exact Hel|]. rewrite <- !app_assoc. reflexivity.
Qed.

Lemma add_import_after_semicolon_witness :
  let page := lit "import React from 'react';import A from 'a';x" in
  exists out m1 m,
    AddDarkMode.add_import page login = (out, true)
    /\ re_finditer AddDarkMode.import_pattern page = [m1; m]
    /\ m_end m1 <= m_start m
    /\ slice page (m_start m) (m_end m) = lit "import A from 'a';"
    /\ out = lit "import React from 'react';import A from 'a';"
               ++ [nl]
               ++ lit "import DarkModeToggle from '../components/DarkModeToggle';x".
Proof.
  intros page.
  destruct (AddDarkMode.add_import page login) as [out b] eqn:E.
  assert (Hb : b = true) by (vm_compute in E; now injection E as _ <-).
  subst b.
  destruct (add_import_after_semicolon _ _ _ E)
    as (ms & m & body & Hms & Hbefore & Hbody & Hp & Hout).
  destruct ms as [|m1 [|m2 [|m3 ms]]];
    try (exfalso; vm_compute in Hms; discriminate Hms).
  exists out, m1, m. split; [reflexivity|]. split; [exact Hms|].
  split; [apply Hbefore; now left|].
  assert (Hm : m = mkMatch 26 44 [(1, (26, 44))]).
  { vm_compute in Hms. now injection Hms as _ <-. }
  subst m. split; [vm_compute; reflexivity|].
  rewrite Hout. vm_compute. reflexivity.
Defined.

(** ** What a per-file step reads and writes *)

Lemma reads_app (a b : list event) : reads (a ++ b) = reads a ++ reads b.
Proof.
  induction a as [|e a IH]; [reflexivity|].
  destruct e; simpl; rewrite ?IH; reflexivity.
Qed.

Lemma contains_starts (p t : text) :
  starts_with p t = true -> contains p t = true.
Proof. intros H. destruct t; simpl in *; now rewrite H. Qed.

Lemma contains_cons_r (p t : text) (c : ascii) :
  contains p t = true -> contains p (c :: t) = true.
Proof. intros H. simpl. rewrite H. apply orb_true_r. Qed.

(** Proves that a text built around the toggle holds the marker, also
    when the toggle sits inside a literal. *)
Ltac holds_tag :=
  cbv zeta; rewrite <- ?app_assoc;
  repeat first [ (apply contains_starts; reflexivity)
               | apply contains_tag_head
               | (apply contains_app_l; reflexivity)
               | apply contains_app_r
               | apply contains_cons_r ].

Lemma auth_marks (c c' : text) :
  AddToggleComponent.add_toggle_to_auth_page c = (c', true) ->
  contains toggle_open c' = true.
Proof.
  unfold AddToggleComponent.add_toggle_to_auth_page.
  destruct (re_search _ c); [|discriminate].
  intros H. injection H as <-. holds_tag.
Qed.

Lemma standard_marks (c c' : text) :
  AddToggleComponent.add_toggle_to_standard_page c = (c', true) ->
  contains toggle_open c' = true.
Proof.
  unfold AddToggleComponent.add_toggle_to_standard_page.
  destruct (re_search AddToggleComponent.pattern1 c).
  { intros H. injection H as <-.
    unfold AddToggleComponent.put_before_comment. holds_tag. }
  destruct (re_search AddToggleComponent.pattern2 c).
  { intros H. injection H as <-.
    unfold AddToggleComponent.put_before_bell. holds_tag. }
  destruct (re_search AddToggleComponent.pattern3 c).
  { intros H. injection H as <-.
    unfold AddToggleComponent.put_before_logout. holds_tag. }
  destruct (re_search AddToggleComponent.pattern4 c); [|discriminate].
  intros H. injection H as <-.
  unfold AddToggleComponent.put_in_actions. holds_tag.
Qed.

Lemma manual_rewrite_marks (c : text) (m : rmatch) :
  contains toggle_open (ManualToggleAdd.rewrite c m) = true.
Proof.
  unfold ManualToggleAdd.rewrite. cbv zeta.
  destruct (contains _ (slice _ _ _)); holds_tag.
Qed.

(** Finishes a branch of a run that wrote nothing. *)
Ltac finish_unchanged :=
  unfold bind, print, log, ret; cbn [fs trace];
  eexists false, _, _; split; [reflexivity|]; cbn [fs trace];
  split; [rewrite <- ?app_assoc; reflexivity|];
  split; [reflexivity|]; split; reflexivity.

(** Finishes a branch of a run that wrote [c] over the file [f]. *)
Ltac finish_written f c Hf Hr :=
  unfold bind, print, log, ret; cbn [fs trace];
  eexists true, _, _; split; [reflexivity|]; cbn [fs trace];
  split; [rewrite <- ?app_assoc; reflexivity|];
  split; [reflexivity|];
  exists f, c; split; [first [exact Hf | reflexivity]|]; split;
  [|split; [rewrite Hr; reflexivity | reflexivity]].

Lemma component_process_file_patches (p : string) (w : world) :
  patches marks (AddToggleComponent.process_file p) p w.
Proof.
  unfold patches, AddToggleComponent.process_file, try_except.
  destruct (fs w !! p) as [f|] eqn:Hf.
  - destruct (f_readable f) eqn:Hr.
    + run_read Hf Hr.
      destruct (contains toggle_open (f_content f)) eqn:Hm;
        [finish_unchanged|].
      destruct (negb _); [finish_unchanged|].
      destruct (contains (lit "auth") (lit p)).
      * destruct (AddToggleComponent.add_toggle_to_auth_page (f_content f))
          as [c' []] eqn:E; [|finish_unchanged].
        destruct (f_writable f) eqn:Hw.
        { run_write Hf Hw. finish_written f c' Hf Hr.
          split; [exact Hm | exact (auth_marks _ _ E)]. }
        { erewrite bind_raised
            by (eapply write_text_denied; [exact Hf | exact Hw]).
          finish_unchanged. }
      * destruct (AddToggleComponent.add_toggle_to_standard_page
                    (f_content f)) as [c' []] eqn:E; [|finish_unchanged].
        destruct (f_writable f) eqn:Hw.
        { run_write Hf Hw. finish_written f c' Hf Hr.
          split; [exact Hm | exact (standard_marks _ _ E)]. }
        { erewrite bind_raised
            by (eapply write_text_denied; [exact Hf | exact Hw]).
          finish_unchanged. }
    + erewrite bind_raised
        by (eapply read_text_denied; [exact Hf | exact Hr]).
      finish_unchanged.
  - erewrite bind_raised by (eapply read_text_missing; exact Hf).
    finish_unchanged.
Qed.

Lemma final_process_file_patches (p : string) (w : world) :
  patches marks (AddToggleFinal.process_file p) p w.
Proof.
  unfold patches, AddToggleFinal.process_file, try_except.
  destruct (fs w !! p) as [f|] eqn:Hf.
  - destruct (f_readable f) eqn:Hr.
    + run_read Hf Hr.
      destruct (contains toggle_open (f_content f)) eqn:Hm;
        [finish_unchanged|].
      destruct (negb _); [finish_unchanged|].
      destruct (AddToggleFinal.add_toggle_generic (f_content f))
        as [c' []] eqn:E; [|finish_unchanged].
      destruct (f_writable f) eqn:Hw.
      * run_write Hf Hw. finish_written f c' Hf Hr.
        split; [exact Hm | exact (generic_marks _ _ E)].
      * erewrite bind_raised
          by (eapply write_text_denied; [exact Hf | exact Hw]).
        finish_unchanged.
    + erewrite bind_raised
        by (eapply read_text_denied; [exact Hf | exact Hr]).
      finish_unchanged.
  - erewrite bind_raised by (eapply read_text_missing; exact Hf).
    finish_unchanged.
Qed.

Lemma dark_mode_process_file_patches (p : string) (w : world) :
  patches (restyles p) (AddDarkMode.process_file p) p w.
Proof.
  unfold patches, AddDarkMode.process_file. run_print. unfold try_except.
  destruct (fs w !! p) as [f|] eqn:Hf.
  - destruct (f_readable f) eqn:Hr.
    + run_read Hf Hr.
      destruct (AddDarkMode.transform (f_content f) p) as [c' ch] eqn:E.
      destruct (text_eqb c' (f_content f)) eqn:Eq; cbn [negb];
        [finish_unchanged|].
      destruct (f_writable f) eqn:Hw.
      * run_write Hf Hw. finish_written f c' Hf Hr.
        split; [now rewrite E | now apply text_eqb_neq].
      * erewrite bind_raised
          by (eapply write_text_denied; [exact Hf | exact Hw]).
        finish_unchanged.
    + erewrite bind_raised
        by (eapply read_text_denied; [exact Hf | exact Hr]).
      finish_unchanged.
  - erewrite bind_raised by (eapply read_text_missing; exact Hf).
    finish_unchanged.
Qed.

Lemma manual_add_toggle_patches (p : string) (w : world) :
  patches marks (ManualToggleAdd.add_toggle p) p w
  \/ raises (ManualToggleAdd.add_toggle p) p w.
Proof.
  unfold patches, raises, ManualToggleAdd.add_toggle.
  destruct (fs w !! p) as [f|] eqn:Hf.
  - destruct (f_readable f) eqn:Hr.
    + run_read Hf Hr.
      destruct (contains toggle_open (f_content f)) eqn:Hm;
        [left; finish_unchanged|].
      destruct (re_search ManualToggleAdd.pattern (f_content f))
        as [m|]; [|left; finish_unchanged].
      destruct (f_writable f) eqn:Hw.
      * left. run_write Hf Hw.
        finish_written f (ManualToggleAdd.rewrite (f_content f) m) Hf Hr.
        split; [exact Hm | apply manual_rewrite_marks].
      * right.
        erewrite bind_raised
          by (eapply write_text_denied; [exact Hf | exact Hw]).
        eexists _, _, _. split; [reflexivity|]. cbn [fs trace].
        split; [reflexivity|]. repeat split; reflexivity.
    + right.
      erewrite bind_raised
        by (eapply read_text_denied; [exact Hf | exact Hr]).
      eexists _, _, _. split; [reflexivity|]. cbn [fs trace].
      split; [reflexivity|]. repeat split; reflexivity.
  - right. erewrite bind_raised by (eapply read_text_missing; exact Hf).
    eexists _, _, _. split; [reflexivity|]. cbn [fs trace].
    split; [reflexivity|]. repeat split; reflexivity.
Qed.

(** ** Running a per-file step twice *)

Lemma fs_after_twice (patch : text -> option text) (p : string)
      (m : gmap string file) :
  (forall c c', patch c = Some c' -> patch c' = None) ->
  fs_after patch p (fs_after patch p m) = fs_after patch p m.
Proof.
  intros Honce. unfold fs_after at 2 3.
  destruct (m !! p) as [f|] eqn:Hf.
  - destruct (f_readable f && f_writable f) eqn:Hrw.
    + destruct (patch (f_content f)) as [c'|] eqn:Hp.
      * unfold fs_after. rewrite lookup_insert_eq.
        cbn [f_readable f_writable f_content f_access mkFile andb].
        now rewrite (Honce _ _ Hp).
      * unfold fs_after. now rewrite Hf, Hrw, Hp.
    + unfold fs_after. now rewrite Hf, Hrw.
  - unfold fs_after. now rewrite Hf.
Qed.

Lemma component_process_file_fs (p : string) (w : world) :
  fs (snd (AddToggleComponent.process_file p w))
  = fs_after (component_patch p) p (fs w).
Proof.
  unfold AddToggleComponent.process_file, try_except, fs_after.
  destruct (fs w !! p) as [f|] eqn:Hf.
  - destruct (f_readable f) eqn:Hr.
    + run_read Hf Hr. unfold component_patch.
      destruct (contains toggle_open (f_content f));
        [now destruct (f_writable f)|].
      destruct (contains (lit "import DarkModeToggle") (f_content f));
        cbn [negb]; [|now destruct (f_writable f)].
      destruct (if contains (lit "auth") (lit p)
                then AddToggleComponent.add_toggle_to_auth_page (f_content f)
                else AddToggleComponent.add_toggle_to_standard_page
                       (f_content f)) as [c' []].
      * destruct (f_writable f) eqn:Hw.
        { run_write Hf Hw. cbn. now rewrite Hr. }
        { erewrite bind_raised
            by (eapply write_text_denied; [exact Hf | exact Hw]).
          reflexivity. }
      * now destruct (f_writable f).
    + erewrite bind_raised
        by (eapply read_text_denied; [exact Hf | exact Hr]).
      reflexivity.
  - erewrite bind_raised by (eapply read_text_missing; exact Hf).
    reflexivity.
Qed.

Lemma component_patch_once (p : string) (c c' : text) :
  component_patch p c = Some c' -> component_patch p c' = None.
Proof.
  unfold component_patch at 1.
  destruct (contains toggle_open c); [discriminate|].
  destruct (negb _); [discriminate|].
  destruct (contains (lit "auth") (lit p)).
  - destruct (AddToggleComponent.add_toggle_to_auth_page c)
      as [c1 []] eqn:E; [|discriminate].
    intros H. injection H as <-. apply auth_marks in E.
    unfold component_patch. now rewrite E.
  - destruct (AddToggleComponent.add_toggle_to_standard_page c)
      as [c1 []] eqn:E; [|discriminate].
    intros H. injection H as <-. apply standard_marks in E.
    unfold component_patch. now rewrite E.
Qed.

Lemma manual_add_toggle_fs (p : string) (w : world) :
  fs (snd (ManualToggleAdd.add_toggle p w))
  = fs_after manual_patch p (fs w).
Proof.
  unfold ManualToggleAdd.add_toggle, fs_after.
  destruct (fs w !! p) as [f|] eqn:Hf.
  - destruct (f_readable f) eqn:Hr.
    + run_read Hf Hr. unfold manual_patch.
      destruct (contains toggle_open (f_content f));
        [now destruct (f_writable f)|].
      destruct (re_search ManualToggleAdd.pattern (f_content f)) as [m|].
      * destruct (f_writable f) eqn:Hw.
        { run_write Hf Hw. cbn. now rewrite Hr. }
        { erewrite bind_raised
            by (eapply write_text_denied; [exact Hf | exact Hw]).
          reflexivity. }
      * now destruct (f_writable f).
    + erewrite bind_raised
        by (eapply read_text_denied; [exact Hf | exact Hr]).
      reflexivity.
  - erewrite bind_raised by (eapply read_text_missing; exact Hf).
    reflexivity.
Qed.

Lemma manual_patch_once (c c' : text) :
  manual_patch c = Some c' -> manual_patch c' = None.
Proof.
  unfold manual_patch at 1.
  destruct (contains toggle_open c); [discriminate|].
  destruct (re_search ManualToggleAdd.pattern c) as [m|]; [|discriminate].
  intros H. injection H as <-. unfold manual_patch.
  now rewrite manual_rewrite_marks.
Qed.

(** X6.  [process_file] of add_toggle_component.py is idempotent on the
    files: whatever the world (file missing, unreadable, read-only, with
    or without the import, the toggle or an anchor), a second run leaves
    the files as the first run left them. *)
Theorem component_process_file_twice (p : string) (w : world) :
  fs (snd (AddToggleComponent.process_file p
             (snd (AddToggleComponent.process_file p w))))
  = fs (snd (AddToggleComponent.process_file p w)).
Proof.
  rewrite !component_process_file_fs.
  apply fs_after_twice, component_patch_once.
Qed.

(** X7.  [add_toggle] of manual_toggle_add.py is idempotent on the files,
    also when it raises: a second call leaves the files as the first call
    left them, because the text it writes holds the toggle it tests
    for. *)
Theorem manual_add_toggle_twice (p : string) (w : world) :
  fs (snd (ManualToggleAdd.add_toggle p
             (snd (ManualToggleAdd.add_toggle p w))))
  = fs (snd (ManualToggleAdd.add_toggle p w)).
Proof.
  rewrite !manual_add_toggle_fs.
  apply fs_after_twice, manual_patch_once.
Qed.



(** ** What a whole run opens and counts *)

Lemma touched_app (a b : list event) (q : string) :
  In q (touched (a ++ b)) <-> In q (touched a) \/ In q (touched b).
Proof.
  unfold touched. rewrite reads_app, writes_app, map_app, !in_app_iff.
  tauto.
Qed.

(** A loop of steps with an [effect] has the effect of all of them. *)
Lemma for_each_effect {A S} (R : S -> list event -> S -> Prop)
      (ok : A -> string -> Prop) (step : A -> S -> io S) :
  (forall st, R st [] st) ->
  (forall a t1 b t2 c, R a t1 b -> R b t2 c -> R a (t1 ++ t2) c) ->
  (forall x st w, effect R (ok x) (step x st) st w) ->
  forall xs st w,
    effect R (fun q => exists x, In x xs /\ ok x q) (for_each xs step st)
           st w.
Proof.
  intros Hrefl Htrans Hstep xs.
  induction xs as [|x xs IH]; intros st w; unfold effect.
  - exists (Ok st), w, []. simpl. rewrite app_nil_r.
    split; [reflexivity|]. split; [reflexivity|].
    split; [intros q Hq; destruct Hq|].
    intros st' H. injection H as <-. apply Hrefl.
  - destruct (Hstep x st w) as (r1 & w1 & t1 & H1 & Ht1 & Hk1 & HR1).
    destruct r1 as [st1|e].
    + destruct (IH st1 w1) as (r2 & w2 & t2 & H2 & Ht2 & Hk2 & HR2).
      exists r2, w2, (t1 ++ t2). cbn [for_each].
      erewrite bind_run by exact H1. split; [exact H2|].
      split; [now rewrite Ht2, Ht1, app_assoc|].
      split.
      * intros q Hq. apply touched_app in Hq as [Hq|Hq].
        { exists x. split; [now left | now apply Hk1]. }
        { destruct (Hk2 q Hq) as (y & Hy & Hok).
          exists y. split; [now right | exact Hok]. }
      * intros st' Hr. eapply Htrans; [now apply HR1 | now apply HR2].
    + exists (Raised e), w1, t1. cbn [for_each].
      erewrite bind_raised by exact H1. split; [reflexivity|].
      split; [exact Ht1|]. split.
      * intros q Hq. exists x. split; [now left | now apply Hk1].
      * discriminate.
Qed.

Lemma counts_writes_refl (n : nat) : counts_writes n [] n.
Proof. unfold counts_writes. simpl. lia. Qed.

Lemma counts_writes_trans (a : nat) t1 (b : nat) t2 (c : nat) :
  counts_writes a t1 b -> counts_writes b t2 c ->
  counts_writes a (t1 ++ t2) c.
Proof.
  unfold counts_writes. rewrite writes_app, length_app. lia.
Qed.

Lemma counts_modified_refl (st : nat * nat) : counts_modified st [] st.
Proof. unfold counts_modified. simpl. lia. Qed.

Lemma counts_modified_trans (a : nat * nat) t1 (b : nat * nat) t2
      (c : nat * nat) :
  counts_modified a t1 b -> counts_modified b t2 c ->
  counts_modified a (t1 ++ t2) c.
Proof.
  unfold counts_modified. rewrite writes_app, length_app. lia.
Qed.

Lemma counts_both_refl (st : nat * nat) : counts_both st [] st.
Proof. unfold counts_both. simpl. lia. Qed.

Lemma counts_both_trans (a : nat * nat) t1 (b : nat * nat) t2
      (c : nat * nat) :
  counts_both a t1 b -> counts_both b t2 c -> counts_both a (t1 ++ t2) c.
Proof.
  unfold counts_both. rewrite writes_app, reads_app, !length_app. lia.
Qed.

(** The paths that a step with the outcome of [patches] opens. *)
Lemma patched_touched (p : string) (t : list event)
      (ws : list (string * text)) :
  reads t = [p] -> writes t = ws ->
  (forall x, In x ws -> fst x = p) ->
  forall q, In q (touched t) -> q = p.
Proof.
  intros Hr Hw Hws q. unfold touched. rewrite Hr, Hw, in_app_iff.
  intros [[<-|[]]|Hq]; [reflexivity|].
  apply in_map_iff in Hq as (x & <- & Hx). now apply Hws.
Qed.

Lemma patches_touched good (p : string) (w : world)
      (b : bool) (w' : world) (t : list event) :
  reads t = [p] ->
  (if b then
     exists f c,
       fs w !! p = Some f /\ good (f_content f) c
       /\ fs w' = <[p := mkFile c true true]> (fs w)
       /\ writes t = [(p, c)]
   else fs w' = fs w /\ writes t = []) ->
  (forall q, In q (touched t) -> q = p)
  /\ length (writes t) = if b then 1 else 0.
Proof.
  intros Hr Hb. destruct b.
  - destruct Hb as (f & c & _ & _ & _ & Hw). split.
    + apply (patched_touched p t [(p, c)] Hr Hw).
      intros x [<-|[]]. reflexivity.
    + now rewrite Hw.
  - destruct Hb as (_ & Hw). split.
    + apply (patched_touched p t [] Hr Hw). intros x [].
    + now rewrite Hw.
Qed.

(** The effect of a step that [exists()] leaves with an exception, or that
    finds no file and prints at most. *)
Ltac idle_step :=
  unfold bind, print, log, ret; cbn [fs trace];
  eexists _, _, _; split; [reflexivity|]; cbn [trace fs];
  split; [first [reflexivity | rewrite app_nil_r; reflexivity]|];
  split; [intros ? Hq; destruct Hq|];
  first [ discriminate
        | intros ? H; injection H as <-;
          unfold counts_writes, counts_modified, counts_both; simpl; lia ].

Lemma final_file_step_effect (x : string) (n : nat) (w : world) :
  effect counts_writes (fun q => q = x) (AddToggleFinal.file_step x n) n w.
Proof.
  unfold effect, AddToggleFinal.file_step.
  destruct (fs w !! x) as [f|] eqn:Hf.
  - destruct (f_stat f) eqn:Hs.
    + erewrite bind_run by (eapply exists_present; [exact Hf | exact Hs]).
      cbv beta iota.
      destruct (final_process_file_patches x w)
        as (b & w' & t & Hrun & Ht & Hr & Hb).
      destruct (patches_touched _ x w b w' t Hr Hb) as (Htouch & Hlen).
      erewrite bind_run by exact Hrun.
      destruct b; eexists _, w', t; (split; [reflexivity|]);
        (split; [exact Ht|]); (split; [exact Htouch|]);
        intros st' H; injection H as <-; unfold counts_writes; lia.
    + erewrite bind_raised by (eapply exists_denied; [exact Hf | exact Hs]).
      exists (Raised (PermissionError x)), w, []. rewrite app_nil_r.
      split; [reflexivity|]. split; [reflexivity|].
      split; [intros q Hq; destruct Hq | discriminate].
  - erewrite bind_run by (apply exists_missing; exact Hf). cbv beta iota.
    exists (Ok n), w, []. rewrite app_nil_r.
    split; [reflexivity|]. split; [reflexivity|].
    split; [intros q Hq; destruct Hq|].
    intros st' H. injection H as <-. apply counts_writes_refl.
Qed.

Lemma component_file_step_effect (x : string) (st : nat * nat) (w : world) :
  effect counts_modified (fun q => q = x)
         (AddToggleComponent.file_step x st) st w.
Proof.
  unfold effect, AddToggleComponent.file_step. destruct st as [mc nc].
  destruct (fs w !! x) as [f|] eqn:Hf.
  - destruct (f_stat f) eqn:Hs.
    + erewrite bind_run by (eapply exists_present; [exact Hf | exact Hs]).
      cbv beta iota.
      destruct (component_process_file_patches x w)
        as (b & w' & t & Hrun & Ht & Hr & Hb).
      destruct (patches_touched _ x w b w' t Hr Hb) as (Htouch & Hlen).
      erewrite bind_run by exact Hrun.
      destruct b; eexists _, w', t; (split; [reflexivity|]);
        (split; [exact Ht|]); (split; [exact Htouch|]);
        intros st' H; injection H as <-; unfold counts_modified;
        cbn [fst snd]; lia.
    + erewrite bind_raised by (eapply exists_denied; [exact Hf | exact Hs]).
      exists (Raised (PermissionError x)), w, []. rewrite app_nil_r.
      split; [reflexivity|]. split; [reflexivity|].
      split; [intros q Hq; destruct Hq | discriminate].
  - erewrite bind_run by (apply exists_missing; exact Hf). cbv beta iota.
    idle_step.
Qed.

Lemma manual_file_step_effect (x : string) (n : nat) (w : world) :
  effect counts_writes (fun q => q = x) (ManualToggleAdd.file_step x n) n w.
Proof.
  unfold effect, ManualToggleAdd.file_step.
  destruct (fs w !! x) as [f|] eqn:Hf.
  - destruct (f_stat f) eqn:Hs.
    + erewrite bind_run by (eapply exists_present; [exact Hf | exact Hs]).
      cbv beta iota.
      destruct (manual_add_toggle_patches x w)
        as [(b & w' & t & Hrun & Ht & Hr & Hb)
           |(e & w' & t & Hrun & Ht & Hr & Hfs & Hw)].
      * destruct (patches_touched _ x w b w' t Hr Hb) as (Htouch & Hlen).
        erewrite bind_run by exact Hrun.
        destruct b; eexists _, w', t; (split; [reflexivity|]);
          (split; [exact Ht|]); (split; [exact Htouch|]);
          intros st' H; injection H as <-; unfold counts_writes; lia.
      * erewrite bind_raised by exact Hrun.
        exists (Raised e), w', t. split; [reflexivity|].
        split; [exact Ht|]. split; [|discriminate].
        apply (patched_touched x t [] Hr Hw). intros y [].
    + erewrite bind_raised by (eapply exists_denied; [exact Hf | exact Hs]).
      exists (Raised (PermissionError x)), w, []. rewrite app_nil_r.
      split; [reflexivity|]. split; [reflexivity|].
      split; [intros q Hq; destruct Hq | discriminate].
  - erewrite bind_run by (apply exists_missing; exact Hf). cbv beta iota.
    exists (Ok n), w, []. rewrite app_nil_r.
    split; [reflexivity|]. split; [reflexivity|].
    split; [intros q Hq; destruct Hq|].
    intros st' H. injection H as <-. apply counts_writes_refl.
Qed.

Lemma dark_mode_file_step_effect (name : string) (st : nat * nat)
      (w : world) :
  effect counts_both
         (fun q => q = AddDarkMode.joinpath AddDarkMode.base_dir name)
         (AddDarkMode.file_step name st) st w.
Proof.
  unfold effect, AddDarkMode.file_step. destruct st as [tc mc].
  cbv zeta. destruct (bool_decide _).
  - idle_step.
  - set (path := AddDarkMode.joinpath AddDarkMode.base_dir name).
    destruct (fs w !! path) as [f|] eqn:Hf.
    + destruct (f_stat f) eqn:Hs.
      * erewrite bind_run
          by (eapply exists_present; [exact Hf | exact Hs]).
        cbv beta iota.
        destruct (dark_mode_process_file_patches path w)
          as (b & w' & t & Hrun & Ht & Hr & Hb).
        destruct (patches_touched _ path w b w' t Hr Hb)
          as (Htouch & Hlen).
        erewrite bind_run by exact Hrun.
        destruct b; eexists _, w', t; (split; [reflexivity|]);
          (split; [exact Ht|]); (split; [exact Htouch|]);
          intros st' H; injection H as <-; unfold counts_both;
          cbn [fst snd]; rewrite Hr; simpl; lia.
      * erewrite bind_raised
          by (eapply exists_denied; [exact Hf | exact Hs]).
        exists (Raised (PermissionError path)), w, []. rewrite app_nil_r.
        split; [reflexivity|]. split; [reflexivity|].
        split; [intros q Hq; destruct Hq | discriminate].
    + erewrite bind_run by (apply exists_missing; exact Hf). cbv beta iota.
      idle_step.
Qed.

Lemma touched_prints (ps t : list event) (q : string) :
  reads ps = [] -> writes ps = [] ->
  In q (touched (ps ++ t)) -> In q (touched t).
Proof.
  intros Hr Hw H. apply touched_app in H as [H|H]; [|exact H].
  unfold touched in H. rewrite Hr, Hw in H. destruct H.
Qed.

Lemma touched_between (ps1 t ps2 : list event) (q : string) :
  reads ps1 = [] -> writes ps1 = [] -> reads ps2 = [] -> writes ps2 = [] ->
  In q (touched (ps1 ++ t ++ ps2)) -> In q (touched t).
Proof.
  intros Hr1 Hw1 Hr2 Hw2 H. apply touched_prints in H; [|assumption..].
  apply touched_app in H as [H|H]; [exact H|].
  unfold touched in H. rewrite Hr2, Hw2 in H. destruct H.
Qed.

(** The loops, with the files of their lists. *)
Lemma final_loop_effect (fl : list string) (n : nat) (w : world) :
  effect counts_writes (fun q => In q fl)
         (for_each fl AddToggleFinal.file_step n) n w.
Proof.
  destruct (for_each_effect counts_writes (fun x q => q = x)
              AddToggleFinal.file_step
              counts_writes_refl counts_writes_trans
              final_file_step_effect fl n w)
    as (r & w1 & t & Hrun & Ht & Hk & HR).
  exists r, w1, t. split; [exact Hrun|]. split; [exact Ht|].
  split; [|exact HR].
  intros q Hq. destruct (Hk q Hq) as (x & Hx & ->). exact Hx.
Qed.

Lemma component_loop_effect (fl : list string) (st : nat * nat)
      (w : world) :
  effect counts_modified (fun q => In q fl)
         (for_each fl AddToggleComponent.file_step st) st w.
Proof.
  destruct (for_each_effect counts_modified (fun x q => q = x)
              AddToggleComponent.file_step
              counts_modified_refl counts_modified_trans
              component_file_step_effect fl st w)
    as (r & w1 & t & Hrun & Ht & Hk & HR).
  exists r, w1, t. split; [exact Hrun|]. split; [exact Ht|].
  split; [|exact HR].
  intros q Hq. destruct (Hk q Hq) as (x & Hx & ->). exact Hx.
Qed.

Lemma manual_loop_effect (fl : list string) (w : world) :
  effect counts_writes (fun q => In q fl)
         (for_each fl ManualToggleAdd.file_step 0) 0 w.
Proof.
  destruct (for_each_effect counts_writes (fun x q => q = x)
              ManualToggleAdd.file_step
              counts_writes_refl counts_writes_trans
              manual_file_step_effect fl 0 w)
    as (r & w1 & t & Hrun & Ht & Hk & HR).
  exists r, w1, t. split; [exact Hrun|]. split; [exact Ht|].
  split; [|exact HR].
  intros q Hq. destruct (Hk q Hq) as (x & Hx & ->). exact Hx.
Qed.

Lemma dark_mode_category_effect (cat : string * list string)
      (st : nat * nat) (w : world) :
  effect counts_both
         (fun q => exists name,
              In name (snd cat)
              /\ q = AddDarkMode.joinpath AddDarkMode.base_dir name)
         (AddDarkMode.category_step cat st) st w.
Proof.
  destruct cat as [category names].
  unfold effect, AddDarkMode.category_step. do 3 run_print.
  match goal with |- context [for_each ?xs ?b ?s ?w0] =>
    destruct (for_each_effect counts_both
                (fun x q => q = AddDarkMode.joinpath AddDarkMode.base_dir x)
                b counts_both_refl counts_both_trans
                dark_mode_file_step_effect xs s w0)
      as (r & w1 & t & Hrun & Ht & Hk & HR)
  end.
  exists r, w1,
    ([EvPrint ([nl] ++ rule60); EvPrint (lit category ++ lit " Pages");
      EvPrint rule60] ++ t).
  split; [exact Hrun|]. cbn [trace fs] in *.
  split; [rewrite Ht, <- !app_assoc; reflexivity|].
  split.
  - intros q Hq. apply touched_prints in Hq; [|reflexivity|reflexivity].
    exact (Hk q Hq).
  - intros st' Hr. specialize (HR st' Hr). unfold counts_both in *.
    rewrite reads_app, writes_app. simpl. exact HR.
Qed.

Lemma dark_mode_loop_effect (pages : list (string * list string))
      (st : nat * nat) (w : world) :
  effect counts_both (fun q => In q (dark_mode_files pages))
         (for_each pages AddDarkMode.category_step st) st w.
Proof.
  destruct (for_each_effect counts_both
              (fun (cat : string * list string) q =>
                 exists name,
                   In name (snd cat)
                   /\ q = AddDarkMode.joinpath AddDarkMode.base_dir name)
              AddDarkMode.category_step counts_both_refl counts_both_trans
              dark_mode_category_effect pages st w)
    as (r & w1 & t & Hrun & Ht & Hk & HR).
  exists r, w1, t. split; [exact Hrun|]. split; [exact Ht|].
  split; [|exact HR].
  intros q Hq. destruct (Hk q Hq) as (cat & Hcat & name & Hname & ->).
  unfold dark_mode_files. apply in_map. apply in_concat.
  exists (snd cat). split; [now apply in_map | exact Hname].
Qed.

(** A run that is a banner, a loop and some printed lines opens what the
    loop opens. *)
Lemma main_within {S} (fl : list string) (R : S -> list event -> S -> Prop)
      (banner : list event) (loop : io S) (st : S)
      (tail : S -> list event) (w : world) :
  reads banner = [] -> writes banner = [] ->
  (forall s, reads (tail s) = []) -> (forall s, writes (tail s) = []) ->
  effect R (fun q => In q fl) loop st
         (mkWorld (fs w) (trace w ++ banner)) ->
  within fl
         (fun w0 =>
            match loop (mkWorld (fs w0) (trace w0 ++ banner)) with
            | (Ok s, w1) => (Ok tt, mkWorld (fs w1) (trace w1 ++ tail s))
            | (Raised e, w1) => (Raised e, w1)
            end) w.
Proof.
  intros Hbr Hbw Htr Htw (r & w1 & t & Hrun & Ht & Hk & _).
  unfold within. rewrite Hrun. cbn [trace] in Ht. destruct r as [s|e].
  - exists (banner ++ t ++ tail s). cbn [snd trace]. split.
    + rewrite Ht, <- !app_assoc. reflexivity.
    + intros q Hq.
      apply (touched_between banner t (tail s)) in Hq; auto.
  - exists (banner ++ t). cbn [snd]. split.
    + rewrite Ht, <- !app_assoc. reflexivity.
    + intros q Hq. apply touched_prints in Hq; auto.
Qed.

Lemma within_ext {A} (fl : list string) (m m' : io A) (w : world) :
  m w = m' w -> within fl m' w -> within fl m w.
Proof. unfold within. now intros ->. Qed.

Lemma final_main_within (fl : list string) (w : world) :
  within fl (AddToggleFinal.main_on fl) w.
Proof.
  eapply within_ext;
    [|apply (main_within fl counts_writes final_banner
               (for_each fl AddToggleFinal.file_step 0) 0
               (fun n => [EvPrint ([nl] ++ str_nat n
                                        ++ lit " files modified")]) w);
      try reflexivity; apply final_loop_effect].
  unfold AddToggleFinal.main_on. do 3 run_print.
  cbn [fs trace]. rewrite <- !app_assoc. cbn [app]. unfold final_banner.
  unfold bind, print, log.
  destruct (for_each fl AddToggleFinal.file_step 0 _) as [[n|e] w1];
    reflexivity.
Qed.

Lemma component_main_within (fl : list string) (w : world) :
  within fl (AddToggleComponent.main_on fl) w.
Proof.
  eapply within_ext;
    [|apply (main_within fl counts_modified component_banner
               (for_each fl AddToggleComponent.file_step (0, 0)) (0, 0)
               (fun st : nat * nat =>
                  [EvPrint ([nl] ++ rule60);
                   EvPrint (lit "Summary: Modified " ++ str_nat (fst st)
                                ++ lit " files")]
                    ++ (if 0 <? snd st
                        then [EvPrint (lit "         " ++ str_nat (snd st)
                                           ++ lit " files need manual intervention")]
                        else [])
                    ++ [EvPrint rule60]) w);
      try reflexivity;
      try (intros [a b]; cbn [snd]; destruct (0 <? b); reflexivity);
      apply component_loop_effect].
  unfold AddToggleComponent.main_on. do 3 run_print.
  cbn [fs trace]. rewrite <- !app_assoc. cbn [app]. unfold component_banner.
  unfold bind at 1.
  destruct (for_each fl AddToggleComponent.file_step (0, 0) _)
    as [[[mc nc]|e] w1]; [|reflexivity].
  unfold AddToggleComponent.summary. cbn [fst snd].
  destruct (0 <? nc); unfold bind, ret, print, log; cbn [fs trace];
    rewrite <- !app_assoc; reflexivity.
Qed.

Lemma manual_main_within (fl : list string) (w : world) :
  within fl (ManualToggleAdd.main_on fl) w.
Proof.
  unfold within, ManualToggleAdd.main_on.
  destruct (manual_loop_effect fl w)
    as (r & w1 & t & Hrun & Ht & Hk & HR).
  destruct r as [n|e].
  - erewrite bind_run by exact Hrun. unfold print, log. cbn [snd trace fs].
    eexists (t ++ [_]). split; [rewrite Ht, <- app_assoc; reflexivity|].
    intros q Hq. apply touched_app in Hq as [Hq|[]]. now apply Hk.
  - erewrite bind_raised by exact Hrun. cbn [snd].
    exists t. split; [exact Ht | exact Hk].
Qed.

Lemma dark_mode_main_within (w : world) :
  within (dark_mode_files AddDarkMode.pages) AddDarkMode.main w.
Proof.
  eapply within_ext;
    [|apply (main_within (dark_mode_files AddDarkMode.pages) counts_both
               dark_mode_banner
               (for_each AddDarkMode.pages AddDarkMode.category_step (0, 0))
               (0, 0)
               (fun st : nat * nat =>
                  [EvPrint ([nl] ++ rule60);
                   EvPrint (lit "Summary: Modified " ++ str_nat (snd st)
                                ++ lit "/" ++ str_nat (fst st)
                                ++ lit " files");
                   EvPrint rule60]) w);
      try reflexivity; apply dark_mode_loop_effect].
  unfold AddDarkMode.main. do 3 run_print.
  cbn [fs trace]. rewrite <- !app_assoc. cbn [app]. unfold dark_mode_banner.
  unfold bind at 1.
  destruct (for_each AddDarkMode.pages AddDarkMode.category_step (0, 0) _)
    as [[[tc mc]|e] w1]; [|reflexivity].
  unfold bind, ret, print, log; cbn [fs trace fst snd].
  rewrite <- !app_assoc. reflexivity.
Qed.

(** X9.  A run of any of the four scripts opens, for reading or for
    writing, only paths of its list, whether the run returns or stops
    with an exception: for add_toggle_final.py, add_toggle_component.py
    and manual_toggle_add.py over any list of files, for add_dark_mode.py
    over the files of its page lists under [base_dir]. *)
Theorem runs_stay_within_their_lists (w : world) :
  (forall fl, within fl (AddToggleFinal.main_on fl) w)
  /\ (forall fl, within fl (AddToggleComponent.main_on fl) w)
  /\ (forall fl, within fl (ManualToggleAdd.main_on fl) w)
  /\ within (dark_mode_files AddDarkMode.pages) AddDarkMode.main w.
Proof.
  split; [|split; [|split]].
  - intros fl. apply final_main_within.
  - intros fl. apply component_main_within.
  - intros fl. apply manual_main_within.
  - apply dark_mode_main_within.
Qed.

(** ** The numbers of the summaries *)

Lemma final_main_report (fl : list string) (w : world) :
  listed_stat fl (fs w) ->
  run_prints final_banner modified_summary (AddToggleFinal.main_on fl) w.
Proof.
  intros Hs. unfold run_prints, AddToggleFinal.main_on. do 3 run_print.
  match goal with |- context [bind (for_each ?xs ?b ?s) _ ?w0] =>
    destruct (final_loop_effect xs s w0)
      as (r & w1 & t & Hrun & Ht & _ & HR);
    destruct (for_each_steps_total Some b final_step_keyed xs s w0
                (listed_stat_keyed _ _ Hs))
      as (n & w1' & Hok & _)
  end.
  rewrite Hok in Hrun. injection Hrun as <- <-.
  specialize (HR n eq_refl). unfold counts_writes in HR. simpl in HR.
  subst n. erewrite bind_run by exact Hok. cbv beta.
  unfold print, log. eexists _, t. split; [reflexivity|].
  cbn [trace fs] in *.
  rewrite Ht. unfold final_banner, modified_summary.
  rewrite <- !app_assoc. reflexivity.
Qed.

Lemma component_main_report (fl : list string) (w : world) :
  listed_stat fl (fs w) ->
  run_prints component_banner component_summary
             (AddToggleComponent.main_on fl) w.
Proof.
  intros Hs. unfold run_prints, AddToggleComponent.main_on. do 3 run_print.
  match goal with |- context [bind (for_each ?xs ?b ?s) _ ?w0] =>
    destruct (component_loop_effect xs s w0)
      as (r & w1 & t & Hrun & Ht & _ & HR);
    destruct (for_each_steps_total Some b component_step_keyed xs s w0
                (listed_stat_keyed _ _ Hs))
      as ([mc nc] & w1' & Hok & _)
  end.
  rewrite Hok in Hrun. injection Hrun as <- <-.
  destruct (HR (mc, nc) eq_refl) as (Hmc & Hnc). simpl in Hmc, Hnc.
  subst mc nc. erewrite bind_run by exact Hok. cbv beta iota.
  unfold AddToggleComponent.summary. do 2 run_print.
  cbn [Nat.ltb Nat.leb]. unfold bind, ret, print, log. cbn [fs trace].
  eexists _, t. split; [reflexivity|].
  cbn [trace fs] in *.
  rewrite Ht. unfold component_banner, component_summary.
  rewrite <- !app_assoc. reflexivity.
Qed.

Lemma dark_mode_main_report (w : world) :
  listed_stat (dark_mode_files AddDarkMode.pages) (fs w) ->
  run_prints dark_mode_banner dark_mode_summary AddDarkMode.main w.
Proof.
  intros Hs. unfold run_prints, AddDarkMode.main. do 3 run_print.
  match goal with |- context [bind (for_each ?xs ?b ?s) _ ?w0] =>
    destruct (dark_mode_loop_effect xs s w0)
      as (r & w1 & t & Hrun & Ht & _ & HR);
    destruct (dark_mode_pages_total xs s w0 Hs) as ([tc mc] & w1' & Hok)
  end.
  rewrite Hok in Hrun. injection Hrun as <- <-.
  destruct (HR (tc, mc) eq_refl) as (Htc & Hmc). simpl in Htc, Hmc.
  subst tc mc. erewrite bind_run by exact Hok. cbv beta iota.
  unfold bind, ret, print, log. cbn [fs trace].
  eexists _, t. split; [reflexivity|].
  cbn [trace fs] in *.
  rewrite Ht. unfold dark_mode_banner, dark_mode_summary.
  rewrite <- !app_assoc. reflexivity.
Qed.

(** X10.  When [exists()] raises for no file of the list, the three
    scripts with a try/except around the per-file work return, and the
    number in their last lines is the number of files the run wrote:
    [n files modified] in add_toggle_final.py,
    [Summary: Modified n files] in add_toggle_component.py (with no line
    about manual intervention), and [Summary: Modified n/k files] in
    add_dark_mode.py, where [k] is the number of files the run opened
    for reading. *)
Theorem summaries_count_the_writes (w : world) :
  (forall fl,
      listed_stat fl (fs w) ->
      run_prints final_banner modified_summary (AddToggleFinal.main_on fl) w)
  /\ (forall fl,
         listed_stat fl (fs w) ->
         run_prints component_banner component_summary
                    (AddToggleComponent.main_on fl) w)
  /\ (listed_stat (dark_mode_files AddDarkMode.pages) (fs w) ->
      run_prints dark_mode_banner dark_mode_summary AddDarkMode.main w).
Proof.
  split; [|split].
  - intros fl. apply final_main_report.
  - intros fl. apply component_main_report.
  - apply dark_mode_main_report.
Qed.

Lemma stat_ok_singleton (p q : string) (c : text) (r w : bool) :
  stat_ok {[ p := mkFile c r w ]} q.
Proof.
  intros f Hf. apply lookup_singleton_Some in Hf as [_ <-]. reflexivity.
Qed.

Lemma summaries_count_the_writes_witness :
  listed_stat [checkout] (fs world_ready)
  /\ listed_stat (dark_mode_files AddDarkMode.pages) (fs world_ready)
  /\ run_prints final_banner modified_summary
                (AddToggleFinal.main_on [checkout]) world_ready
  /\ run_prints component_banner component_summary
                (AddToggleComponent.main_on [checkout]) world_ready
  /\ run_prints dark_mode_banner dark_mode_summary AddDarkMode.main
                world_ready.
Proof.
  assert (H1 : listed_stat [checkout] (fs world_ready))
    by (intros p _; apply stat_ok_singleton).
  assert (H2 : listed_stat (dark_mode_files AddDarkMode.pages)
                           (fs world_ready))
    by (intros p _; apply stat_ok_singleton).
  split; [exact H1|]. split; [exact H2|].
  destruct (summaries_count_the_writes world_ready) as (Hf & Hc & Hd).
  split; [exact (Hf [checkout] H1)|].
  split; [exact (Hc [checkout] H1) | exact (Hd H2)].
Defined.

(** ** manual_toggle_add.py on files it can read and write *)








(** ** Running a script a second time *)

Lemma file_after_twice (patch : text -> option text) (o : option file) :
  (forall c c', patch c = Some c' -> patch c' = None) ->
  file_after patch (file_after patch o) = file_after patch o.
Proof.
  intros Honce. destruct o as [f|]; [|reflexivity]. cbn [file_after].
  destruct (f_readable f && f_writable f) eqn:Hrw.
  - destruct (patch (f_content f)) as [c'|] eqn:Hp.
    + cbn [file_after f_readable f_writable f_content f_access mkFile andb].
      now rewrite (Honce _ _ Hp).
    + cbn [file_after]. now rewrite Hrw, Hp.
  - cbn [file_after]. now rewrite Hrw.
Qed.

Lemma fs_after_lookup (patch : text -> option text) (p q : string)
      (m : gmap string file) :
  fs_after patch p m !! q
  = if bool_decide (q = p) then file_after patch (m !! p) else m !! q.
Proof.
  unfold fs_after, file_after. case_bool_decide as Hq.
  - subst q. destruct (m !! p) as [f|] eqn:Hf; [|exact Hf].
    destruct (f_readable f && f_writable f); [|exact Hf].
    destruct (patch (f_content f)); [apply lookup_insert_eq | exact Hf].
  - destruct (m !! p) as [f|]; [|reflexivity].
    destruct (f_readable f && f_writable f); [|reflexivity].
    destruct (patch (f_content f)); [|reflexivity].
    apply lookup_insert_ne. congruence.
Qed.

Lemma fs_after_stat_ok (patch : text -> option text) (p q : string)
      (m : gmap string file) :
  stat_ok m q -> stat_ok (fs_after patch p m) q.
Proof.
  intros H. unfold fs_after.
  destruct (m !! p) as [f|]; [|exact H].
  destruct (f_readable f && f_writable f); [|exact H].
  destruct (patch (f_content f)); [|exact H].
  now apply stat_ok_insert.
Qed.

Lemma fs_after_all_stat_ok (patch : string -> text -> option text)
      (q : string) (fl : list string) :
  forall m, stat_ok m q -> stat_ok (fs_after_all patch fl m) q.
Proof.
  induction fl as [|p fl IH]; intros m H; [exact H|].
  change (stat_ok (fs_after_all patch fl (fs_after (patch p) p m)) q).
  apply IH. now apply fs_after_stat_ok.
Qed.

Lemma fs_after_all_notin (patch : string -> text -> option text)
      (q : string) (fl : list string) :
  forall m, ~ In q fl -> fs_after_all patch fl m !! q = m !! q.
Proof.
  induction fl as [|p fl IH]; intros m Hq; [reflexivity|].
  cbn [fs_after_all fold_left].
  change (fs_after_all patch fl (fs_after (patch p) p m) !! q = m !! q).
  rewrite IH by (intros H; apply Hq; now right).
  rewrite fs_after_lookup. case_bool_decide as E; [|reflexivity].
  exfalso. apply Hq. now left.
Qed.

Lemma fs_after_all_in (patch : string -> text -> option text)
      (q : string) (fl : list string) :
  (forall p c c', patch p c = Some c' -> patch p c' = None) ->
  forall m,
    In q fl ->
    fs_after_all patch fl m !! q = file_after (patch q) (m !! q).
Proof.
  intros Honce. induction fl as [|p fl IH]; intros m Hq; [destruct Hq|].
  change (fs_after_all patch fl (fs_after (patch p) p m) !! q
          = file_after (patch q) (m !! q)).
  destruct (in_dec string_dec q fl) as [Hin|Hout].
  - rewrite (IH _ Hin), fs_after_lookup.
    case_bool_decide as E; [|reflexivity].
    subst p. apply file_after_twice, Honce.
  - destruct Hq as [->|Hq]; [|contradiction].
    rewrite (fs_after_all_notin _ _ _ _ Hout), fs_after_lookup.
    now rewrite bool_decide_eq_true_2.
Qed.

(** After the loop, a step on any file of the list changes nothing. *)
Lemma fs_after_all_settled (patch : string -> text -> option text)
      (fl : list string) (m : gmap string file) (x : string) :
  (forall p c c', patch p c = Some c' -> patch p c' = None) ->
  In x fl ->
  fs_after (patch x) x (fs_after_all patch fl m) = fs_after_all patch fl m.
Proof.
  intros Honce Hx. apply map_eq. intros q. rewrite fs_after_lookup.
  case_bool_decide as E; [|reflexivity]. subst q.
  rewrite (fs_after_all_in _ _ _ Honce _ Hx).
  apply file_after_twice, Honce.
Qed.

Lemma for_each_fs {S} (patch : string -> text -> option text)
      (step : string -> S -> io S) :
  (forall x st w,
      stat_ok (fs w) x ->
      exists st' w',
        step x st w = (Ok st', w')
        /\ fs w' = fs_after (patch x) x (fs w)) ->
  forall fl st w,
    listed_stat fl (fs w) ->
    exists st' w',
      for_each fl step st w = (Ok st', w')
      /\ fs w' = fs_after_all patch fl (fs w).
Proof.
  intros Hstep fl.
  induction fl as [|x xs IH]; intros st w Hs; cbn [for_each].
  - eexists _, _. split; reflexivity.
  - destruct (Hstep x st w (Hs x (or_introl eq_refl)))
      as (st1 & w1 & H1 & Hfs1).
    erewrite bind_run by exact H1.
    destruct (IH st1 w1) as (st2 & w2 & H2 & Hfs2).
    { intros y Hy. rewrite Hfs1. apply fs_after_stat_ok, Hs. now right. }
    exists st2, w2. split; [exact H2|]. rewrite Hfs2, Hfs1. reflexivity.
Qed.

Lemma for_each_settled {S} (patch : string -> text -> option text)
      (step : string -> S -> io S) :
  (forall x st w,
      stat_ok (fs w) x ->
      fs_after (patch x) x (fs w) = fs w ->
      exists w' t,
        step x st w = (Ok st, w') /\ fs w' = fs w
        /\ trace w' = trace w ++ t /\ writes t = []) ->
  forall fl st w,
    listed_stat fl (fs w) ->
    (forall x, In x fl -> fs_after (patch x) x (fs w) = fs w) ->
    exists w' t,
      for_each fl step st w = (Ok st, w') /\ fs w' = fs w
      /\ trace w' = trace w ++ t /\ writes t = [].
Proof.
  intros Hstep fl.
  induction fl as [|x xs IH]; intros st w Hk Hs; cbn [for_each].
  - exists w, []. rewrite app_nil_r. repeat split; reflexivity.
  - destruct (Hstep x st w (Hk x (or_introl eq_refl))
                (Hs x (or_introl eq_refl)))
      as (w1 & t1 & H1 & Hfs1 & Ht1 & Hw1).
    erewrite bind_run by exact H1.
    destruct (IH st w1) as (w2 & t2 & H2 & Hfs2 & Ht2 & Hw2).
    { intros y Hy. rewrite Hfs1. apply Hk. now right. }
    { intros y Hy. rewrite Hfs1. apply Hs. now right. }
    exists w2, (t1 ++ t2). split; [exact H2|].
    split; [now rewrite Hfs2|].
    split; [now rewrite Ht2, Ht1, app_assoc|].
    now rewrite writes_app, Hw1, Hw2.
Qed.

(** A step that writes only texts with the marker over texts without it
    writes nothing when it leaves the files as they are. *)
Lemma patches_settled (m : io bool) (p : string) (w : world) :
  patches marks m p w -> fs (snd (m w)) = fs w ->
  exists w' t,
    m w = (Ok false, w') /\ fs w' = fs w
    /\ trace w' = trace w ++ t /\ writes t = [].
Proof.
  intros (b & w' & t & Hrun & Ht & Hr & Hb) Hfs.
  rewrite Hrun in Hfs. cbn [snd] in Hfs. destruct b.
  - exfalso. destruct Hb as (f & c & Hf & (Hno & Hyes) & Hw' & _).
    assert (E : fs w !! p = Some (mkFile c true true))
      by (rewrite <- Hfs, Hw'; apply lookup_insert_eq).
    rewrite Hf in E. injection E as ->. cbn [f_content mkFile] in Hno.
    congruence.
  - destruct Hb as (_ & Hw). exists w', t. auto.
Qed.

Lemma final_file_step_fs (x : string) (n : nat) (w : world) :
  stat_ok (fs w) x ->
  exists n' w',
    AddToggleFinal.file_step x n w = (Ok n', w')
    /\ fs w' = fs_after final_patch x (fs w).
Proof.
  intros Hs. unfold AddToggleFinal.file_step.
  destruct (fs w !! x) as [f|] eqn:Hf.
  - destruct (final_process_file_patches x w)
      as (b & w' & t & Hrun & _).
    pose proof (final_process_file_fs x w) as Hfs.
    rewrite Hrun in Hfs. cbn [snd] in Hfs.
    erewrite bind_run
      by (eapply exists_present; [exact Hf | exact (Hs f Hf)]).
    cbv beta iota. erewrite bind_run by exact Hrun.
    destruct b; eexists _, _; (split; [reflexivity | exact Hfs]).
  - erewrite bind_run by (apply exists_missing; exact Hf). cbv beta iota.
    eexists _, _. split; [reflexivity|]. unfold fs_after. now rewrite Hf.
Qed.

Lemma final_file_step_settled (x : string) (n : nat) (w : world) :
  stat_ok (fs w) x ->
  fs_after final_patch x (fs w) = fs w ->
  exists w' t,
    AddToggleFinal.file_step x n w = (Ok n, w') /\ fs w' = fs w
    /\ trace w' = trace w ++ t /\ writes t = [].
Proof.
  intros Hk Hs. unfold AddToggleFinal.file_step.
  destruct (fs w !! x) as [f|] eqn:Hf.
  - destruct (patches_settled _ x w (final_process_file_patches x w))
      as (w' & t & Hrun & Hfs & Ht & Hw).
    { rewrite final_process_file_fs. exact Hs. }
    erewrite bind_run
      by (eapply exists_present; [exact Hf | exact (Hk f Hf)]).
    cbv beta iota. erewrite bind_run by exact Hrun.
    exists w', t. split; [reflexivity|]. auto.
  - erewrite bind_run by (apply exists_missing; exact Hf). cbv beta iota.
    exists w, []. rewrite app_nil_r. repeat split; reflexivity.
Qed.

Lemma component_file_step_fs (x : string) (st : nat * nat) (w : world) :
  stat_ok (fs w) x ->
  exists st' w',
    AddToggleComponent.file_step x st w = (Ok st', w')
    /\ fs w' = fs_after (component_patch x) x (fs w).
Proof.
  intros Hs. unfold AddToggleComponent.file_step. destruct st as [mc nc].
  destruct (fs w !! x) as [f|] eqn:Hf.
  - destruct (component_process_file_patches x w)
      as (b & w' & t & Hrun & _).
    pose proof (component_process_file_fs x w) as Hfs.
    rewrite Hrun in Hfs. cbn [snd] in Hfs.
    erewrite bind_run
      by (eapply exists_present; [exact Hf | exact (Hs f Hf)]).
    cbv beta iota. erewrite bind_run by exact Hrun.
    destruct b; eexists _, _; (split; [reflexivity | exact Hfs]).
  - erewrite bind_run by (apply exists_missing; exact Hf). cbv beta iota.
    unfold bind, print, log, ret. cbn [fs trace].
    eexists _, _. split; [reflexivity|]. cbn [fs].
    unfold fs_after. now rewrite Hf.
Qed.

Lemma component_file_step_settled (x : string) (st : nat * nat)
      (w : world) :
  stat_ok (fs w) x ->
  fs_after (component_patch x) x (fs w) = fs w ->
  exists w' t,
    AddToggleComponent.file_step x st w = (Ok st, w') /\ fs w' = fs w
    /\ trace w' = trace w ++ t /\ writes t = [].
Proof.
  intros Hk Hs. unfold AddToggleComponent.file_step. destruct st as [mc nc].
  destruct (fs w !! x) as [f|] eqn:Hf.
  - destruct (patches_settled _ x w (component_process_file_patches x w))
      as (w' & t & Hrun & Hfs & Ht & Hw).
    { rewrite component_process_file_fs. exact Hs. }
    erewrite bind_run
      by (eapply exists_present; [exact Hf | exact (Hk f Hf)]).
    cbv beta iota. erewrite bind_run by exact Hrun.
    exists w', t. split; [reflexivity|]. auto.
  - erewrite bind_run by (apply exists_missing; exact Hf). cbv beta iota.
    unfold bind, print, log, ret. cbn [fs trace].
    eexists _, _. split; [reflexivity|]. cbn [fs trace].
    repeat split; reflexivity.
Qed.

Lemma final_main_fs (fl : list string) (w : world) :
  listed_stat fl (fs w) ->
  fs (snd (AddToggleFinal.main_on fl w))
  = fs_after_all (fun _ => final_patch) fl (fs w).
Proof.
  intros Hs. unfold AddToggleFinal.main_on. do 3 run_print.
  match goal with |- context [bind (for_each ?xs ?b ?s) _ ?w0] =>
    destruct (for_each_fs (fun _ => final_patch) b final_file_step_fs
                xs s w0 Hs) as (n & w1 & Hok & Hfs)
  end.
  erewrite bind_run by exact Hok. unfold print, log. cbn [snd fs].
  exact Hfs.
Qed.

Lemma final_main_settled (fl : list string) (w : world) :
  listed_stat fl (fs w) ->
  (forall x, In x fl -> fs_after final_patch x (fs w) = fs w) ->
  exists w2 t,
    AddToggleFinal.main_on fl w = (Ok tt, w2) /\ fs w2 = fs w
    /\ trace w2 = trace w ++ final_banner ++ t ++ modified_summary []
    /\ writes t = [].
Proof.
  intros Hk Hs. unfold AddToggleFinal.main_on. do 3 run_print.
  match goal with |- context [bind (for_each ?xs ?b ?s) _ ?w0] =>
    destruct (for_each_settled (fun _ => final_patch) b
                final_file_step_settled xs s w0 Hk Hs)
      as (w1 & t & Hok & Hfs & Ht & Hw)
  end.
  erewrite bind_run by exact Hok. unfold print, log.
  eexists _, t. split; [reflexivity|]. cbn [fs trace] in *.
  split; [exact Hfs|]. split; [|exact Hw].
  rewrite Ht. unfold final_banner, modified_summary.
  rewrite <- !app_assoc. reflexivity.
Qed.

Lemma component_main_fs (fl : list string) (w : world) :
  listed_stat fl (fs w) ->
  fs (snd (AddToggleComponent.main_on fl w))
  = fs_after_all component_patch fl (fs w).
Proof.
  intros Hs. unfold AddToggleComponent.main_on. do 3 run_print.
  match goal with |- context [bind (for_each ?xs ?b ?s) _ ?w0] =>
    destruct (for_each_fs component_patch b component_file_step_fs
                xs s w0 Hs) as ([mc nc] & w1 & Hok & Hfs)
  end.
  erewrite bind_run by exact Hok. cbv beta iota.
  unfold AddToggleComponent.summary.
  destruct (0 <? nc); unfold bind, ret, print, log; cbn [snd fs];
    exact Hfs.
Qed.

Lemma component_main_settled (fl : list string) (w : world) :
  listed_stat fl (fs w) ->
  (forall x, In x fl -> fs_after (component_patch x) x (fs w) = fs w) ->
  exists w2 t,
    AddToggleComponent.main_on fl w = (Ok tt, w2) /\ fs w2 = fs w
    /\ trace w2 = trace w ++ component_banner ++ t ++ component_summary []
    /\ writes t = [].
Proof.
  intros Hk Hs. unfold AddToggleComponent.main_on. do 3 run_print.
  match goal with |- context [bind (for_each ?xs ?b ?s) _ ?w0] =>
    destruct (for_each_settled component_patch b
                component_file_step_settled xs s w0 Hk Hs)
      as (w1 & t & Hok & Hfs & Ht & Hw)
  end.
  erewrite bind_run by exact Hok. cbv beta iota.
  unfold AddToggleComponent.summary. cbn [Nat.ltb Nat.leb].
  unfold bind, ret, print, log. cbn [fs trace].
  eexists _, t. split; [reflexivity|]. cbn [fs trace] in *.
  split; [exact Hfs|]. split; [|exact Hw].
  rewrite Ht. unfold component_banner, component_summary.
  rewrite <- !app_assoc. reflexivity.
Qed.

(** X12.  When [exists()] raises for no file of the list, running
    add_toggle_final.py or add_toggle_component.py a second time over the
    same list, whatever else the first run met (missing, unreadable or
    read-only files, repeated paths), returns, writes no file, leaves
    every file as the first run left it, and reports 0 files
    modified. *)
Theorem second_run_changes_nothing (fl : list string) (w : world) :
  listed_stat fl (fs w) ->
  quiet_rerun final_banner modified_summary (AddToggleFinal.main_on fl) w
  /\ quiet_rerun component_banner component_summary
                 (AddToggleComponent.main_on fl) w.
Proof.
  intros Hs. split; unfold quiet_rerun.
  - apply final_main_settled; rewrite (final_main_fs fl w Hs).
    + intros x Hx. apply fs_after_all_stat_ok, Hs, Hx.
    + intros x Hx.
      apply (fs_after_all_settled (fun _ => final_patch)); [|exact Hx].
      intros _. exact final_patch_once.
  - apply component_main_settled; rewrite (component_main_fs fl w Hs).
    + intros x Hx. apply fs_after_all_stat_ok, Hs, Hx.
    + intros x Hx.
      apply fs_after_all_settled; [|exact Hx]. exact component_patch_once.
Qed.

Lemma second_run_changes_nothing_witness :
  listed_stat [checkout; my_reviews] (fs world_ready)
  /\ fs (snd (AddToggleFinal.main_on [checkout; my_reviews] world_ready))
       !! checkout
     = Some (mkFile (fst (AddToggleFinal.add_toggle_generic page_ready))
                    true true)
  /\ fst (AddToggleFinal.add_toggle_generic page_ready) <> page_ready
  /\ quiet_rerun final_banner modified_summary
                 (AddToggleFinal.main_on [checkout; my_reviews]) world_ready
  /\ quiet_rerun component_banner component_summary
                 (AddToggleComponent.main_on [checkout; my_reviews])
                 world_ready.
Proof.
  assert (H : listed_stat [checkout; my_reviews] (fs world_ready))
    by (intros p _; apply stat_ok_singleton).
  split; [exact H|].
  split; [vm_compute; reflexivity|].
  split; [vm_compute; discriminate|].
  exact (second_run_changes_nothing [checkout; my_reviews] world_ready H).
Defined.

(** ** What add_toggle_generic and the manual script put into a page *)

(** Every match that [re.finditer] yields is a piece of the text that the
    pattern accepts. *)
Lemma finditer_sound (r : regex) (content : text) (m : rmatch) :
  In m (re_finditer r content) ->
  exists pre mt post,
    content = pre ++ mt ++ post
    /\ m_start m = length pre /\ m_end m = length pre + length mt
    /\ accepts r mt (length pre) [] (m_caps m).
Proof.
  intros Hin.
  destruct (chain_In r content _ 0 m (finditer_chain r content) Hin)
    as (Hle & Hlen & A).
  exists (firstn (m_start m) content),
    (slice content (m_start m) (m_end m)), (skipn (m_end m) content).
  assert (Hpre : length (firstn (m_start m) content) = m_start m)
    by (rewrite length_firstn; lia).
  split; [|split; [|split]].
  - rewrite <- skipn_slice by exact Hle. symmetry. apply firstn_skipn.
  - now rewrite Hpre.
  - rewrite Hpre. unfold slice. rewrite length_firstn, length_skipn. lia.
  - now rewrite Hpre.
Qed.

(** The shape of a piece that [(r1)(r2)] accepts. *)
Lemma sound_g12 (r1 r2 : regex) (content : text) (m : rmatch) :
  groupless r1 = true -> groupless r2 = true ->
  (exists pre mt post,
      content = pre ++ mt ++ post
      /\ m_start m = length pre /\ m_end m = length pre + length mt
      /\ accepts (Cat (Grp 1 r1) (Grp 2 r2)) mt (length pre) []
                 (m_caps m)) ->
  exists pre g1 g2 post,
    content = pre ++ g1 ++ g2 ++ post
    /\ m_start m = length pre
    /\ m_end m = length pre + length g1 + length g2
    /\ group content m 1 = Some g1 /\ group content m 2 = Some g2
    /\ (exists i g, accepts r2 g2 i g g).
Proof.
  intros G1 G2 (pre & mt & post & -> & Hs & He & A).
  destruct m as [ms me mc]; simpl in *; subst.
  inversion A as [| | | |? ? m1 m2 ? ? ? ? A1 A2| | | |]; subst.
  inversion A1 as [| | | | |? ? ? ? ? ? B1| | |]; subst.
  inversion A2 as [| | | | |? ? ? ? ? ? B2| | |]; subst.
  pose proof (accepts_groupless _ _ _ _ _ B1 G1) as E1. subst.
  pose proof (accepts_groupless _ _ _ _ _ B2 G2) as E2. subst.
  exists pre, m1, m2, post. rewrite <- app_assoc.
  split; [reflexivity|]. split; [reflexivity|].
  split; [rewrite length_app; lia|].
  unfold group, span. simpl.
  rewrite slice_mid, slice_mid2. eauto 10.
Qed.

Lemma wrap12_inserts (r1 : regex) (content : text) (m : rmatch) :
  groupless r1 = true ->
  contains toggle_open content = false ->
  In m (re_finditer (Cat (Grp 1 r1) (Grp 2 (Star is_space))) content) ->
  inserts_once content (AddToggleFinal.wrap12 content m) m.
Proof.
  intros G Hno Hin. apply finditer_sound in Hin.
  apply sound_g12 in Hin; [|exact G|reflexivity].
  destruct Hin as (pre & g1 & g2 & post & E & Hs & He & Hg1 & Hg2
                   & (i2 & c2 & A2)).
  apply accepts_star in A2.
  unfold AddToggleFinal.wrap12, AddToggleFinal.group_or.
  rewrite Hg1, Hg2, Hs, He. cbn [fmt].
  exists (length pre + length g1 + length g2).
  destruct g2 as [|c g2'].
  - exists (AddToggleFinal.indent14 ++ toggle_tag
              ++ AddToggleFinal.indent14).
    split; [rewrite <- He; apply adjacent_end|].
    match goal with |- inserted _ ?o _ _ /\ _ =>
      replace o with
        (firstn (length pre + length g1 + length (@nil ascii)) content
           ++ (AddToggleFinal.indent14 ++ toggle_tag
                 ++ AddToggleFinal.indent14)
           ++ skipn (length pre + length g1 + length (@nil ascii)) content)
        by (rewrite E, firstn_length_app, firstn_app3, skipn_app3,
              <- !app_assoc; reflexivity)
    end.
    apply (@insert_tag_once toggle_open (tl toggle_open));
      try reflexivity; try assumption; try (now left); try no_lt.
    + rewrite E, !length_app. lia.
    + apply (@forallb_not_in (fun x => negb (Ascii.eqb x nl)));
        reflexivity.
  - exists ([] ++ toggle_tag ++ c :: g2').
    split; [rewrite <- He; apply adjacent_end|].
    match goal with |- inserted _ ?o _ _ /\ _ =>
      replace o with
        (firstn (length pre + length g1 + length (c :: g2')) content
           ++ ([] ++ toggle_tag ++ c :: g2')
           ++ skipn (length pre + length g1 + length (c :: g2')) content)
        by (rewrite E, firstn_length_app, firstn_app3, skipn_app3,
              <- !app_assoc; reflexivity)
    end.
    apply (@insert_tag_once toggle_open (tl toggle_open));
      try reflexivity; try assumption; try (now left); try no_lt;
      try exact I.
    rewrite E, !length_app. lia.
Qed.

Lemma wrap3_inserts (content : text) (m : rmatch) :
  contains toggle_open content = false ->
  re_search AddToggleFinal.pattern3 content = Some m ->
  inserts_once content (AddToggleFinal.wrap3 content m) m.
Proof.
  intros Hno H. apply shape_g123 in H; try reflexivity.
  destruct H as (pre & g1 & g2 & g3 & post & E & Hs & He & Hg1 & Hg2
                 & Hg3 & Hsp3 & _ & (i2 & c2 & A2) & _).
  apply accepts_star in A2.
  unfold AddToggleFinal.wrap3, AddToggleFinal.group_or.
  rewrite Hg1, Hg2, Hg3, Hs, He. cbn [fmt].
  exists (length pre + length g1 + length g2).
  destruct g2 as [|c g2'].
  - exists (AddToggleFinal.indent14 ++ toggle_tag
              ++ AddToggleFinal.indent14).
    split; [exists 3; eauto|].
    match goal with |- inserted _ ?o _ _ /\ _ =>
      replace o with
        (firstn (length pre + length g1 + length (@nil ascii)) content
           ++ (AddToggleFinal.indent14 ++ toggle_tag
                 ++ AddToggleFinal.indent14)
           ++ skipn (length pre + length g1 + length (@nil ascii)) content)
        by (rewrite E, firstn_length_app, skipn_app4, firstn_app3,
              skipn_app3, <- !app_assoc; reflexivity)
    end.
    apply (@insert_tag_once toggle_open (tl toggle_open));
      try reflexivity; try assumption; try (now left); try no_lt.
    + rewrite E, !length_app. lia.
    + apply (@forallb_not_in (fun x => negb (Ascii.eqb x nl)));
        reflexivity.
  - exists ([] ++ toggle_tag ++ c :: g2').
    split; [exists 3; eauto|].
    match goal with |- inserted _ ?o _ _ /\ _ =>
      replace o with
        (firstn (length pre + length g1 + length (c :: g2')) content
           ++ ([] ++ toggle_tag ++ c :: g2')
           ++ skipn (length pre + length g1 + length (c :: g2')) content)
        by (rewrite E, firstn_length_app, skipn_app4, firstn_app3,
              skipn_app3, <- !app_assoc; reflexivity)
    end.
    apply (@insert_tag_once toggle_open (tl toggle_open));
      try reflexivity; try assumption; try (now left); try no_lt;
      try exact I.
    rewrite E, !length_app. lia.
Qed.

(** X13.  On a page without the marker, [add_toggle_generic] of
    add_toggle_final.py, when it answers [True], has put one piece of
    text into the page at an end of the anchor it chose or of one of the
    anchor's groups, and changed nothing else; the piece holds the toggle
    once and so does the new page.  The anchor is a match of pattern 1,
    of pattern 2, or the leftmost match of pattern 3. *)
Theorem generic_inserts_one_toggle (content out : text) :
  contains toggle_open content = false ->
  AddToggleFinal.add_toggle_generic content = (out, true) ->
  exists m,
    (In m (re_finditer AddToggleFinal.pattern1 content)
     \/ In m (re_finditer AddToggleFinal.pattern2 content)
     \/ re_search AddToggleFinal.pattern3 content = Some m)
    /\ inserts_once content out m.
Proof.
  intros Hno. unfold AddToggleFinal.add_toggle_generic.
  destruct (find (AddToggleFinal.ok1 content)
              (rev (re_finditer AddToggleFinal.pattern1 content)))
    as [m|] eqn:F1.
  { intros H. injection H as <-. apply find_some in F1 as [Hin _].
    apply in_rev in Hin. exists m. split; [now left|].
    unfold AddToggleFinal.pattern1 in Hin.
    eapply wrap12_inserts; [|exact Hno|exact Hin]. reflexivity. }
  destruct (find (AddToggleFinal.ok2 content)
              (rev (re_finditer AddToggleFinal.pattern2 content)))
    as [m|] eqn:F2.
  { intros H. injection H as <-. apply find_some in F2 as [Hin _].
    apply in_rev in Hin. exists m. split; [right; now left|].
    unfold AddToggleFinal.pattern2 in Hin.
    eapply wrap12_inserts; [|exact Hno|exact Hin]. reflexivity. }
  destruct (re_search AddToggleFinal.pattern3 content) as [m|] eqn:F3;
    [|discriminate].
  destruct (AddToggleFinal.ok3 content m); [|discriminate].
  intros H. injection H as <-. exists m. split; [right; now right|].
  now apply wrap3_inserts.
Qed.

Lemma generic_inserts_one_toggle_witness :
  contains toggle_open page_two_gaps = false
  /\ exists out,
      AddToggleFinal.add_toggle_generic page_two_gaps = (out, true)
      /\ exists m,
        (In m (re_finditer AddToggleFinal.pattern1 page_two_gaps)
         \/ In m (re_finditer AddToggleFinal.pattern2 page_two_gaps)
         \/ re_search AddToggleFinal.pattern3 page_two_gaps = Some m)
        /\ inserts_once page_two_gaps out m.
Proof.
  split; [vm_compute; reflexivity|].
  destruct (AddToggleFinal.add_toggle_generic page_two_gaps)
    as [out b] eqn:E.
  assert (Hb : b = true) by (vm_compute in E; now injection E as _ <-).
  subst b. exists out. split; [reflexivity|].
  apply (generic_inserts_one_toggle page_two_gaps out);
    [vm_compute; reflexivity | exact E].
Defined.

(** X14.  What [add_toggle] of manual_toggle_add.py writes is the page it
    read with the dashboard link left in place and wrapped: the toggle
    and an indent before the link when the 100 characters before it hold
    the opening of a flex container, a new container with the toggle
    around the link otherwise.  The text before and after the link is
    kept as it is. *)
Theorem manual_rewrite_wraps_the_link (content : text) (m : rmatch) :
  re_search ManualToggleAdd.pattern content = Some m ->
  exists pre link post,
    content = pre ++ link ++ post
    /\ m_start m = length pre /\ m_end m = length pre + length link
    /\ ManualToggleAdd.rewrite content m
       = if contains (lit "<div className=" ++ [dq]
                          ++ lit "flex items-center gap-")
                     (slice content (length pre - 100) (length pre))
         then pre ++ (lit "<DarkModeToggle />" ++ [nl]
                          ++ lit "              ")
                  ++ link ++ post
         else pre ++ (lit "<div className=" ++ [dq]
                          ++ lit "flex items-center gap-4" ++ [dq]
                          ++ lit ">" ++ [nl]
                          ++ lit "              <DarkModeToggle />" ++ [nl]
                          ++ lit "              ")
                  ++ link ++ ([nl] ++ lit "            </div>") ++ post.
Proof.
  intros H. apply shape_g1 in H; [|reflexivity].
  destruct H as (pre & link & post & E & Hs & He & Hg1 & _).
  exists pre, link, post. split; [exact E|]. split; [exact Hs|].
  split; [exact He|].
  unfold ManualToggleAdd.rewrite. rewrite Hg1, Hs, He. cbn [fmt]. cbv zeta.
  destruct (contains _ (slice content (length pre - 100) (length pre)));
    rewrite E, firstn_length_app, skipn_app2, <- !app_assoc; reflexivity.
Qed.

Lemma manual_rewrite_wraps_the_link_witness :
  exists m,
    re_search ManualToggleAdd.pattern link_page = Some m
    /\ exists pre link post,
      link_page = pre ++ link ++ post
      /\ m_start m = length pre /\ m_end m = length pre + length link
      /\ ManualToggleAdd.rewrite link_page m
         = if contains (lit "<div className=" ++ [dq]
                            ++ lit "flex items-center gap-")
                       (slice link_page (length pre - 100) (length pre))
           then pre ++ (lit "<DarkModeToggle />" ++ [nl]
                            ++ lit "              ")
                    ++ link ++ post
           else pre ++ (lit "<div className=" ++ [dq]
                            ++ lit "flex items-center gap-4" ++ [dq]
                            ++ lit ">" ++ [nl]
                            ++ lit "              <DarkModeToggle />"
                            ++ [nl] ++ lit "              ")
                    ++ link ++ ([nl] ++ lit "            </div>") ++ post.
Proof.
  destruct (re_search ManualToggleAdd.pattern link_page) as [m|] eqn:E;
    [|vm_compute in E; discriminate E].
  exists m. split; [reflexivity|].
  exact (manual_rewrite_wraps_the_link link_page m E).
Defined.

(** ** The change log of add_dark_mode.py *)

(** Proves that a text put together from the two parts of [c] around a
    position and some more text is longer than [c]. *)
Ltac longer :=
  rewrite !length_app;
  match goal with
  | |- context [firstn ?p ?c] =>
      let H := fresh "H" in
      pose proof (f_equal (@length ascii) (firstn_skipn p c)) as H;
      rewrite length_app in H; simpl; lia
  end.

Lemma add_import_grows (content : text) (file_path : string) :
  AddDarkMode.add_import content file_path = (content, false)
  \/ (snd (AddDarkMode.add_import content file_path) = true
      /\ length content
         < length (fst (AddDarkMode.add_import content file_path))).
Proof.
  unfold AddDarkMode.add_import.
  destruct (contains (lit "DarkModeToggle") content); [now left|].
  cbv zeta.
  destruct (last (re_finditer AddDarkMode.import_pattern content));
    [|now left].
  right. cbn [fst snd]. split; [reflexivity|].
  longer.
Qed.

Lemma add_dark_mode_classes_grows (content : text) :
  AddDarkMode.add_dark_mode_classes content = (content, false)
  \/ (snd (AddDarkMode.add_dark_mode_classes content) = true
      /\ length content
         < length (fst (AddDarkMode.add_dark_mode_classes content))).
Proof.
  unfold AddDarkMode.add_dark_mode_classes.
  destruct (class_fold_grows _ class_mappings_append (content, false))
    as (_ & [Heq|H]); [now left | now right].
Qed.

Lemma add_dark_mode_toggle_grows (content : text) (file_path : string) :
  AddDarkMode.add_dark_mode_toggle content file_path = (content, false)
  \/ (snd (AddDarkMode.add_dark_mode_toggle content file_path) = true
      /\ length content
         < length (fst (AddDarkMode.add_dark_mode_toggle content
                          file_path))).
Proof.
  unfold AddDarkMode.add_dark_mode_toggle.
  destruct (contains toggle_tag content); [now left|].
  destruct (re_search AddDarkMode.notification_pattern content) as [m|].
  { right. cbv zeta. cbn [fst snd]. split; [reflexivity|].
    longer. }
  destruct (re_search AddDarkMode.logout_pattern content) as [m|];
    [|now left].
  destruct (re_search _ content) as [cm|]; [|now left].
  right. cbv zeta. cbn [fst snd]. split; [reflexivity|].
  longer.
Qed.

(** X15.  The three steps of [process_file] of add_dark_mode.py never
    make the text shorter, and its list of changes is empty exactly when
    the text it ends with is the text it read: the [OK] line always names
    a change, and [No changes needed] is printed only when no step
    reported one. *)
Theorem change_log_matches_the_text (content : text) (file_path : string) :
  (snd (AddDarkMode.transform content file_path) = []
   <-> fst (AddDarkMode.transform content file_path) = content)
  /\ length content
     <= length (fst (AddDarkMode.transform content file_path)).
Proof.
  unfold AddDarkMode.transform.
  pose proof (add_import_grows content file_path) as H1.
  destruct (AddDarkMode.add_import content file_path) as [c1 b1].
  pose proof (add_dark_mode_classes_grows c1) as H2.
  destruct (AddDarkMode.add_dark_mode_classes c1) as [c2 b2].
  pose proof (add_dark_mode_toggle_grows c2 file_path) as H3.
  destruct (AddDarkMode.add_dark_mode_toggle c2 file_path) as [c3 b3].
  cbn [fst snd] in *.
  assert (L1 : length content <= length c1 /\ (b1 = false -> c1 = content)
               /\ (b1 = true -> length content < length c1)).
  { destruct H1 as [E|[E L]]; [injection E as -> ->|subst b1];
      repeat split; try lia; congruence. }
  assert (L2 : length c1 <= length c2 /\ (b2 = false -> c2 = c1)
               /\ (b2 = true -> length c1 < length c2)).
  { destruct H2 as [E|[E L]]; [injection E as -> ->|subst b2];
      repeat split; try lia; congruence. }
  assert (L3 : length c2 <= length c3 /\ (b3 = false -> c3 = c2)
               /\ (b3 = true -> length c2 < length c3)).
  { destruct H3 as [E|[E L]]; [injection E as -> ->|subst b3];
      repeat split; try lia; congruence. }
  destruct L1 as (A1 & B1 & C1), L2 as (A2 & B2 & C2),
           L3 as (A3 & B3 & C3).
  split; [|lia].
  destruct b1, b2, b3; cbn; split; intros H; try discriminate H;
    try reflexivity;
    try (exfalso;
         pose proof (f_equal (@length ascii) H) as HL;
         try specialize (C1 eq_refl); try specialize (C2 eq_refl);
         try specialize (C3 eq_refl); lia).
  rewrite (B3 eq_refl), (B2 eq_refl), (B1 eq_refl). reflexivity.
Qed.

(** ** The order of the anchors *)

(** A piece that holds the toggle between texts without [<] holds it
    once. *)
Lemma tag_piece_once (P Q : text) :
  ~ In lt_char P -> ~ In lt_char Q ->
  match P with [] => True | c :: _ => ~ In c (tl toggle_open) end ->
  count_occ_text toggle_tag (P ++ toggle_tag ++ Q) = 1.
Proof.
  intros HP HQ Hh.
  exact (proj1 (proj2 (@insert_tag_once toggle_open (tl toggle_open) [] 0
                         P Q eq_refl (or_introl eq_refl) eq_refl
                         (Nat.le_refl 0) HP HQ Hh))).
Qed.

Lemma indent14_head : ~ In nl (tl toggle_open).
Proof.
  apply (@forallb_not_in (fun x => negb (Ascii.eqb x nl))); reflexivity.
Qed.

Lemma wrap12_puts (r1 : regex) (content : text) (m : rmatch) :
  groupless r1 = true ->
  In m (re_finditer (Cat (Grp 1 r1) (Grp 2 (Star is_space))) content) ->
  puts_toggle content (AddToggleFinal.wrap12 content m) m.
Proof.
  intros G Hin. apply finditer_sound in Hin.
  apply sound_g12 in Hin; [|exact G|reflexivity].
  destruct Hin as (pre & g1 & g2 & post & E & Hs & He & Hg1 & Hg2
                   & (i2 & c2 & A2)).
  apply accepts_star in A2.
  unfold AddToggleFinal.wrap12, AddToggleFinal.group_or.
  rewrite Hg1, Hg2, Hs, He. cbn [fmt].
  exists (length pre + length g1 + length g2).
  assert (Hp : length pre + length g1 + length g2 <= length content)
    by (rewrite E, !length_app; lia).
  destruct g2 as [|c g2'].
  - exists (AddToggleFinal.indent14 ++ toggle_tag
              ++ AddToggleFinal.indent14).
    split; [rewrite <- He; apply adjacent_end|].
    split; [split; [exact Hp|]|].
    + rewrite E, firstn_length_app, firstn_app3, skipn_app3,
        <- !app_assoc. reflexivity.
    + apply tag_piece_once; try no_lt. exact indent14_head.
  - exists ([] ++ toggle_tag ++ c :: g2').
    split; [rewrite <- He; apply adjacent_end|].
    split; [split; [exact Hp|]|].
    + rewrite E, firstn_length_app, firstn_app3, skipn_app3,
        <- !app_assoc. reflexivity.
    + apply tag_piece_once; try no_lt. exact I.
Qed.

Lemma wrap3_puts (content : text) (m : rmatch) :
  re_search AddToggleFinal.pattern3 content = Some m ->
  puts_toggle content (AddToggleFinal.wrap3 content m) m.
Proof.
  intros H. apply shape_g123 in H; try reflexivity.
  destruct H as (pre & g1 & g2 & g3 & post & E & Hs & He & Hg1 & Hg2
                 & Hg3 & Hsp3 & _ & (i2 & c2 & A2) & _).
  apply accepts_star in A2.
  unfold AddToggleFinal.wrap3, AddToggleFinal.group_or.
  rewrite Hg1, Hg2, Hg3, Hs, He. cbn [fmt].
  exists (length pre + length g1 + length g2).
  assert (Hp : length pre + length g1 + length g2 <= length content)
    by (rewrite E, !length_app; lia).
  destruct g2 as [|c g2'].
  - exists (AddToggleFinal.indent14 ++ toggle_tag
              ++ AddToggleFinal.indent14).
    split; [exists 3; eauto|].
    split; [split; [exact Hp|]|].
    + rewrite E, firstn_length_app, skipn_app4, firstn_app3, skipn_app3,
        <- !app_assoc. reflexivity.
    + apply tag_piece_once; try no_lt. exact indent14_head.
  - exists ([] ++ toggle_tag ++ c :: g2').
    split; [exists 3; eauto|].
    split; [split; [exact Hp|]|].
    + rewrite E, firstn_length_app, skipn_app4, firstn_app3, skipn_app3,
        <- !app_assoc. reflexivity.
    + apply tag_piece_once; try no_lt. exact I.
Qed.

(** C9 (as amended).  The patterns are tried in the order of the script.
    In [add_toggle_to_standard_page] the first pattern that has a match
    decides, by its leftmost match, where the toggle goes.  In
    [add_toggle_generic] a match must also pass the test on the text
    near it: pattern 1, then pattern 2, is decided by the last of its
    matches that passes (the loop walks the matches from the end, and
    the matches stand from left to right), a pattern none of whose
    matches passes is passed over, and pattern 3 is tried by its leftmost
    match only: when that one fails the test, the text comes back
    unchanged.  Each time the result is the text with the toggle put in
    next to the match that decided. *)
Theorem first_fit_in_priority_order :
  (forall content m,
      contains toggle_open content = false ->
      re_search AddToggleComponent.pattern1 content = Some m ->
      exists out,
        AddToggleComponent.add_toggle_to_standard_page content = (out, true)
        /\ inserts_once content out m)
  /\ (forall content m,
      contains toggle_open content = false ->
      re_search AddToggleComponent.pattern1 content = None ->
      re_search AddToggleComponent.pattern2 content = Some m ->
      exists out,
        AddToggleComponent.add_toggle_to_standard_page content = (out, true)
        /\ inserts_once content out m)
  /\ (forall content m,
      contains toggle_open content = false ->
      re_search AddToggleComponent.pattern1 content = None ->
      re_search AddToggleComponent.pattern2 content = None ->
      re_search AddToggleComponent.pattern3 content = Some m ->
      exists out,
        AddToggleComponent.add_toggle_to_standard_page content = (out, true)
        /\ inserts_once content out m)
  /\ (forall content m,
      contains toggle_open content = false ->
      re_search AddToggleComponent.pattern1 content = None ->
      re_search AddToggleComponent.pattern2 content = None ->
      re_search AddToggleComponent.pattern3 content = None ->
      re_search AddToggleComponent.pattern4 content = Some m ->
      exists out,
        AddToggleComponent.add_toggle_to_standard_page content = (out, true)
        /\ inserts_once content out m)
  /\ (forall content before m after,
      re_finditer AddToggleFinal.pattern1 content = before ++ m :: after ->
      AddToggleFinal.ok1 content m = true ->
      (forall x, In x after -> AddToggleFinal.ok1 content x = false) ->
      exists out,
        AddToggleFinal.add_toggle_generic content = (out, true)
        /\ puts_toggle content out m)
  /\ (forall content before m after,
      (forall x, In x (re_finditer AddToggleFinal.pattern1 content) ->
                 AddToggleFinal.ok1 content x = false) ->
      re_finditer AddToggleFinal.pattern2 content = before ++ m :: after ->
      AddToggleFinal.ok2 content m = true ->
      (forall x, In x after -> AddToggleFinal.ok2 content x = false) ->
      exists out,
        AddToggleFinal.add_toggle_generic content = (out, true)
        /\ puts_toggle content out m)
  /\ (forall content m,
      (forall x, In x (re_finditer AddToggleFinal.pattern1 content) ->
                 AddToggleFinal.ok1 content x = false) ->
      (forall x, In x (re_finditer AddToggleFinal.pattern2 content) ->
                 AddToggleFinal.ok2 content x = false) ->
      re_search AddToggleFinal.pattern3 content = Some m ->
      if AddToggleFinal.ok3 content m
      then exists out,
          AddToggleFinal.add_toggle_generic content = (out, true)
          /\ puts_toggle content out m
      else AddToggleFinal.add_toggle_generic content = (content, false))
  /\ (forall r content m,
      re_search r content = Some m ->
      forall j, j < m_start m ->
                match_here r (skipn j content) j false = None)
  /\ (forall r content before m after,
      re_finditer r content = before ++ m :: after ->
      (forall x, In x before -> m_end x <= m_start m)
      /\ (forall x, In x after -> m_end m <= m_start x)).
Proof.
  split; [exact ComponentFacts.standard_first|].
  split; [exact ComponentFacts.standard_second|].
  split; [exact ComponentFacts.standard_third|].
  split; [exact ComponentFacts.standard_fourth|].
  split; [|split; [|split; [|split]]].
  - intros content before m after E Hm Hafter.
    unfold AddToggleFinal.add_toggle_generic.
    rewrite (find_rev_last _ _ before after m E Hm Hafter).
    eexists. split; [reflexivity|].
    unfold AddToggleFinal.pattern1 in E.
    eapply wrap12_puts; cycle 1.
    { rewrite E. apply in_or_app. right. now left. }
    reflexivity.
  - intros content before m after H1 E Hm Hafter.
    unfold AddToggleFinal.add_toggle_generic.
    rewrite (find_rev_none _ _ H1).
    rewrite (find_rev_last _ _ before after m E Hm Hafter).
    eexists. split; [reflexivity|].
    unfold AddToggleFinal.pattern2 in E.
    eapply wrap12_puts; cycle 1.
    { rewrite E. apply in_or_app. right. now left. }
    reflexivity.
  - intros content m H1 H2 H.
    unfold AddToggleFinal.add_toggle_generic.
    rewrite (find_rev_none _ _ H1), (find_rev_none _ _ H2), H.
    destruct (AddToggleFinal.ok3 content m); [|reflexivity].
    eexists. split; [reflexivity|]. now apply wrap3_puts.
  - apply re_search_leftmost.
  - apply finditer_split.
Qed.

Lemma first_fit_in_priority_order_witness :
  (contains toggle_open page_two_anchors = false
   /\ exists m out,
      re_search AddToggleComponent.pattern1 page_two_anchors = Some m
      /\ re_search AddToggleComponent.pattern2 page_two_anchors <> None
      /\ AddToggleComponent.add_toggle_to_standard_page page_two_anchors
         = (out, true)
      /\ inserts_once page_two_anchors out m)
  /\ (exists m1 m2 out,
      re_finditer AddToggleFinal.pattern1 page_two_gaps = [m1; m2]
      /\ AddToggleFinal.ok1 page_two_gaps m1 = true
      /\ AddToggleFinal.ok1 page_two_gaps m2 = true
      /\ AddToggleFinal.add_toggle_generic page_two_gaps = (out, true)
      /\ puts_toggle page_two_gaps out m2
      /\ m_end m1 <= m_start m2)
  /\ (exists m,
      re_search AddToggleFinal.pattern3 page_two_links = Some m
      /\ AddToggleFinal.ok3 page_two_links m = false
      /\ AddToggleFinal.add_toggle_generic page_two_links
         = (page_two_links, false)).
Proof.
  destruct first_fit_in_priority_order
    as (H1 & _ & _ & _ & H5 & _ & H7 & _ & H9).
  split; [|split].
  - split; [vm_compute; reflexivity|].
    destruct (re_search AddToggleComponent.pattern1 page_two_anchors)
      as [m|] eqn:E; [|vm_compute in E; discriminate E].
    destruct (H1 page_two_anchors m) as (out & Hout & Hins);
      [vm_compute; reflexivity | exact E |].
    exists m, out. split; [reflexivity|].
    split; [vm_compute; discriminate|]. split; assumption.
  - destruct (re_finditer AddToggleFinal.pattern1 page_two_gaps)
      as [|m1 [|m2 [|m3 l]]] eqn:E; try (vm_compute in E; discriminate E).
    assert (E' := E). vm_compute in E'. injection E' as <- <-.
    match type of E with
    | _ = [?a; ?b] =>
        destruct (H5 page_two_gaps [a] b []) as (out & Hout & Hputs);
          [exact E | reflexivity | intros x [] |];
        destruct (H9 _ page_two_gaps [a] b [] E) as (Hb & _);
        exists a, b, out
    end.
    split; [reflexivity|]. split; [reflexivity|]. split; [reflexivity|].
    split; [exact Hout|]. split; [exact Hputs|].
    apply Hb. now left.
  - destruct (re_search AddToggleFinal.pattern3 page_two_links)
      as [m|] eqn:E; [|vm_compute in E; discriminate E].
    assert (Hok : AddToggleFinal.ok3 page_two_links m = false).
    { assert (E' := E). vm_compute in E'. injection E' as <-.
      vm_compute. reflexivity. }
    exists m. split; [reflexivity|]. split; [exact Hok|].
    assert (H := H7 page_two_links m). rewrite Hok in H. apply H.
    + intros x Hx. exfalso. vm_compute in Hx. exact Hx.
    + intros x Hx. exfalso. vm_compute in Hx. exact Hx.
    + exact E.
Defined.

(** The claim that the first fit wins does not hold for
    [add_toggle_generic].  On [page_two_gaps] both matches of pattern 1
    pass the test and the toggle goes next to the second, not the first.
    On [page_two_links] pattern 3 has two matches; the second passes the
    test, the first does not, and the text comes back unchanged. *)
Lemma generic_is_not_first_fit :
  (exists m1 m2,
      re_finditer AddToggleFinal.pattern1 page_two_gaps = [m1; m2]
      /\ AddToggleFinal.ok1 page_two_gaps m1 = true
      /\ AddToggleFinal.ok1 page_two_gaps m2 = true
      /\ m_end m1 <= m_start m2
      /\ AddToggleFinal.add_toggle_generic page_two_gaps
         = (AddToggleFinal.wrap12 page_two_gaps m2, true)
      /\ AddToggleFinal.wrap12 page_two_gaps m2
         <> AddToggleFinal.wrap12 page_two_gaps m1
      /\ AddToggleFinal.wrap12 page_two_gaps m2
         = firstn (m_end m2) page_two_gaps
             ++ (AddToggleFinal.indent14 ++ toggle_tag
                   ++ AddToggleFinal.indent14)
             ++ skipn (m_end m2) page_two_gaps)
  /\ (exists m1 m2,
      re_finditer AddToggleFinal.pattern3 page_two_links = [m1; m2]
      /\ re_finditer AddToggleFinal.pattern1 page_two_links = []
      /\ re_finditer AddToggleFinal.pattern2 page_two_links = []
      /\ AddToggleFinal.ok3 page_two_links m1 = false
      /\ AddToggleFinal.ok3 page_two_links m2 = true
      /\ AddToggleFinal.add_toggle_generic page_two_links
         = (page_two_links, false)).
Proof.
  split.
  - eexists _, _. split; [vm_compute; reflexivity|].
    split; [vm_compute; reflexivity|]. split; [vm_compute; reflexivity|].
    split; [vm_compute; lia|]. split; [vm_compute; reflexivity|].
    split; [vm_compute; discriminate | vm_compute; reflexivity].
  - eexists _, _. split; [vm_compute; reflexivity|].
    split; [vm_compute; reflexivity|]. split; [vm_compute; reflexivity|].
    split; [vm_compute; reflexivity|]. split; vm_compute; reflexivity.
Qed.
